(** * Transaction import and reporting: a shallow embedding

    The development follows the layout of the application:
    - [schemas.py]      : row validation ([TransactionCSVRow]), error records;
    - [models.py]       : the tables and their column types;
    - [repositories.py] : the data-access layer over a SQLAlchemy session;
    - [services.py]     : [ImportService] and [ReportService].

    Python integers are [Z], strings are [string] (read as sequences of
    ASCII characters), [Decimal] is a sign, a coefficient and an exponent,
    a [set] of identifiers is a [gset], a [dict] a [gmap].  Code that can
    raise runs in a state-and-exception monad over the session.

    What the application takes from its libraries is modelled at their
    interface: the uploaded file is given by the records [csv.reader]
    splits it into, to its end or to the record where the reader gives up;
    pydantic's parsers of identifiers and timestamps are
    parameters ([FieldParsers]); the session follows SQLAlchemy (a flush
    that fails rolls the transaction back and leaves the session unusable
    until an explicit rollback); rows committed by other sessions while an
    import runs are a parameter too ([ConcurrentWriters]). *)

From Stdlib Require Import ZArith QArith Qabs Qround Qpower Ascii String List.
From stdpp Require Import base option list gmap strings pretty.

Local Open Scope string_scope.
Local Open Scope list_scope.
Local Open Scope Z_scope.

(** ** Python preliminaries *)

(** Exceptions that the modelled code can see.  [str(e)] is [exn_str]. *)
Inductive exn : Type :=
  | UnicodeDecodeError
  | CsvError (msg : string)
  | InvalidOperation (msg : string)
  | Overflow
  | TypeError (msg : string)
  | ValueError (msg : string)
  | PydanticValidationError (model : string)
  | IntegrityError (constraint : string)
  | DataError (msg : string)
  | PendingRollbackError.

Definition exn_str (e : exn) : string :=
  match e with
  | UnicodeDecodeError => "'utf-8' codec can't decode bytes"
  | CsvError msg => msg
  | InvalidOperation msg => msg
  | Overflow => "above Emax"
  | TypeError msg => msg
  | ValueError msg => msg
  | PydanticValidationError model => "validation error for " +:+ model
  | IntegrityError c => "duplicate key or missing reference: " +:+ c
  | DataError msg => msg
  | PendingRollbackError =>
      "This Session's transaction has been rolled back due to a previous exception during flush."
  end.

(** The outcome of a call: a value, or a raised exception. *)
Inductive Result (A : Type) : Type :=
  | Returned (a : A)
  | Raised (e : exn).
Arguments Returned {A} a.
Arguments Raised {A} e.

Definition is_Raised {A} (r : Result A) : bool :=
  match r with Raised _ => true | Returned _ => false end.

(** *** Characters and whitespace *)

Definition code (c : ascii) : N := N_of_ascii c.

(** [str.isspace] on ASCII: TAB..CR, FS..US and the space. *)
Definition py_isspace (c : ascii) : bool :=
  ((9 <=? code c) && (code c <=? 13) || (28 <=? code c) && (code c <=? 32))%N.

(** pydantic-core trims with Rust's [char::is_whitespace]; on ASCII that
    is TAB..CR and the space. *)
Definition rs_is_whitespace (c : ascii) : bool :=
  ((9 <=? code c) && (code c <=? 13) || (code c =? 32))%N.

Fixpoint lstrip (sp : ascii -> bool) (l : list ascii) : list ascii :=
  match l with
  | [] => []
  | c :: r => if sp c then lstrip sp r else l
  end.

Definition strip (sp : ascii -> bool) (l : list ascii) : list ascii :=
  rev (lstrip sp (rev (lstrip sp l))).

Definition str_strip (sp : ascii -> bool) (s : string) : string :=
  string_of_list_ascii (strip sp (list_ascii_of_string s)).

Definition is_digit (c : ascii) : bool := ((48 <=? code c) && (code c <=? 57))%N.

Definition digit_val (c : ascii) : N := (code c - 48)%N.

Definition digits_value (l : list ascii) : N :=
  fold_left (fun acc c => (10 * acc + digit_val c)%N) l 0%N.

Definition all_digits (l : list ascii) : bool := forallb is_digit l.

Definition lower (c : ascii) : ascii :=
  if ((65 <=? code c) && (code c <=? 90))%N then ascii_of_N (code c + 32) else c.

(** Everything before the first character satisfying [p], and what follows
    that character when there is one. *)
Fixpoint split_on (p : ascii -> bool) (l : list ascii) : list ascii * option (list ascii) :=
  match l with
  | [] => ([], None)
  | c :: r =>
      if p c then ([], Some r)
      else let '(a, b) := split_on p r in (c :: a, b)
  end.

Definition is_nil {A} (l : list A) : bool :=
  match l with [] => true | _ => false end.

(** [sep.join(l)] *)
Fixpoint join (sep : string) (l : list string) : string :=
  match l with
  | [] => ""
  | [x] => x
  | x :: r => x +:+ sep +:+ join sep r
  end.

(** ** [decimal.Decimal] *)

(** A finite decimal: [(-1)^sign * coeff * 10^exp]; [dec_exp] is
    [as_tuple().exponent]. *)
Record Decimal : Type := mkDecimal {
  dec_sign : bool;
  dec_coeff : N;
  dec_exp : Z;
}.

Inductive PyDecimal : Type :=
  | Finite (d : Decimal)
  | NonFinite.

(** The signed coefficient. *)
Definition dec_num (d : Decimal) : Z :=
  if dec_sign d then - Z.of_N (dec_coeff d) else Z.of_N (dec_coeff d).

Definition dec_of_num (n : Z) (e : Z) : Decimal :=
  mkDecimal (n <? 0) (Z.to_N (Z.abs n)) e.

(** The rational a decimal denotes. *)
Definition dec_value (d : Decimal) : Q :=
  (inject_Z (dec_num d) * Qpower (10 # 1) (dec_exp d))%Q.

Definition dec_is_zero (d : Decimal) : bool := (dec_coeff d =? 0)%N.

(** [d > 0] *)
Definition dec_gt0 (d : Decimal) : bool :=
  negb (dec_sign d) && negb (dec_is_zero d).

(** [a * b] (exact). *)
Definition dec_mul (a b : Decimal) : Decimal :=
  mkDecimal (xorb (dec_sign a) (dec_sign b)) (dec_coeff a * dec_coeff b)
            (dec_exp a + dec_exp b).

(** [a + b] (exact): both coefficients are brought to the smaller exponent. *)
Definition dec_add (a b : Decimal) : Decimal :=
  let e := Z.min (dec_exp a) (dec_exp b) in
  dec_of_num (dec_num a * 10 ^ (dec_exp a - e) + dec_num b * 10 ^ (dec_exp b - e)) e.

(** [d.quantize(Decimal("0.01"), rounding=ROUND_HALF_UP)]: the result has
    exponent -2; dropped digits round to nearest, ties away from zero; the
    sign is kept.  (The context precision of 28 digits is not modelled.) *)
Definition quantize_half_up_2 (d : Decimal) : Decimal :=
  if -2 <=? dec_exp d
  then mkDecimal (dec_sign d) (dec_coeff d * Z.to_N (10 ^ (dec_exp d + 2))) (-2)
  else
    let k := 10 ^ (-2 - dec_exp d) in
    let c := Z.of_N (dec_coeff d) in
    let q := c / k in
    let r := c mod k in
    mkDecimal (dec_sign d) (Z.to_N (if k <=? 2 * r then q + 1 else q)) (-2).

(** [Decimal.normalize()]: trailing zeros of the coefficient are moved to
    the exponent; zero becomes [0E0].  [fuel] bounds the number of zeros
    removed (the number of digits suffices). *)
Fixpoint strip_zeros (fuel : nat) (c : N) (e : Z) : N * Z :=
  match fuel with
  | O => (c, e)
  | S f => if ((c mod 10 =? 0) && negb (c =? 0))%N then strip_zeros f (c / 10)%N (e + 1) else (c, e)
  end.

Definition normalize (d : Decimal) : Decimal :=
  if dec_is_zero d then mkDecimal (dec_sign d) 0 0
  else let '(c, e) := strip_zeros (N.to_nat (N.log2 (dec_coeff d)) + 1) (dec_coeff d) (dec_exp d) in
       mkDecimal (dec_sign d) c e.

(** *** The arithmetic context *)

(** The default context of the [decimal] module: results of arithmetic
    are rounded to 28 digits, ties to even, exponents are bounded, and of
    the signals only [InvalidOperation], [DivisionByZero] and [Overflow]
    raise. *)
Module DefaultContext.
Definition prec : Z := 28.
Definition Emax : Z := 999999.
Definition Emin : Z := -999999.
Definition Etiny : Z := Emin - prec + 1.
Definition Etop : Z := Emax - prec + 1.
End DefaultContext.

(** [len(str(c))] for [0 <= c]: the least [d >= 1] with [c < 10 ^ d],
    searched upwards from [d]. *)
Fixpoint ndigits_from (fuel : nat) (d : Z) (c : Z) : Z :=
  match fuel with
  | O => d
  | S f => if c <? 10 ^ d then d else ndigits_from f (d + 1) c
  end.

Definition ndigits (c : N) : Z :=
  ndigits_from (Z.to_nat (Z.log2 (Z.of_N c)) + 1) 1 (Z.of_N c).

(** [d.adjusted()]: the exponent of the leading digit. *)
Definition adjusted (d : Decimal) : Z := dec_exp d + ndigits (dec_coeff d) - 1.

(** The coefficient [c] without its last [k] digits, rounded half even:
    up when the dropped digits are more than a half, or just a half and
    the kept part is odd. *)
Definition drop_half_even (c : N) (k : Z) : N :=
  let p := 10 ^ k in
  let q := Z.of_N c / p in
  let r := Z.of_N c mod p in
  Z.to_N (if (p <? 2 * r) || ((p =? 2 * r) && Z.odd q) then q + 1 else q).

(** [Decimal._fix(context)] on a finite number: the result of an
    arithmetic operation is brought within the precision and the exponent
    range of the context. *)
Definition Decimal_fix (d : Decimal) : Result Decimal :=
  let Etiny := DefaultContext.Etiny in
  let Etop := DefaultContext.Etop in
  if dec_is_zero d
  then Returned (mkDecimal (dec_sign d) 0
                   (Z.min (Z.max (dec_exp d) Etiny) DefaultContext.Emax))
  else
    let exp_min := ndigits (dec_coeff d) + dec_exp d - DefaultContext.prec in
    if Etop <? exp_min then Raised Overflow
    else
      let exp_min := Z.max exp_min Etiny in
      if dec_exp d <? exp_min
      then
        let coeff := drop_half_even (dec_coeff d) (exp_min - dec_exp d) in
        let '(coeff, exp_min) :=
          if DefaultContext.prec <? ndigits coeff
          then ((coeff / 10)%N, exp_min + 1)
          else (coeff, exp_min) in
        if Etop <? exp_min then Raised Overflow
        else Returned (mkDecimal (dec_sign d) coeff exp_min)
      else Returned d.

(** [a * b] *)
Definition Decimal_mul (a b : Decimal) : Result Decimal :=
  Decimal_fix (dec_mul a b).

(** [d._rescale(-2, ROUND_HALF_EVEN)] *)
Definition rescale_half_even_2 (d : Decimal) : Decimal :=
  if dec_is_zero d then mkDecimal (dec_sign d) 0 (-2)
  else if -2 <=? dec_exp d
  then mkDecimal (dec_sign d) (dec_coeff d * Z.to_N (10 ^ (dec_exp d + 2))) (-2)
  else mkDecimal (dec_sign d) (drop_half_even (dec_coeff d) (-2 - dec_exp d)) (-2).

(** [d.quantize(Decimal("0.01"))]: the number rounded half even to
    exponent -2; [InvalidOperation] when that takes more digits than the
    precision. *)
Definition quantize_2 (d : Decimal) : Result Decimal :=
  if dec_is_zero d then Decimal_fix (mkDecimal (dec_sign d) 0 (-2))
  else if DefaultContext.Emax <? adjusted d
  then Raised (InvalidOperation "exponent of quantize result too large for current context")
  else if DefaultContext.prec <? adjusted d - (-2) + 1
  then Raised (InvalidOperation "quantize result has too many digits for current context")
  else
    let ans := rescale_half_even_2 d in
    if DefaultContext.Emax <? adjusted ans
    then Raised (InvalidOperation "exponent of quantize result too large for current context")
    else if DefaultContext.prec <? ndigits (dec_coeff ans)
    then Raised (InvalidOperation "quantize result has too many digits for current context")
    else Decimal_fix ans.

(** *** [Decimal(str)] *)

Definition is_special (l : list ascii) : bool :=
  let s := string_of_list_ascii (map lower l) in
  if decide (s = "inf") then true
  else if decide (s = "infinity") then true
  else match map lower l with
       | "n" :: "a" :: "n" :: r => all_digits r
       | "s" :: "n" :: "a" :: "n" :: r => all_digits r
       | _ => false
       end%char.

Definition take_sign (l : list ascii) : bool * list ascii :=
  match l with
  | "+"%char :: r => (false, r)
  | "-"%char :: r => (true, r)
  | _ => (false, l)
  end.

Definition is_underscore (c : ascii) : bool := (code c =? 95)%N.
Definition is_dot (c : ascii) : bool := (code c =? 46)%N.
Definition is_e (c : ascii) : bool := ((code c =? 101) || (code c =? 69))%N.

(** The numeric-string grammar of the [decimal] module: surrounding
    whitespace and all underscores are dropped, then
    [sign? (digits? ('.' digits?)? (E sign? digits)? | Inf | NaN)] with at
    least one digit in the mantissa.  [None] is [InvalidOperation]. *)
Definition Decimal_of_str (s : string) : option PyDecimal :=
  let l := List.filter (fun c => negb (is_underscore c))
                       (strip py_isspace (list_ascii_of_string s)) in
  let '(sg, l) := take_sign l in
  if is_special l then Some NonFinite
  else
    let '(mant, ex) := split_on is_e l in
    let '(ip, fpo) := split_on is_dot mant in
    let fp := default [] fpo in
    if all_digits ip && all_digits fp && negb (is_nil ip && is_nil fp)
    then
      let c := digits_value (ip ++ fp) in
      let places := Z.of_nat (length fp) in
      match ex with
      | None => Some (Finite (mkDecimal sg c (- places)))
      | Some el =>
          let '(esg, ed) := take_sign el in
          if all_digits ed && negb (is_nil ed)
          then let e := Z.of_N (digits_value ed) in
               Some (Finite (mkDecimal sg c ((if esg then - e else e) - places)))
          else None
      end
    else None.

(** The canonical integer literal accepted for an [int] field from a
    string: trimmed, an optional sign, decimal digits. *)
Definition int_of_str (s : string) : option Z :=
  let '(sg, l) := take_sign (strip rs_is_whitespace (list_ascii_of_string s)) in
  if all_digits l && negb (is_nil l)
  then Some (if sg then - Z.of_N (digits_value l) else Z.of_N (digits_value l))
  else None.


(** ** [schemas.py] *)

(** A [UUID] is its 128-bit value; a [datetime] is an instant on the time
    line (microseconds since the epoch). *)
Definition UUID : Type := N.
Definition datetime : Type := Z.
Bind Scope N_scope with UUID.
Bind Scope Z_scope with datetime.

Definition hex_digit (n : N) : ascii :=
  if (n <? 10)%N then ascii_of_N (48 + n) else ascii_of_N (87 + n).

Fixpoint hex_digits (k : nat) (n : N) : list ascii :=
  match k with
  | O => []
  | S k' => hex_digits k' (n / 16)%N ++ [hex_digit (n mod 16)%N]
  end.

(** [str(uuid)]: 32 hexadecimal digits grouped 8-4-4-4-12. *)
Definition UUID_str (u : UUID) : string :=
  let h := hex_digits 32 u in
  let dash := ["-"%char] in
  string_of_list_ascii
    (take 8 h ++ dash ++ take 4 (drop 8 h) ++ dash ++ take 4 (drop 12 h) ++ dash
       ++ take 4 (drop 16 h) ++ dash ++ drop 20 h).

(** pydantic's parsers for [UUID] and [datetime] fields are library code:
    the development is parametric in them. *)
Class FieldParsers : Type := {
  parse_uuid : string -> option UUID;
  parse_datetime : string -> option datetime;
}.

Inductive CurrencyEnum : Type := PLN | EUR | USD.

#[export] Instance CurrencyEnum_eq_dec : EqDecision CurrencyEnum.
Proof. solve_decision. Defined.

(** [CurrencyEnum(value)] *)
Definition CurrencyEnum_of_str (s : string) : option CurrencyEnum :=
  if decide (s = "PLN") then Some PLN
  else if decide (s = "EUR") then Some EUR
  else if decide (s = "USD") then Some USD
  else None.

Definition CurrencyEnum_value (c : CurrencyEnum) : string :=
  match c with PLN => "PLN" | EUR => "EUR" | USD => "USD" end.

Record ConfigDict : Type := {
  str_strip_whitespace : bool;
  use_enum_values : bool;
}.

(** [TransactionCSVRow.model_config] *)
Definition model_config : ConfigDict :=
  {| str_strip_whitespace := true; use_enum_values := true |}.

(** The input of a [str] field under a configuration: stripped first when
    the configuration says so. *)
Definition str_input (cfg : ConfigDict) (s : string) : string :=
  if str_strip_whitespace cfg then str_strip rs_is_whitespace s else s.

(** One row as [csv.DictReader] yields it: the cells under their header
    names ([None] where the record was too short), and the surplus cells
    under the key [None] where it was too long. *)
Record RawRow : Type := {
  cells : gmap string (option string);
  restkey : option (list string);
}.

(** The validated row; [TransactionCreate] has the same fields. *)
Record TransactionCreate : Type := {
  transaction_id : UUID;
  timestamp : datetime;
  amount : Decimal;
  currency : CurrencyEnum;
  customer_id : UUID;
  product_id : UUID;
  quantity : Z;
}.

(** The input of a field: absent when the key is missing or the cell is
    [None]; neither validates for any of the seven fields. *)
Definition field_input (row : RawRow) (name : string) : option string :=
  mjoin (cells row !! name).

(** pydantic's digit check for [decimal_places=2], on the normalised
    value. *)
Definition decimal_places_ok (d : Decimal) : bool :=
  -2 <=? dec_exp (normalize d).

(** [validate_amount]: the field validator of [amount]. *)
Definition validate_amount (v : Decimal) : Result Decimal :=
  if dec_exp v <? -2
  then Raised (ValueError "Amount must have at most 2 decimal places")
  else Returned v.

(** [amount: Decimal = Field(..., gt=0, decimal_places=2)] followed by
    [validate_amount]. *)
Definition amount_field (s : string) : option Decimal :=
  match Decimal_of_str s with
  | Some (Finite d) =>
      if decimal_places_ok d && dec_gt0 d
      then match validate_amount d with Returned v => Some v | Raised _ => None end
      else None
  | _ => None
  end.

(** [currency: CurrencyEnum].  pydantic validates an enumeration field by
    looking the input up among the values of the members, as it is:
    [str_strip_whitespace] is applied to the fields of type [str], and the
    model has none. *)
Definition currency_field (s : string) : option CurrencyEnum :=
  CurrencyEnum_of_str s.

(** [quantity: int = Field(..., gt=0)] *)
Definition quantity_field (s : string) : option Z :=
  match int_of_str s with
  | Some q => if 0 <? q then Some q else None
  | None => None
  end.

(** [TransactionCSVRow( **row )]: a [None] key is a [TypeError] of the call
    itself; otherwise every field is validated and any failure raises
    pydantic's validation error.  Columns other than the seven fields are
    ignored. *)
Definition TransactionCSVRow {parsers : FieldParsers} (row : RawRow) : Result TransactionCreate :=
  match restkey row with
  | Some _ => Raised (TypeError "keywords must be strings")
  | None =>
      match field_input row "transaction_id" ≫= parse_uuid,
            field_input row "timestamp" ≫= parse_datetime,
            field_input row "amount" ≫= amount_field,
            field_input row "currency" ≫= currency_field,
            field_input row "customer_id" ≫= parse_uuid,
            field_input row "product_id" ≫= parse_uuid,
            field_input row "quantity" ≫= quantity_field with
      | Some tid, Some ts, Some a, Some c, Some cid, Some pid, Some q =>
          Returned {| transaction_id := tid; timestamp := ts; amount := a;
                      currency := c; customer_id := cid; product_id := pid;
                      quantity := q |}
      | _, _, _, _, _, _, _ => Raised (PydanticValidationError "TransactionCSVRow")
      end
  end.

Record ValidationError : Type := {
  row_number : Z;
  field : option string;
  error : string;
  raw_data : option (gmap string string);
}.

(** [raw_data: dict[str, str] | None]: every key and every value of the
    mapping must be a string. *)
Definition raw_data_input (row : RawRow) : option (gmap string string) :=
  match restkey row with
  | Some _ => None
  | None =>
      if forallb (fun kv => bool_decide (is_Some kv.2)) (map_to_list (cells row))
      then Some (omap id (cells row))
      else None
  end.

(** [ValidationError(row_number=.., field=.., error=.., raw_data=..)] *)
Definition mk_ValidationError (row_number : Z) (field : option string) (error : string)
    (raw : option RawRow) : Result ValidationError :=
  match raw with
  | None =>
      Returned {| row_number := row_number; field := field; error := error;
                  raw_data := None |}
  | Some row =>
      match raw_data_input row with
      | Some d =>
          Returned {| row_number := row_number; field := field; error := error;
                      raw_data := Some d |}
      | None => Raised (PydanticValidationError "ValidationError")
      end
  end.

Record FileUploadResponse : Type := {
  message : string;
  processed_count : Z;
  error_count : Z;
  errors : list (gmap string string);
}.

(** [EXCHANGE_RATES] *)
Definition EXCHANGE_RATES (c : CurrencyEnum) : Decimal :=
  match c with
  | PLN => mkDecimal false 10 (-1)
  | EUR => mkDecimal false 43 (-1)
  | USD => mkDecimal false 40 (-1)
  end.

(** ** [models.py] *)

Module Transaction.
(** A row of [transactions].  [amount] is [DECIMAL(10, 2)], held as the
    number of hundredths; the server-side timestamps are left out. *)
Record t : Type := mk {
  transaction_id : UUID;
  timestamp : datetime;
  amount : Z;
  currency : CurrencyEnum;
  quantity : Z;
  customer_id : UUID;
  product_id : UUID;
}.
End Transaction.

Inductive ImportStatus : Type := pending | processing | completed | failed.

#[export] Instance ImportStatus_eq_dec : EqDecision ImportStatus.
Proof. solve_decision. Defined.

(** [error_details]: the JSON text of an error list, or a message. *)
Inductive ErrorDetails : Type :=
  | json_dumps (errs : list ValidationError)
  | str_of (msg : string).

Module ImportBatch.
Record t : Type := mk {
  batch_id : UUID;
  filename : string;
  status : ImportStatus;
  total_rows : Z;
  processed_rows : Z;
  error_rows : Z;
  error_details : option ErrorDetails;
}.
End ImportBatch.

(** The four tables.  [customers] and [products] have the identifier as
    their only column. *)
Record DB : Type := mkDB {
  transactions : list Transaction.t;
  customers : gset UUID;
  products : gset UUID;
  import_batches : gmap UUID ImportBatch.t;
}.

(** The value a [Decimal] takes in a [DECIMAL(10, 2)] column: rounded to two
    places, [None] when it does not fit ten digits. *)
Definition to_numeric_10_2 (d : Decimal) : option Z :=
  let n := dec_num (quantize_half_up_2 d) in
  if Z.abs n <? 10 ^ 10 then Some n else None.

(** The range of an [Integer] column. *)
Definition fits_integer (n : Z) : bool :=
  (- 2 ^ 31 <=? n) && (n <? 2 ^ 31).

(** [Transaction( **data.model_dump() )] as it reaches the table. *)
Definition Transaction_of (data : TransactionCreate) : option Transaction.t :=
  match to_numeric_10_2 (amount data) with
  | Some cents =>
      if fits_integer (quantity data)
      then Some (Transaction.mk (transaction_id data) (timestamp data) cents
                   (currency data) (quantity data) (customer_id data) (product_id data))
      else None
  | None => None
  end.

(** ** The session *)

(** A SQLAlchemy session inside one database transaction: [snapshot] is the
    database as it was when the transaction began, [view] is what the
    transaction sees (the snapshot and its own flushed writes).  A failed
    flush rolls the transaction back and leaves the session inactive: every
    later statement raises until the caller rolls back explicitly.
    [status_log] is a history variable: the status assignments made to
    import batches, oldest first; it is not part of the database. *)
Record Session : Type := mkSession {
  snapshot : DB;
  view : DB;
  active : bool;
  status_log : list (UUID * ImportStatus);
}.

(** Rows committed by other writers after this session has read and before
    it inserts: invisible to its reads, present for the uniqueness checks of
    its inserts. *)
Class ConcurrentWriters : Type := {
  racing_transactions : gset UUID;
  racing_customers : gset UUID;
  racing_products : gset UUID;
}.

Definition no_writers : ConcurrentWriters :=
  {| racing_transactions := ∅; racing_customers := ∅; racing_products := ∅ |}.

(** Computations over the session that may raise. *)
Definition M (A : Type) : Type := Session -> Result A * Session.

#[export] Instance M_ret : MRet M := fun A a s => (Returned a, s).

#[export] Instance M_bind : MBind M := fun A B f m s =>
  match m s with
  | (Returned a, s') => f a s'
  | (Raised e, s') => (Raised e, s')
  end.

Definition raise {A} (e : exn) : M A := fun s => (Raised e, s).

Definition lift {A} (r : Result A) : M A := fun s => (r, s).

(** [try: m  except Exception as e: h e] *)
Definition try_except {A} (m : M A) (h : exn -> M A) : M A := fun s =>
  match m s with
  | (Returned a, s') => (Returned a, s')
  | (Raised e, s') => h e s'
  end.

(** [await session.execute(select ...)]: a read of the view. *)
Definition execute {A} (q : DB -> A) : M A := fun s =>
  if active s then (Returned (q (view s)), s) else (Raised PendingRollbackError, s).

Definition rolled_back (s : Session) : Session :=
  mkSession (snapshot s) (snapshot s) false (status_log s).

(** [await session.flush()] with pending changes.  It needs an active
    transaction.  When the database rejects the changes ([reject]) the
    transaction is rolled back and the error is raised; otherwise the
    changes [w] reach the view, and [w] also gives what the database
    returns (generated keys). *)
Definition flush_returning {A} (reject : DB -> option exn) (w : DB -> A * DB) : M A := fun s =>
  if active s then
    match reject (view s) with
    | Some e => (Raised e, rolled_back s)
    | None =>
        let '(a, db) := w (view s) in
        (Returned a, mkSession (snapshot s) db (active s) (status_log s))
    end
  else (Raised PendingRollbackError, s).

Definition flush (reject : DB -> option exn) (w : DB -> DB) : M unit :=
  flush_returning reject (fun db => (tt, w db)).

Definition log_status (batch_id : UUID) (st : ImportStatus) : M unit := fun s =>
  (Returned tt, mkSession (snapshot s) (view s) (active s) (status_log s ++ [(batch_id, st)])).

(** *** Report schemas and SQL aggregates *)

Module CustomerSummaryResponse.
Record t : Type := mk {
  customer_id : UUID;
  total_amount_pln : Decimal;
  unique_products_count : Z;
  last_transaction_date : option datetime;
}.
End CustomerSummaryResponse.

Module ProductSummaryResponse.
Record t : Type := mk {
  product_id : UUID;
  total_quantity_sold : Z;
  total_revenue_pln : Decimal;
  unique_customers_count : Z;
}.
End ProductSummaryResponse.

(** [timestamp >= start_date] and [timestamp <= end_date], each only when
    the bound is given. *)
Definition in_window (start_date end_date : option datetime) (ts : datetime) : bool :=
  match start_date with Some s => s <=? ts | None => true end
  && match end_date with Some e => ts <=? e | None => true end.

(** The [case(...)] of the aggregation queries. *)
Definition rate_case (c : CurrencyEnum) : Decimal :=
  match c with
  | PLN => mkDecimal false 10 (-1)
  | EUR => mkDecimal false 43 (-1)
  | USD => mkDecimal false 40 (-1)
  end.

(** The [amount] column read as a decimal. *)
Definition amount_dec (r : Transaction.t) : Decimal :=
  dec_of_num (Transaction.amount r) (-2).

(** SQL [SUM]: [NULL] over no rows. *)
Definition sql_sum (l : list Decimal) : option Decimal :=
  match l with
  | [] => None
  | x :: r => Some (fold_left dec_add r x)
  end.

Definition sql_sum_int (l : list Z) : option Z :=
  match l with
  | [] => None
  | x :: r => Some (fold_left Z.add r x)
  end.

(** SQL [MAX]: [NULL] over no rows. *)
Definition sql_max (l : list datetime) : option datetime :=
  match l with
  | [] => None
  | x :: r => Some (fold_left Z.max r x)
  end.

(** SQL [COUNT(DISTINCT ...)] *)
Definition count_distinct (l : list UUID) : Z :=
  Z.of_nat (size (list_to_set l : gset UUID)).

(** [Decimal(str(total or 0))]: [None] and a zero total are both falsy. *)
Definition total_or_0 (total : option Decimal) : Decimal :=
  match total with
  | Some d => if dec_is_zero d then mkDecimal false 0 0 else d
  | None => mkDecimal false 0 0
  end.

Definition revenue (r : Transaction.t) : Decimal :=
  dec_mul (amount_dec r) (rate_case (Transaction.currency r)).


(** ** [repositories.py] *)

Module TransactionRepository.
Section Repo.
Context {writers : ConcurrentWriters}.

(** What the database checks when the rows are inserted: the primary key
    is unique, the referenced customer and product exist. *)
Definition insert_ok (db : DB) (rows : list Transaction.t) : bool :=
  let ids := Transaction.transaction_id <$> rows in
  bool_decide (NoDup ids)
  && forallb (fun r =>
       bool_decide (Transaction.transaction_id r ∉ Transaction.transaction_id <$> transactions db)
       && bool_decide (Transaction.transaction_id r ∉ racing_transactions)
       && bool_decide (Transaction.customer_id r ∈ customers db)
       && bool_decide (Transaction.product_id r ∈ products db)) rows.

Definition add_transactions (rows : list Transaction.t) (db : DB) : DB :=
  mkDB (transactions db ++ rows) (customers db) (products db) (import_batches db).

(** [create_bulk]: [add_all] and one flush (which has nothing to do for
    an empty list).  The flush raises when a value does not fit its
    column, when a primary key is not unique, or when a referenced
    customer or product is missing. *)
Definition create_bulk (transactions_data : list TransactionCreate) : M (list Transaction.t) :=
  if is_nil transactions_data then mret []
  else
    match mapM Transaction_of transactions_data with
    | None =>
        _ ← flush (fun _ => Some (DataError "value out of range")) id;
        mret []
    | Some rows =>
        _ ← flush (fun db => if insert_ok db rows then None
                             else Some (IntegrityError "transactions"))
                  (add_transactions rows);
        mret rows
    end.

(** [exists] *)
Definition exists_ (transaction_id : UUID) : M bool :=
  execute (fun db =>
    bool_decide (transaction_id ∈ Transaction.transaction_id <$> transactions db)).
End Repo.

Definition customer_rows (db : DB) (customer_id : UUID)
    (start_date end_date : option datetime) : list Transaction.t :=
  List.filter (fun r => bool_decide (Transaction.customer_id r = customer_id)
                        && in_window start_date end_date (Transaction.timestamp r))
              (transactions db).

Definition product_rows (db : DB) (product_id : UUID)
    (start_date end_date : option datetime) : list Transaction.t :=
  List.filter (fun r => bool_decide (Transaction.product_id r = product_id)
                        && in_window start_date end_date (Transaction.timestamp r))
              (transactions db).

(** [get_customer_summary] *)
Definition get_customer_summary (customer_id : UUID)
    (start_date end_date : option datetime) : M CustomerSummaryResponse.t :=
  rows ← execute (fun db => customer_rows db customer_id start_date end_date);
  let total_amount := total_or_0 (sql_sum (revenue <$> rows)) in
  let total_amount_formatted := quantize_half_up_2 total_amount in
  mret (CustomerSummaryResponse.mk customer_id total_amount_formatted
          (count_distinct (Transaction.product_id <$> rows))
          (sql_max (Transaction.timestamp <$> rows))).

(** [get_product_summary] *)
Definition get_product_summary (product_id : UUID)
    (start_date end_date : option datetime) : M ProductSummaryResponse.t :=
  rows ← execute (fun db => product_rows db product_id start_date end_date);
  let total_revenue := total_or_0 (sql_sum (revenue <$> rows)) in
  let total_revenue_formatted := quantize_half_up_2 total_revenue in
  mret (ProductSummaryResponse.mk product_id
          (default 0 (sql_sum_int (Transaction.quantity <$> rows)))
          total_revenue_formatted
          (count_distinct (Transaction.customer_id <$> rows))).
End TransactionRepository.

Module CustomerRepository.
Section Repo.
Context {writers : ConcurrentWriters}.

Definition add_customers (ids : gset UUID) (db : DB) : DB :=
  mkDB (transactions db) (customers db ∪ ids) (products db) (import_batches db).

(** [get_or_create_bulk].  Each entity carries only its identifier, so
    the returned dictionary is given by its key set. *)
Definition get_or_create_bulk (customer_ids : gset UUID) : M (gset UUID) :=
  existing_customers ← execute (fun db => customer_ids ∩ customers db);
  let missing_ids := customer_ids ∖ existing_customers in
  if decide (missing_ids ≠ ∅)
  then
    _ ← flush (fun db => if decide (missing_ids ∩ (customers db ∪ racing_customers) = ∅)
                         then None else Some (IntegrityError "customers"))
              (add_customers missing_ids);
    mret (existing_customers ∪ missing_ids)
  else mret existing_customers.

Definition exists_ (customer_id : UUID) : M bool :=
  execute (fun db => bool_decide (customer_id ∈ customers db)).
End Repo.
End CustomerRepository.

Module ProductRepository.
Section Repo.
Context {writers : ConcurrentWriters}.

Definition add_products (ids : gset UUID) (db : DB) : DB :=
  mkDB (transactions db) (customers db) (products db ∪ ids) (import_batches db).

Definition get_or_create_bulk (product_ids : gset UUID) : M (gset UUID) :=
  existing_products ← execute (fun db => product_ids ∩ products db);
  let missing_ids := product_ids ∖ existing_products in
  if decide (missing_ids ≠ ∅)
  then
    _ ← flush (fun db => if decide (missing_ids ∩ (products db ∪ racing_products) = ∅)
                         then None else Some (IntegrityError "products"))
              (add_products missing_ids);
    mret (existing_products ∪ missing_ids)
  else mret existing_products.

Definition exists_ (product_id : UUID) : M bool :=
  execute (fun db => bool_decide (product_id ∈ products db)).
End Repo.
End ProductRepository.

Module ImportBatchRepository.

Definition put_batch (b : ImportBatch.t) (db : DB) : DB :=
  mkDB (transactions db) (customers db) (products db)
       (<[ImportBatch.batch_id b := b]> (import_batches db)).

(** [create]: the identifier comes from [gen_random_uuid()], here an
    identifier not in the table; [filename] is [String(255)]. *)
Definition create (filename : string) : M ImportBatch.t :=
  batch ← flush_returning
    (fun _ => if 255 <? Z.of_nat (String.length filename)
              then Some (DataError "value too long for type character varying(255)")
              else None)
    (fun db =>
       let batch := ImportBatch.mk (fresh (dom (import_batches db))) filename
                      pending 0 0 0 None in
       (batch, put_batch batch db));
  _ ← log_status (ImportBatch.batch_id batch) pending;
  mret batch.

(** [update_status] *)
Definition update_status (batch_id : UUID) (status : ImportStatus)
    (processed_rows error_rows : option Z) (error_details : option ErrorDetails)
    : M (option ImportBatch.t) :=
  batch ← execute (fun db => import_batches db !! batch_id);
  match batch with
  | Some b =>
      let b' := ImportBatch.mk (ImportBatch.batch_id b) (ImportBatch.filename b) status
                  (ImportBatch.total_rows b)
                  (default (ImportBatch.processed_rows b) processed_rows)
                  (default (ImportBatch.error_rows b) error_rows)
                  (match error_details with
                   | Some d => Some d
                   | None => ImportBatch.error_details b
                   end) in
      _ ← log_status batch_id status;
      _ ← flush (fun _ => None) (put_batch b');
      mret (Some b')
  | None => mret None
  end.
End ImportBatchRepository.

(** ** [services.py] *)

(** The uploaded bytes: not valid UTF-8, or a text, given by the records
    [csv.reader] splits it into (after the byte-order mark is dropped).
    The reader splits lazily, one record for each request, and does not
    split every text: a carriage return inside an unquoted field, or a
    field longer than the field size limit (131072 characters), makes it
    raise [csv.Error].  [unreadable_text records rest msg] is a text of
    which the reader yields [records] and then raises with [msg]; [rest]
    is the text from there on. *)
Inductive FileContent : Type :=
  | undecodable
  | utf8_text (records : list (list string))
  | unreadable_text (records : list (list string)) (rest : string) (msg : string).

Definition required_headers : list string :=
  ["transaction_id"; "timestamp"; "amount"; "currency"; "customer_id";
   "product_id"; "quantity"].

(** The dictionary [csv.DictReader] builds for one record: the cells paired
    with the field names in order (a repeated name keeps its last cell),
    [None] for the names past the end of a short record, and the surplus of
    a long record under the key [None]. *)
Definition dict_row (fieldnames : list string) (record : list string) : RawRow :=
  let lf := length fieldnames in
  let lr := length record in
  {| cells := fold_left (fun d kv => <[kv.1 := kv.2]> d)
                (zip fieldnames ((Some <$> record) ++ replicate (lf - lr)%nat None)) ∅;
     restkey := if (lf <? lr)%nat then Some (drop lf record) else None |}.

(** Iterating the reader: blank records are skipped. *)
Definition DictReader_rows (fieldnames : list string) (body : list (list string)) : list RawRow :=
  dict_row fieldnames <$> List.filter (fun r => negb (is_nil r)) body.

(** [str(e.loc[0]) if hasattr(e, "loc") and e.loc else None]: none of the
    exceptions here has a [loc] attribute. *)
Definition exn_loc (e : exn) : option string := None.

Record ImportService : Type := {
  import_batch_repo : bool;
}.

Section ImportMethods.
Context {parsers : FieldParsers} {writers : ConcurrentWriters}.

(** The body of the row loop of [_parse_csv]: [inr] is a row appended to
    [valid_transactions], [inl] an error appended to [errors]. *)
Definition parse_row (row_num : Z) (row : RawRow) : M (ValidationError + TransactionCreate) :=
  try_except
    (validated_row ← lift (TransactionCSVRow row);
     exists_ ← TransactionRepository.exists_ (transaction_id validated_row);
     if exists_ : bool then
       err ← lift (mk_ValidationError row_num (Some "transaction_id")
                     ("Transaction " +:+ UUID_str (transaction_id validated_row)
                        +:+ " already exists")
                     (Some row));
       mret (inl err)
     else mret (inr validated_row))
    (fun e =>
       err ← lift (mk_ValidationError row_num (exn_loc e) (exn_str e) (Some row));
       mret (inl err)).

(** [for row_num, row in enumerate(csv_reader, start=2)] *)
Fixpoint parse_rows (rows : list RawRow) (row_num : Z)
    (valid_transactions : list TransactionCreate) (errors : list ValidationError)
    (total_rows : Z) : M (list TransactionCreate * list ValidationError * Z) :=
  match rows with
  | [] => mret (valid_transactions, errors, total_rows)
  | row :: rest =>
      r ← parse_row row_num row;
      match r with
      | inl err =>
          parse_rows rest (row_num + 1) valid_transactions (errors ++ [err]) (total_rows + 1)
      | inr t =>
          parse_rows rest (row_num + 1) (valid_transactions ++ [t]) errors (total_rows + 1)
      end
  end.

Definition header_error (msg : string) : ValidationError :=
  {| row_number := 0; field := None; error := msg; raw_data := None |}.

(** [_parse_csv].  The missing headers are listed in the order of
    [required_headers] (Python iterates a set in no fixed order).  The
    reader is asked for the first record by [csv_reader.fieldnames] and for
    each further one by the [for] statement, both outside every [try]:
    where it raises, [_parse_csv] raises, after the rows read so far have
    gone through the loop. *)
Definition _parse_csv (file : FileContent)
    : M (list TransactionCreate * list ValidationError * Z) :=
  match file with
  | undecodable => raise UnicodeDecodeError
  | utf8_text records =>
      match records with
      | [] | [] :: _ => mret ([], [header_error "Empty CSV file"], 0)
      | fieldnames :: body =>
          let missing_headers :=
            List.filter (fun h => negb (bool_decide (h ∈ fieldnames))) required_headers in
          if negb (is_nil missing_headers)
          then mret ([], [header_error ("Missing required headers: "
                                         +:+ join ", " missing_headers)], 0)
          else parse_rows (DictReader_rows fieldnames body) 2 [] [] 0
      end
  | unreadable_text records _ msg =>
      match records with
      | [] => raise (CsvError msg)
      | [] :: _ => mret ([], [header_error "Empty CSV file"], 0)
      | fieldnames :: body =>
          let missing_headers :=
            List.filter (fun h => negb (bool_decide (h ∈ fieldnames))) required_headers in
          if negb (is_nil missing_headers)
          then mret ([], [header_error ("Missing required headers: "
                                         +:+ join ", " missing_headers)], 0)
          else
            _ ← parse_rows (DictReader_rows fieldnames body) 2 [] [] 0;
            raise (CsvError msg)
      end
  end.

(** [_process_transactions] *)
Definition _process_transactions (transactions : list TransactionCreate) : M unit :=
  let customer_ids : gset UUID := list_to_set (customer_id <$> transactions) in
  let product_ids : gset UUID := list_to_set (product_id <$> transactions) in
  _ ← CustomerRepository.get_or_create_bulk customer_ids;
  _ ← ProductRepository.get_or_create_bulk product_ids;
  _ ← TransactionRepository.create_bulk transactions;
  mret tt.

Definition len {A} (l : list A) : Z := Z.of_nat (length l).

(** One entry of the response's error list. *)
Definition error_entry (e : ValidationError) : gmap string string :=
  {[ "row" := pretty (row_number e);
     "error" := error e;
     "field" := match field e with
                | Some f => if decide (f = "") then "general" else f
                | None => "general"
                end ]}.

(** [import_csv] *)
Definition import_csv (self : ImportService) (file : FileContent) (filename : string)
    : M FileUploadResponse :=
  batch ← (if import_batch_repo self
           then b ← ImportBatchRepository.create filename; mret (Some b)
           else mret None);
  try_except
    ('(valid_transactions, errors, total_rows) ← _parse_csv file;
     _ ← match batch with
         | Some b =>
             _ ← ImportBatchRepository.update_status (ImportBatch.batch_id b) processing
                   (Some 0) (Some (len errors)) None;
             mret tt
         | None => mret tt
         end;
     _ ← (if negb (is_nil valid_transactions)
          then _process_transactions valid_transactions
          else mret tt);
     _ ← match batch with
         | Some b =>
             _ ← ImportBatchRepository.update_status (ImportBatch.batch_id b) completed
                   (Some (len valid_transactions)) (Some (len errors))
                   (if negb (is_nil errors) then Some (json_dumps errors) else None);
             mret tt
         | None => mret tt
         end;
     mret {| message := "Successfully processed " +:+ pretty (len valid_transactions)
                          +:+ " transactions";
             processed_count := len valid_transactions;
             error_count := len errors;
             errors := error_entry <$> errors |})
    (fun e =>
       _ ← match batch with
           | Some b =>
               _ ← ImportBatchRepository.update_status (ImportBatch.batch_id b) failed
                     None None (Some (str_of (exn_str e)));
               mret tt
           | None => mret tt
           end;
       raise e).
End ImportMethods.

(** *** Reports *)

Module ReportService.

(** [get_customer_summary]: [None] is "not found". *)
Definition get_customer_summary (customer_id : UUID)
    (start_date end_date : option datetime) : M (option CustomerSummaryResponse.t) :=
  exists_ ← CustomerRepository.exists_ customer_id;
  if negb exists_ then mret None
  else
    summary_data ← TransactionRepository.get_customer_summary customer_id start_date end_date;
    mret (Some summary_data).

(** [get_product_summary] *)
Definition get_product_summary (product_id : UUID)
    (start_date end_date : option datetime) : M (option ProductSummaryResponse.t) :=
  exists_ ← ProductRepository.exists_ product_id;
  if negb exists_ then mret None
  else
    summary_data ← TransactionRepository.get_product_summary product_id start_date end_date;
    mret (Some summary_data).

(** [convert_to_pln] of a finite amount (not used by the summaries): the
    product and its rounding to two places, both under the default
    context. *)
Definition convert_to_pln (amount : Decimal) (currency : CurrencyEnum) : Result Decimal :=
  match Decimal_mul amount (EXCHANGE_RATES currency) with
  | Returned product => quantize_2 product
  | Raised e => Raised e
  end.
End ReportService.

(** ** Reference notions used to state the properties *)

(** The part of [import_csv] that precedes [_process_transactions]: the
    batch record, the parsed file and the "processing" update. *)
Definition until_process {parsers : FieldParsers} (self : ImportService) (file : FileContent)
    (filename : string)
    : M (option ImportBatch.t * list TransactionCreate * list ValidationError) :=
  batch ← (if import_batch_repo self
           then b ← ImportBatchRepository.create filename; mret (Some b)
           else mret None);
  '(valid_transactions, errors, total_rows) ← _parse_csv file;
  _ ← match batch with
      | Some b =>
          _ ← ImportBatchRepository.update_status (ImportBatch.batch_id b) processing
                (Some 0) (Some (len errors)) None;
          mret tt
      | None => mret tt
      end;
  mret (batch, valid_transactions, errors).

(** The part of [import_csv] that precedes the bulk insert: the above and
    the resolution of the customers and products of the surviving rows. *)
Definition until_bulk_insert {parsers : FieldParsers} {writers : ConcurrentWriters} (self : ImportService)
    (file : FileContent) (filename : string)
    : M (option ImportBatch.t * list TransactionCreate * list ValidationError) :=
  '(batch, valid_transactions, errors) ← until_process self file filename;
  _ ← CustomerRepository.get_or_create_bulk (list_to_set (customer_id <$> valid_transactions));
  _ ← ProductRepository.get_or_create_bulk (list_to_set (product_id <$> valid_transactions));
  mret (batch, valid_transactions, errors).

(** What [import_csv] does after that inside its [try] block: process the
    surviving rows, mark the batch completed, build the response. *)
Definition import_rest {writers : ConcurrentWriters} (batch : option ImportBatch.t)
    (valid_transactions : list TransactionCreate) (errors : list ValidationError)
    : M FileUploadResponse :=
  _ ← (if negb (is_nil valid_transactions)
       then _process_transactions valid_transactions
       else mret tt);
  _ ← match batch with
      | Some b =>
          _ ← ImportBatchRepository.update_status (ImportBatch.batch_id b) completed
                (Some (len valid_transactions)) (Some (len errors))
                (if negb (is_nil errors) then Some (json_dumps errors) else None);
          mret tt
      | None => mret tt
      end;
  mret {| message := "Successfully processed " +:+ pretty (len valid_transactions)
                       +:+ " transactions";
          processed_count := len valid_transactions;
          error_count := len errors;
          errors := error_entry <$> errors |}.

(** The [except] block of [import_csv]. *)
Definition import_failed (batch : option ImportBatch.t) (e : exn) : M FileUploadResponse :=
  _ ← match batch with
      | Some b =>
          _ ← ImportBatchRepository.update_status (ImportBatch.batch_id b) failed
                None None (Some (str_of (exn_str e)));
          mret tt
      | None => mret tt
      end;
  raise e.

(** A file with no record at all, or whose first record lacks a required
    header name (an empty first record lacks them all). *)
Definition lacks_headers (records : list (list string)) : Prop :=
  match records with
  | [] => True
  | fieldnames :: _ => exists h, h ∈ required_headers /\ h ∉ fieldnames
  end.

(** The message of the header error, for the field names read. *)
Definition header_message (fieldnames : list string) : string :=
  if is_nil fieldnames then "Empty CSV file"
  else "Missing required headers: "
         +:+ join ", " (List.filter (fun h => negb (bool_decide (h ∈ fieldnames)))
                          required_headers).

(** The records the reader yields of a file, to its end or to where it
    stops. *)
Definition records_read (file : FileContent) : list (list string) :=
  match file with
  | undecodable => []
  | utf8_text records => records
  | unreadable_text records _ _ => records
  end.

(** A text that is empty or whose first line the reader reads. *)
Definition header_readable (file : FileContent) : Prop :=
  match file with
  | undecodable => False
  | utf8_text _ => True
  | unreadable_text records _ _ => records <> []
  end.

(** The identifiers in the [transactions] table. *)
Definition stored_ids (db : DB) : list UUID :=
  Transaction.transaction_id <$> transactions db.

(** A session as a request gets it: active, nothing flushed yet. *)
Definition fresh_session (s : Session) : Prop :=
  active s = true /\ view s = snapshot s.

(** The order of the statuses: [pending], then [processing], then the two
    final ones. *)
Definition status_rank (st : ImportStatus) : Z :=
  match st with pending => 0 | processing => 1 | completed => 2 | failed => 2 end.

Definition is_final (st : ImportStatus) : bool :=
  match st with completed | failed => true | _ => false end.

(** A sequence of assignments starting from status [cur] that never goes
    back and never leaves a final status. *)
Fixpoint forward_only (cur : ImportStatus) (l : list ImportStatus) : Prop :=
  match l with
  | [] => True
  | st :: r => status_rank cur <= status_rank st /\ is_final cur = false /\ forward_only st r
  end.

(** The fixed rates against the base currency, as rationals. *)
Definition base_rate (c : CurrencyEnum) : Q :=
  match c with PLN => 1 | EUR => 43 # 10 | USD => 4 end.

(** The value of a stored amount. *)
Definition amount_value (r : Transaction.t) : Q := Transaction.amount r # 100.

(** The sum of amount times rate over rows. *)
Definition converted_total (rows : list Transaction.t) : Q :=
  fold_right (fun r acc => (amount_value r * base_rate (Transaction.currency r) + acc)%Q) 0%Q rows.

(** Rounding to two places, half up (on the magnitude, as
    [ROUND_HALF_UP] does). *)
Definition round_half_up_2dp (q : Q) : Q :=
  let n := Qfloor (Qabs q * 100 + (1 # 2))%Q in
  if Qle_bool 0 q then (n # 100) else (- n # 100).

(** The total in thousandths: hundredths times tenths. *)
Definition rate_tenths (c : CurrencyEnum) : Z :=
  match c with PLN => 10 | EUR => 43 | USD => 40 end.

Definition total_thousandths (rows : list Transaction.t) : Z :=
  fold_right (fun r acc => Transaction.amount r * rate_tenths (Transaction.currency r) + acc)
             0 rows.

(** A timestamp inside the inclusive window; an omitted bound does not
    bind. *)
Definition within (start_date end_date : option datetime) (ts : datetime) : Prop :=
  (forall a, start_date = Some a -> a <= ts) /\ (forall b, end_date = Some b -> ts <= b).

(** The rows of one customer. *)
Definition rows_of_customer (db : DB) (c : UUID) : list Transaction.t :=
  List.filter (fun r => bool_decide (Transaction.customer_id r = c)) (transactions db).

(** The rows and the errors among the outcomes of the row loop. *)
Definition accepted (rs : list (ValidationError + TransactionCreate)) : list TransactionCreate :=
  omap (fun r => match r with inr t => Some t | inl _ => None end) rs.

Definition rejected (rs : list (ValidationError + TransactionCreate)) : list ValidationError :=
  omap (fun r => match r with inl e => Some e | inr _ => None end) rs.

(** A computation that leaves the session as it found it. *)
Definition read_only {A} (m : M A) : Prop := forall s, (m s).2 = s.

(** How a call can have changed the session: [steady] keeps the snapshot,
    the transactions and the log, and passes on an active session;
    [aborted] leaves an inactive session holding at most the snapshot. *)
Definition steady (s s' : Session) : Prop :=
  snapshot s' = snapshot s /\ transactions (view s') = transactions (view s)
  /\ status_log s' = status_log s /\ active s = true /\ active s' = true.

Definition aborted (s s' : Session) : Prop :=
  (active s = false /\ s' = s) \/ (active s = true /\ s' = rolled_back s).

(** The characters of a number in plain notation: digits and the point. *)
Definition plain (c : ascii) : bool := is_digit c || is_dot c.

(** A whitespace-only sequence of characters. *)
Definition all_whitespace (l : list ascii) : Prop := Forall (fun c => rs_is_whitespace c = true) l.

(** ** Sample data *)

Module Sample.

Definition hex_val (c : ascii) : option N :=
  let n := code (lower c) in
  if is_digit c then Some (n - 48)%N
  else if ((97 <=? n) && (n <=? 102))%N then Some (n - 87)%N
  else None.

(** The hyphenated form of an identifier, in either case. *)
Definition uuid_of_str (s : string) : option UUID :=
  let l := list_ascii_of_string s in
  match mapM hex_val (List.filter (fun c => negb (code c =? 45)%N) l) with
  | Some ds =>
      let v := fold_left (fun acc d => (16 * acc + d)%N) ds 0%N in
      if decide (string_of_list_ascii (map lower l) = UUID_str v) then Some v else None
  | None => None
  end.

(** Days from 1970-01-01 to a date of the proleptic Gregorian calendar. *)
Definition days_from_civil (y m d : Z) : Z :=
  let y' := if m <=? 2 then y - 1 else y in
  let era := y' / 400 in
  let yoe := y' - era * 400 in
  let doy := (153 * (if 2 <? m then m - 3 else m + 9) + 2) / 5 + d - 1 in
  let doe := yoe * 365 + yoe / 4 - yoe / 100 + doy in
  era * 146097 + doe - 719468.

Definition number (l : list ascii) : option Z :=
  if all_digits l && negb (is_nil l) then Some (Z.of_N (digits_value l)) else None.

(** Timestamps written [YYYY-MM-DDTHH:MM:SSZ], as [generate_csv.py] writes
    them; the result is in microseconds. *)
Definition datetime_of_str (s : string) : option datetime :=
  let l := list_ascii_of_string s in
  let seps := [nth 4 l " "; nth 7 l " "; nth 10 l " "; nth 13 l " "; nth 16 l " ";
               nth 19 l " "]%char in
  if bool_decide (length l = 20%nat) && bool_decide (seps = ["-"; "-"; "T"; ":"; ":"; "Z"]%char)
  then
    match number (take 4 l), number (take 2 (drop 5 l)), number (take 2 (drop 8 l)),
          number (take 2 (drop 11 l)), number (take 2 (drop 14 l)),
          number (take 2 (drop 17 l)) with
    | Some y, Some m, Some d, Some hh, Some mm, Some ss =>
        if (1 <=? m) && (m <=? 12) && (1 <=? d) && (d <=? 31) && (hh <? 24) && (mm <? 60)
           && (ss <? 60)
        then Some ((days_from_civil y m d * 86400 + hh * 3600 + mm * 60 + ss) * 1000000)
        else None
    | _, _, _, _, _, _ => None
    end
  else None.

Definition parsers : FieldParsers :=
  {| parse_uuid := uuid_of_str; parse_datetime := datetime_of_str |}.

Definition header : list string := required_headers.

(** [record tid amount currency quantity]: a record for customer 100 and
    product 200. *)
Definition record (tid : N) (amount currency quantity : string) : list string :=
  [UUID_str tid; "2024-01-15T10:30:00Z"; amount; currency; UUID_str 100; UUID_str 200;
   quantity].

Definition empty_db : DB := mkDB [] ∅ ∅ ∅.

Definition session_of (db : DB) : Session := mkSession db db true [].

Definition s0 : Session := session_of empty_db.

(** A database that already holds transaction 1 of customer 100. *)
Definition db1 : DB :=
  mkDB [Transaction.mk 1 1705314600000000 10000 PLN 1 100 200] {[100%N]} {[200%N]} ∅.

Definition s1 : Session := session_of db1.

(** Customer 100 with 100.00 PLN and 10.00 EUR. *)
Definition db2 : DB :=
  mkDB [Transaction.mk 1 1705314600000000 10000 PLN 1 100 200;
        Transaction.mk 2 1705401000000000 1000 EUR 3 100 201] {[100%N]} {[200%N; 201%N]} ∅.

Definition service : ImportService := {| import_batch_repo := true |}.

(** Another writer creates customer 100 while the import runs. *)
Definition racing_customer : ConcurrentWriters :=
  {| racing_transactions := ∅; racing_customers := {[100%N]}; racing_products := ∅ |}.

(** A file whose header has an eighth column that the data row lacks. *)
Definition short_row_file : FileContent :=
  utf8_text [(header ++ ["note"])%list; record 1 "100.00" "PLN" "1"].

Definition two_rows_same_id : FileContent :=
  utf8_text [header; record 7 "100.00" "PLN" "1"; record 7 "5.50" "EUR" "2"].

(** Fifty rows that all pass validation; the amount of the last one does
    not fit [DECIMAL(10, 2)]. *)
Definition fifty_rows : FileContent :=
  utf8_text (header :: ((fun i => record (N.of_nat i) "1.00" "PLN" "1") <$> seq 1 49)
               ++ [record 50 "100000000.00" "PLN" "1"])%list.

Definition fifty_prefix
    : Result (option ImportBatch.t * list TransactionCreate * list ValidationError) * Session :=
  until_bulk_insert (parsers := parsers) (writers := no_writers) service fifty_rows
    "batch.csv" s0.

Definition fifty_batch : option ImportBatch.t :=
  match fifty_prefix.1 with Returned (b, _, _) => b | Raised _ => None end.

Definition fifty_valid : list TransactionCreate :=
  match fifty_prefix.1 with Returned (_, v, _) => v | Raised _ => [] end.

Definition fifty_errors : list ValidationError :=
  match fifty_prefix.1 with Returned (_, _, e) => e | Raised _ => [] end.

Definition fifty_insert : Result (list Transaction.t) * Session :=
  TransactionRepository.create_bulk (writers := no_writers) fifty_valid fifty_prefix.2.

Definition fifty_exn : exn :=
  match fifty_insert.1 with Raised e => e | Returned _ => PendingRollbackError end.

(** A header without the [amount] column, over an otherwise valid row. *)
Definition no_amount_records : list (list string) :=
  [["transaction_id"; "timestamp"; "currency"; "customer_id"; "product_id"; "quantity"];
   [UUID_str 9; "2024-01-15T10:30:00Z"; "PLN"; UUID_str 100; UUID_str 200; "1"]].

(** The text [a<CR>b]: a carriage return inside an unquoted field of the
    first line.  Asked for the first record, the reader raises. *)
Definition bare_cr_text : string := "a" +:+ String (ascii_of_N 13) "b".

Definition bare_cr_message : string :=
  "new-line character seen in unquoted field - do you need to open the file in universal-newline mode?".

Definition bare_cr_file : FileContent := unreadable_text [] bare_cr_text bare_cr_message.

(** One valid row, imported while another writer creates its customer. *)
Definition one_row : FileContent := utf8_text [header; record 5 "12.50" "USD" "2"].

Definition one_row_prefix
    : Result (option ImportBatch.t * list TransactionCreate * list ValidationError) * Session :=
  until_process (parsers := parsers) service one_row "race.csv" s0.

Definition one_row_batch : option ImportBatch.t :=
  match one_row_prefix.1 with Returned (b, _, _) => b | Raised _ => None end.

Definition one_row_valid : list TransactionCreate :=
  match one_row_prefix.1 with Returned (_, v, _) => v | Raised _ => [] end.

Definition one_row_errors : list ValidationError :=
  match one_row_prefix.1 with Returned (_, _, e) => e | Raised _ => [] end.

Definition two_rows_run : Result FileUploadResponse * Session :=
  import_csv (parsers := parsers) (writers := no_writers) service two_rows_same_id
    "twice.csv" s0.

Definition row7 (amount : Decimal) (currency : CurrencyEnum) (quantity : Z) : TransactionCreate :=
  {| transaction_id := 7; timestamp := 1705314600000000; amount := amount;
     currency := currency;
     customer_id := 100; product_id := 200; quantity := quantity |}.

End Sample.

(** * Further parts of the application *)

(** ** [repositories.py], continued *)

Module Customer.
Section Repo.
Context {writers : ConcurrentWriters}.

(** [CustomerRepository.get_or_create]: the entity is given by its
    identifier. *)
Definition get_or_create (customer_id : UUID) : M UUID :=
  customer ← execute (fun db =>
    if decide (customer_id ∈ customers db) then Some customer_id else None);
  match customer with
  | Some c => mret c
  | None =>
      _ ← flush (fun db => if decide (customer_id ∈ customers db ∪ racing_customers)
                           then Some (IntegrityError "customers") else None)
                (CustomerRepository.add_customers {[customer_id]});
      mret customer_id
  end.
End Repo.
End Customer.

Module Product.
Section Repo.
Context {writers : ConcurrentWriters}.

(** [ProductRepository.get_or_create] *)
Definition get_or_create (product_id : UUID) : M UUID :=
  product ← execute (fun db =>
    if decide (product_id ∈ products db) then Some product_id else None);
  match product with
  | Some p => mret p
  | None =>
      _ ← flush (fun db => if decide (product_id ∈ products db ∪ racing_products)
                           then Some (IntegrityError "products") else None)
                (ProductRepository.add_products {[product_id]});
      mret product_id
  end.
End Repo.
End Product.

(** ** Listing transactions *)

Module TransactionResponse.
(** The response for one transaction: the columns of the row, the amount
    as the two-place decimal the column holds.  The server-side timestamps
    are left out, as in [Transaction.t]. *)
Record t : Type := mk {
  transaction_id : UUID;
  timestamp : datetime;
  amount : Decimal;
  currency : CurrencyEnum;
  customer_id : UUID;
  product_id : UUID;
  quantity : Z;
}.

(** [TransactionResponse.model_validate(transaction)] *)
Definition model_validate (r : Transaction.t) : t :=
  mk (Transaction.transaction_id r) (Transaction.timestamp r) (amount_dec r)
     (Transaction.currency r) (Transaction.customer_id r) (Transaction.product_id r)
     (Transaction.quantity r).
End TransactionResponse.

Module TransactionListParams.
(** [page: int = Field(default=1, ge=1)] and
    [page_size: int = Field(default=50, ge=1, le=100)]. *)
Definition in_range (page page_size : Z) : bool :=
  (1 <=? page) && (1 <=? page_size) && (page_size <=? 100).

(** An instance exists only validated. *)
Record t : Type := mk {
  customer_id : option UUID;
  product_id : option UUID;
  page : Z;
  page_size : Z;
  validated : in_range page page_size = true;
}.

(** [TransactionListParams(customer_id=.., product_id=.., page=.., page_size=..)] *)
Definition new (customer_id product_id : option UUID) (page page_size : Z) : Result t :=
  match bool_dec (in_range page page_size) true with
  | left ok => Returned (mk customer_id product_id page page_size ok)
  | right _ => Raised (PydanticValidationError "TransactionListParams")
  end.

(** The [offset] property. *)
Definition offset (self : t) : Z := (page self - 1) * page_size self.
End TransactionListParams.

Module TransactionListResponse.
Record t : Type := mk {
  items : list TransactionResponse.t;
  total : Z;
  page : Z;
  page_size : Z;
  total_pages : Z;
  has_next : bool;
  has_previous : bool;
}.
End TransactionListResponse.

(** A statement that the database refuses: the error is raised and the
    transaction is aborted; what it had written is lost and the session
    takes no further statement before a rollback. *)
Definition refused {A} (e : exn) : M A := fun s =>
  if active s then (Raised e, rolled_back s) else (Raised PendingRollbackError, s).

(** The reading methods of [TransactionRepository]. *)
Module TransactionQueries.

(** [get_by_id] (the primary key makes the match unique; the related
    customer and product are loaded along and not used). *)
Definition get_by_id (transaction_id : UUID) : M (option Transaction.t) :=
  execute (fun db =>
    head (List.filter (fun r => bool_decide (Transaction.transaction_id r = transaction_id))
                      (transactions db))).

(** The conjunction of the conditions of [get_paginated]: each filter
    applies only when it is given. *)
Definition conditions (customer_id product_id : option UUID)
    (start_date end_date : option datetime) (r : Transaction.t) : bool :=
  match customer_id with
  | Some c => bool_decide (Transaction.customer_id r = c)
  | None => true
  end
  && match product_id with
     | Some p => bool_decide (Transaction.product_id r = p)
     | None => true
     end
  && in_window start_date end_date (Transaction.timestamp r).

(** [ORDER BY timestamp DESC].  Rows with equal timestamps keep the order
    of the table here; the database leaves their order open. *)
Fixpoint insert_desc (r : Transaction.t) (l : list Transaction.t) : list Transaction.t :=
  match l with
  | [] => [r]
  | x :: l' =>
      if Transaction.timestamp x <=? Transaction.timestamp r then r :: l
      else x :: insert_desc r l'
  end.

Definition order_by_timestamp_desc (l : list Transaction.t) : list Transaction.t :=
  foldr insert_desc [] l.

(** [get_paginated]: the count query, then the data query.  The database
    refuses a negative [OFFSET] or [LIMIT]. *)
Definition get_paginated (customer_id product_id : option UUID) (offset limit : Z)
    (start_date end_date : option datetime) : M (list Transaction.t * Z) :=
  let conditions := conditions customer_id product_id start_date end_date in
  total ← execute (fun db => len (List.filter conditions (transactions db)));
  transactions ←
    (if (offset <? 0) || (limit <? 0)
     then refused (DataError "OFFSET and LIMIT must not be negative")
     else execute (fun db =>
            take (Z.to_nat limit)
              (drop (Z.to_nat offset)
                 (order_by_timestamp_desc (List.filter conditions (transactions db))))));
  mret (transactions, total).
End TransactionQueries.

Module TransactionService.

(** [get_transaction]: [None] is "not found". *)
Definition get_transaction (transaction_id : UUID) : M (option TransactionResponse.t) :=
  transaction ← TransactionQueries.get_by_id transaction_id;
  match transaction with
  | None => mret None
  | Some t => mret (Some (TransactionResponse.model_validate t))
  end.

(** [list_transactions] *)
Definition list_transactions (params : TransactionListParams.t)
    : M TransactionListResponse.t :=
  '(transactions, total) ← TransactionQueries.get_paginated
      (TransactionListParams.customer_id params) (TransactionListParams.product_id params)
      (TransactionListParams.offset params) (TransactionListParams.page_size params)
      None None;
  let total_pages :=
    (total + TransactionListParams.page_size params - 1)
    / TransactionListParams.page_size params in
  mret (TransactionListResponse.mk
          (TransactionResponse.model_validate <$> transactions)
          total
          (TransactionListParams.page params)
          (TransactionListParams.page_size params)
          total_pages
          (TransactionListParams.page params <? total_pages)
          (1 <? TransactionListParams.page params)).
End TransactionService.

(** ** [AuthService] *)

(** The settings the service reads ([config.py]). *)
Record Settings : Type := {
  SECRET_KEY : string;
  API_TOKEN : string;
  REQUIRE_AUTH : bool;
}.

Module AuthService.
Section Auth.
Context (settings : Settings).

Record t : Type := mk {
  _valid_tokens : gset string;
}.

(** [__init__] *)
Definition init : t := mk {[ API_TOKEN settings ]}.

(** [verify_token] *)
Definition verify_token (self : t) (token : string) : bool :=
  if negb (REQUIRE_AUTH settings) then true
  else bool_decide (token ∈ _valid_tokens self).

(** [authenticate_user] *)
Definition authenticate_user (provided_token : string) : option string :=
  if decide (provided_token = SECRET_KEY settings) then Some (API_TOKEN settings) else None.

(** [generate_token]; [token] is what [secrets.token_urlsafe(32)] gives. *)
Definition generate_token (self : t) (token : string) : string * t :=
  (token, mk (_valid_tokens self ∪ {[ token ]})).

(** The service after it has generated the tokens of a list, in order. *)
Definition after_generating (tokens : list string) : t :=
  fold_left (fun self token => (generate_token self token).2) tokens init.
End Auth.
End AuthService.

(** ** Further reference notions *)

(** A record that [csv.DictReader] does not skip. *)
Definition nonblank (record : list string) : bool := negb (is_nil record).

(** A row that the loop of [_parse_csv] appends to [valid_transactions]:
    it validates and its identifier is not stored yet. *)
Definition acceptable {parsers : FieldParsers} (row : RawRow) (s : Session) : Prop :=
  active s = true
  /\ exists t, TransactionCSVRow row = Returned t /\ transaction_id t ∉ stored_ids (view s).

#[export] Instance within_dec (start_date end_date : option datetime) (ts : datetime) :
  Decision (within start_date end_date ts).
Proof.
  unfold within. destruct start_date as [a|], end_date as [b|].
  - destruct (decide (a <= ts)) as [Ha|Ha]; [|right; intros [H _]; apply Ha, H; reflexivity].
    destruct (decide (ts <= b)) as [Hb|Hb]; [|right; intros [_ H]; apply Hb, H; reflexivity].
    left. split; intros ? [= <-]; assumption.
  - destruct (decide (a <= ts)) as [Ha|Ha]; [|right; intros [H _]; apply Ha, H; reflexivity].
    left. split; [intros ? [= <-]; assumption|discriminate].
  - destruct (decide (ts <= b)) as [Hb|Hb]; [|right; intros [_ H]; apply Hb, H; reflexivity].
    left. split; [discriminate|intros ? [= <-]; assumption].
  - left. split; discriminate.
Defined.

(** The transactions of a product, and of a customer, inside a window. *)
Definition product_sales (db : DB) (p : UUID) (start_date end_date : option datetime)
    : list Transaction.t :=
  base.filter (fun r => Transaction.product_id r = p
                        /\ within start_date end_date (Transaction.timestamp r))
              (transactions db).

Definition customer_purchases (db : DB) (c : UUID) (start_date end_date : option datetime)
    : list Transaction.t :=
  base.filter (fun r => Transaction.customer_id r = c
                        /\ within start_date end_date (Transaction.timestamp r))
              (transactions db).

(** The sum of the quantities of rows. *)
Definition total_quantity (rows : list Transaction.t) : Z :=
  foldr (fun r acc => Transaction.quantity r + acc) 0 rows.

(** The number of different identifiers in a list. *)
Definition distinct (l : list UUID) : Z := Z.of_nat (length (remove_dups l)).

(** A row passes the filters of a listing: each filter binds only when it
    is given. *)
Definition matches (customer_id product_id : option UUID) (r : Transaction.t) : Prop :=
  (forall c, customer_id = Some c -> Transaction.customer_id r = c)
  /\ (forall p, product_id = Some p -> Transaction.product_id r = p).

#[export] Instance matches_dec (customer_id product_id : option UUID) (r : Transaction.t) :
  Decision (matches customer_id product_id r).
Proof.
  unfold matches. destruct customer_id as [c|], product_id as [p|].
  - destruct (decide (Transaction.customer_id r = c)) as [Hc|Hc];
      [|right; intros [H _]; apply Hc, H; reflexivity].
    destruct (decide (Transaction.product_id r = p)) as [Hp|Hp];
      [|right; intros [_ H]; apply Hp, H; reflexivity].
    left. split; intros ? [= <-]; assumption.
  - destruct (decide (Transaction.customer_id r = c)) as [Hc|Hc];
      [|right; intros [H _]; apply Hc, H; reflexivity].
    left. split; [intros ? [= <-]; assumption|discriminate].
  - destruct (decide (Transaction.product_id r = p)) as [Hp|Hp];
      [|right; intros [_ H]; apply Hp, H; reflexivity].
    left. split; [discriminate|intros ? [= <-]; assumption].
  - left. split; discriminate.
Defined.

(** The stored transactions that pass the filters, in table order. *)
Definition matching (db : DB) (customer_id product_id : option UUID) : list Transaction.t :=
  base.filter (matches customer_id product_id) (transactions db).

(** Newest first: timestamps never increase along the list. *)
Definition newest_first (l : list Transaction.t) : Prop :=
  forall i j a b, l !! i = Some a -> l !! j = Some b -> (i <= j)%nat ->
    Transaction.timestamp b <= Transaction.timestamp a.

(** ** Further sample data *)

Module Cases.

(** Three data records between blank lines; the amount of the second is
    not a number. *)
Definition with_blank_lines : list (list string) :=
  [Sample.record 1 "100.00" "PLN" "1"; []; Sample.record 2 "abc" "PLN" "1"; [];
   Sample.record 3 "5.50" "EUR" "2"].

(** A record with one cell more than the header has names. *)
Definition long_record : list string :=
  (Sample.record 4 "1.00" "PLN" "1" ++ ["extra"])%list.

(** Processing the one valid row of [Sample.one_row] while another writer
    creates its customer. *)
Definition one_row_process : Result unit * Session :=
  _process_transactions (writers := Sample.racing_customer) Sample.one_row_valid
    Sample.one_row_prefix.2.

Definition one_row_exn : exn :=
  match one_row_process.1 with Raised e => e | Returned _ => PendingRollbackError end.

(** The file of [with_blank_lines], imported into an empty database. *)
Definition blank_lines_file : FileContent := utf8_text (Sample.header :: with_blank_lines).

Definition blank_lines_parse
    : Result (list TransactionCreate * list ValidationError * Z) * Session :=
  _parse_csv (parsers := Sample.parsers) blank_lines_file Sample.s0.

Definition blank_lines_valid : list TransactionCreate :=
  match blank_lines_parse.1 with Returned (v, _, _) => v | Raised _ => [] end.

Definition blank_lines_errors : list ValidationError :=
  match blank_lines_parse.1 with Returned (_, e, _) => e | Raised _ => [] end.

Definition blank_lines_rows : list Transaction.t :=
  default [] (mapM Transaction_of blank_lines_valid).

Definition blank_lines_run : Result FileUploadResponse * Session :=
  import_csv (parsers := Sample.parsers) (writers := no_writers) Sample.service
    blank_lines_file "blank.csv" Sample.s0.

Definition blank_lines_response : FileUploadResponse :=
  match blank_lines_run.1 with
  | Returned resp => resp
  | Raised _ => {| message := ""; processed_count := 0; error_count := 0; errors := [] |}
  end.

(** A file whose only data row has an amount too large for the column. *)
Definition huge_amount : FileContent :=
  utf8_text [Sample.header; Sample.record 8 "100000000.00" "PLN" "1"].

Definition huge_parse : Result (list TransactionCreate * list ValidationError * Z) * Session :=
  _parse_csv (parsers := Sample.parsers) huge_amount Sample.s0.

Definition huge_valid : list TransactionCreate :=
  match huge_parse.1 with Returned (v, _, _) => v | Raised _ => [] end.

Definition huge_errors : list ValidationError :=
  match huge_parse.1 with Returned (_, e, _) => e | Raised _ => [] end.

Definition huge_row : RawRow :=
  dict_row Sample.header (Sample.record 8 "100000000.00" "PLN" "1").

Definition huge_transaction : TransactionCreate :=
  {| transaction_id := 8; timestamp := 1705314600000000;
     amount := mkDecimal false 10000000000 (-2); currency := PLN;
     customer_id := 100; product_id := 200; quantity := 1 |}.

(** The first page of two, one transaction a page, of customer 100. *)
Definition first_page : TransactionListParams.t :=
  TransactionListParams.mk (Some 100%N) None 1 1 eq_refl.

End Cases.

(** * Properties *)

(** ** The model on small inputs *)

Example Decimal_of_str_examples :
  Decimal_of_str "10.005" = Some (Finite (mkDecimal false 10005 (-3)))
  /\ Decimal_of_str " -1_000.50e1 " = Some (Finite (mkDecimal true 100050 (-1)))
  /\ Decimal_of_str "." = None
  /\ Decimal_of_str "5." = Some (Finite (mkDecimal false 5 0))
  /\ Decimal_of_str "NaN" = Some NonFinite
  /\ Decimal_of_str "1.2.3" = None.
Proof. repeat split; reflexivity. Qed.

Example quantize_examples :
  quantize_half_up_2 (mkDecimal false 215 (-3)) = mkDecimal false 22 (-2)
  /\ quantize_half_up_2 (mkDecimal false 214 (-3)) = mkDecimal false 21 (-2)
  /\ quantize_half_up_2 (mkDecimal true 215 (-3)) = mkDecimal true 22 (-2)
  /\ quantize_half_up_2 (mkDecimal false 0 0) = mkDecimal false 0 (-2)
  /\ ReportService.convert_to_pln (mkDecimal false 15 (-2)) EUR
     = Returned (mkDecimal false 64 (-2))
  /\ ReportService.convert_to_pln (mkDecimal false 5 (-2)) EUR
     = Returned (mkDecimal false 22 (-2)).
Proof. repeat split; vm_compute; reflexivity. Qed.

Example UUID_str_example :
  UUID_str 255 = "00000000-0000-0000-0000-0000000000ff"
  /\ Sample.uuid_of_str "00000000-0000-0000-0000-0000000000FF" = Some 255%N
  /\ Sample.uuid_of_str "ff" = None
  /\ Sample.datetime_of_str "1970-01-02T00:00:01Z" = Some 86401000000
  /\ Sample.datetime_of_str "2024-01-15T10:30:00Z" = Some 1705314600000000
  /\ Sample.datetime_of_str "2024-01-15 10:30" = None.
Proof. repeat split; vm_compute; reflexivity. Qed.

(** Four rows, one with a currency in blanks and one with three decimal
    places: two transactions are stored, the other two rows are reported,
    the batch ends [completed]. *)
Example import_example :
  let run := import_csv (parsers := Sample.parsers) (writers := no_writers) Sample.service
               (utf8_text [Sample.header; Sample.record 1 "100.00" "PLN" "1";
                           Sample.record 2 "10.00" "EUR" "3";
                           Sample.record 3 "10.005" "EUR" "2";
                           Sample.record 4 "7.00" " EUR " "1"])
               "four.csv" Sample.s0 in
  (match run.1 with
   | Returned resp =>
       processed_count resp = 2 /\ error_count resp = 2
       /\ (fun e => e !! "row") <$> errors resp = [Some "4"; Some "5"]
   | Raised _ => False
   end)
  /\ stored_ids (view run.2) = [1%N; 2%N]
  /\ customers (view run.2) = {[100%N]}
  /\ (snd <$> status_log run.2) = [pending; processing; completed].
Proof. vm_compute. repeat split; reflexivity. Qed.

(** Customer 100 with 100.00 PLN and 10.00 EUR: 143.00, two products. *)
Example customer_summary_example :
  (ReportService.get_customer_summary 100 None None (Sample.session_of Sample.db2)).1
  = Returned (Some (CustomerSummaryResponse.mk 100 (mkDecimal false 14300 (-2)) 2
                      (Some 1705401000000000))).
Proof. vm_compute. reflexivity. Qed.

(** ** The session monad *)

Lemma bind_run {A B} (m : M A) (f : A -> M B) (s : Session) :
  (m ≫= f) s
  = match m s with
    | (Returned a, s') => f a s'
    | (Raised e, s') => (Raised e, s')
    end.
Proof. reflexivity. Qed.

Lemma ret_run {A} (a : A) (s : Session) : (mret a : M A) s = (Returned a, s).
Proof. reflexivity. Qed.

Lemma raise_run {A} (e : exn) (s : Session) : (raise e : M A) s = (Raised e, s).
Proof. reflexivity. Qed.

Ltac mrun :=
  repeat (progress (rewrite ?bind_run, ?ret_run, ?raise_run; cbv beta iota)).

Lemma bind_Returned {A B} (m : M A) (f : A -> M B) (s s' : Session) (a : A) :
  m s = (Returned a, s') -> (m ≫= f) s = f a s'.
Proof. intros E. rewrite bind_run, E. reflexivity. Qed.

Lemma bind_Raised {A B} (m : M A) (f : A -> M B) (s s' : Session) (e : exn) :
  m s = (Raised e, s') -> (m ≫= f) s = (Raised e, s').
Proof. intros E. rewrite bind_run, E. reflexivity. Qed.

Lemma try_Returned {A} (m : M A) (h : exn -> M A) (s s' : Session) (a : A) :
  m s = (Returned a, s') -> try_except m h s = (Returned a, s').
Proof. intros E. unfold try_except. rewrite E. reflexivity. Qed.

Lemma try_Raised {A} (m : M A) (h : exn -> M A) (s s' : Session) (e : exn) :
  m s = (Raised e, s') -> try_except m h s = h e s'.
Proof. intros E. unfold try_except. rewrite E. reflexivity. Qed.

Lemma execute_active {A} (q : DB -> A) (s : Session) :
  active s = true -> execute q s = (Returned (q (view s)), s).
Proof. intros E. unfold execute. rewrite E. reflexivity. Qed.

Lemma execute_inactive {A} (q : DB -> A) (s : Session) :
  active s = false -> execute q s = (Raised PendingRollbackError, s).
Proof. intros E. unfold execute. rewrite E. reflexivity. Qed.

Lemma read_only_run {A} (m : M A) (s s' : Session) (r : Result A) :
  read_only m -> m s = (r, s') -> s' = s.
Proof. intros Hm E. specialize (Hm s). rewrite E in Hm. exact Hm. Qed.

Lemma read_only_ret {A} (a : A) : read_only (mret a).
Proof. intros s. reflexivity. Qed.

Lemma read_only_raise {A} (e : exn) : read_only (@raise A e).
Proof. intros s. reflexivity. Qed.

Lemma read_only_lift {A} (r : Result A) : read_only (lift r).
Proof. intros s. reflexivity. Qed.

Lemma read_only_execute {A} (q : DB -> A) : read_only (execute q).
Proof. intros s. unfold execute. destruct (active s); reflexivity. Qed.

Lemma read_only_bind {A B} (m : M A) (f : A -> M B) :
  read_only m -> (forall a, read_only (f a)) -> read_only (m ≫= f).
Proof.
  intros Hm Hf s. rewrite bind_run. specialize (Hm s).
  destruct (m s) as [[a|e] s1]; simpl in Hm; subst s1; [apply Hf|reflexivity].
Qed.

Lemma read_only_try {A} (m : M A) (h : exn -> M A) :
  read_only m -> (forall e, read_only (h e)) -> read_only (try_except m h).
Proof.
  intros Hm Hh s. unfold try_except. specialize (Hm s).
  destruct (m s) as [[a|e] s1]; simpl in Hm; subst s1; [reflexivity|apply Hh].
Qed.

(** ** Parsing reads, and never writes *)

Section Parsing.
Context {parsers : FieldParsers}.

Lemma read_only_parse_row (row_num : Z) (row : RawRow) : read_only (parse_row row_num row).
Proof.
  unfold parse_row. apply read_only_try.
  - apply read_only_bind; [apply read_only_lift|]. intros t.
    apply read_only_bind; [apply read_only_execute|]. intros [|].
    + apply read_only_bind; [apply read_only_lift|]. intros; apply read_only_ret.
    + apply read_only_ret.
  - intros e. apply read_only_bind; [apply read_only_lift|]. intros; apply read_only_ret.
Qed.

Lemma read_only_parse_rows (rows : list RawRow) :
  forall row_num valid errs total, read_only (parse_rows rows row_num valid errs total).
Proof.
  induction rows as [|row rest IH]; intros row_num valid errs total; simpl.
  - apply read_only_ret.
  - apply read_only_bind; [apply read_only_parse_row|]. intros [err|t]; apply IH.
Qed.

Lemma read_only_parse_csv (file : FileContent) : read_only (_parse_csv file).
Proof.
  destruct file as [|records|records rest msg]; simpl; [apply read_only_raise| |].
  - destruct records as [|[|h fieldnames] body]; try apply read_only_ret.
    destruct (negb _); [apply read_only_ret|apply read_only_parse_rows].
  - destruct records as [|[|h fieldnames] body];
      [apply read_only_raise|apply read_only_ret|].
    destruct (negb _); [apply read_only_ret|].
    apply read_only_bind; [apply read_only_parse_rows|]. intros r. apply read_only_raise.
Qed.

(** A text the reader does not read to its end: the parser returns only
    when the header stops it, with what it returns for the records read;
    and it raises what it raises for the records read, or else the error
    of the reader. *)
Lemma parse_csv_unreadable_Returned (records : list (list string)) (rest msg : string)
    (s s' : Session) r :
  _parse_csv (unreadable_text records rest msg) s = (Returned r, s') ->
  _parse_csv (utf8_text records) s = (Returned r, s')
  /\ exists m, r = ([], [header_error m], 0).
Proof.
  unfold _parse_csv. destruct records as [|[|h fieldnames] body].
  - discriminate.
  - intros E. split; [exact E|]. injection E as <- _. eauto.
  - destruct (negb _).
    + intros E. split; [exact E|]. injection E as <- _. eauto.
    + unfold mbind, M_bind.
      destruct (parse_rows _ _ _ _ _ s) as [[x|e] s1]; discriminate.
Qed.

Lemma parse_csv_Returned_text (file : FileContent) (s s' : Session) r :
  _parse_csv file s = (Returned r, s') ->
  exists records, _parse_csv (utf8_text records) s = (Returned r, s').
Proof.
  destruct file as [|records|records rest msg]; [discriminate|eauto|].
  intros E. apply parse_csv_unreadable_Returned in E as [E _]. eauto.
Qed.

Lemma parse_csv_unreadable_Raised (records : list (list string)) (rest msg : string)
    (s s' : Session) (e : exn) :
  _parse_csv (unreadable_text records rest msg) s = (Raised e, s') ->
  _parse_csv (utf8_text records) s = (Raised e, s')
  \/ (e = CsvError msg /\ s' = s
      /\ (records = [] \/ exists r, _parse_csv (utf8_text records) s = (Returned r, s))).
Proof.
  intros E.
  assert (s' = s) as -> by (eapply read_only_run; [apply read_only_parse_csv|exact E]).
  revert E. unfold _parse_csv. destruct records as [|[|h fieldnames] body].
  - intros [= <-]. right. auto.
  - discriminate.
  - destruct (negb _); [discriminate|]. unfold mbind, M_bind.
    destruct (parse_rows _ _ _ _ _ s) as [[x|e0] s1] eqn:Ep.
    + assert (s1 = s) as -> by (eapply read_only_run; [apply read_only_parse_rows|exact Ep]).
      intros [= <-]. right. eauto.
    + intros E. left. exact E.
Qed.

(** What one row contributes. *)
Lemma parse_row_accepts (row_num : Z) (row : RawRow) (t : TransactionCreate) (s : Session) :
  active s = true ->
  TransactionCSVRow row = Returned t ->
  transaction_id t ∉ stored_ids (view s) ->
  parse_row row_num row s = (Returned (inr t), s).
Proof.
  intros Ha Ht Hid. unfold parse_row, TransactionRepository.exists_.
  apply try_Returned. rewrite (bind_Returned _ _ s s t) by (unfold lift; rewrite Ht; reflexivity).
  rewrite (bind_Returned _ _ s s false); [reflexivity|].
  rewrite execute_active by assumption. rewrite bool_decide_eq_false_2 by exact Hid. reflexivity.
Qed.

Lemma parse_row_inr (row_num : Z) (row : RawRow) (t : TransactionCreate) (s s' : Session) :
  parse_row row_num row s = (Returned (inr t), s') ->
  active s = true /\ TransactionCSVRow row = Returned t
  /\ transaction_id t ∉ stored_ids (view s).
Proof.
  unfold parse_row, try_except, TransactionRepository.exists_, lift, execute.
  rewrite !bind_run.
  destruct (TransactionCSVRow row) as [t'|e].
  - rewrite !bind_run. destruct (active s) eqn:Ha.
    + destruct (bool_decide _) eqn:Hd.
      * rewrite !bind_run. destruct (mk_ValidationError _ _ _ _); [discriminate|].
        rewrite !bind_run. destruct (mk_ValidationError _ _ _ _); discriminate.
      * intros [= <- <-]. apply bool_decide_eq_false in Hd. auto.
    + rewrite !bind_run. destruct (mk_ValidationError _ _ _ _); discriminate.
  - rewrite !bind_run. destruct (mk_ValidationError _ _ _ _); discriminate.
Qed.

Lemma mk_ValidationError_row_number (n : Z) (f : option string) (msg : string)
    (raw : option RawRow) (err : ValidationError) :
  mk_ValidationError n f msg raw = Returned err -> row_number err = n.
Proof.
  unfold mk_ValidationError. destruct raw as [row|]; [destruct (raw_data_input row)|];
    intros [= <-]; reflexivity.
Qed.

Lemma parse_row_inl (row_num : Z) (row : RawRow) (err : ValidationError) (s s' : Session) :
  parse_row row_num row s = (Returned (inl err), s') -> row_number err = row_num.
Proof.
  unfold parse_row, try_except, TransactionRepository.exists_, lift, execute.
  rewrite !bind_run.
  assert (Hh : forall e s0 s1,
    (match mk_ValidationError row_num (exn_loc e) (exn_str e) (Some row) with
     | Returned a => (mret (inl a) : M (ValidationError + TransactionCreate)) s0
     | Raised e' => (Raised e', s0)
     end) = (Returned (inl err), s1) -> row_number err = row_num).
  { intros e s0 s1. destruct (mk_ValidationError _ _ _ _) eqn:E; [|discriminate].
    intros [= <- _]. eapply mk_ValidationError_row_number; eassumption. }
  destruct (TransactionCSVRow row) as [t'|e].
  - rewrite !bind_run. destruct (active s) eqn:Ha.
    + destruct (bool_decide _) eqn:Hd.
      * rewrite !bind_run. destruct (mk_ValidationError _ _ _ _) eqn:E.
        -- intros [= <- _]. eapply mk_ValidationError_row_number; eassumption.
        -- rewrite !bind_run. apply Hh.
      * discriminate.
    + rewrite !bind_run. apply Hh.
  - rewrite !bind_run. apply Hh.
Qed.

End Parsing.
(** ** Strings *)

Lemma lstrip_all sp (ws l : list ascii) :
  Forall (fun c => sp c = true) ws -> lstrip sp (ws ++ l) = lstrip sp l.
Proof.
  induction 1 as [|c ws Hc _ IH]; simpl; [reflexivity|].
  rewrite Hc. exact IH.
Qed.

Lemma lstrip_head sp (c : ascii) (l : list ascii) :
  sp c = false -> lstrip sp (c :: l) = c :: l.
Proof. intros Hc. simpl. rewrite Hc. reflexivity. Qed.

(** Stripping removes exactly the surrounding whitespace of a text that
    begins and ends with other characters. *)
Lemma strip_surrounded sp (ws1 ws2 mid : list ascii) (a b : ascii) :
  Forall (fun c => sp c = true) ws1 ->
  Forall (fun c => sp c = true) ws2 ->
  sp a = false -> sp b = false ->
  strip sp (ws1 ++ (a :: mid ++ [b]) ++ ws2) = a :: mid ++ [b].
Proof.
  intros H1 H2 Ha Hb. unfold strip.
  rewrite lstrip_all by assumption.
  rewrite <- app_comm_cons, lstrip_head by assumption.
  rewrite app_comm_cons, rev_app_distr.
  rewrite lstrip_all by (apply List.Forall_rev; assumption).
  rewrite app_comm_cons, rev_app_distr.
  cbn [rev app]. rewrite lstrip_head by assumption.
  cbn [rev]. rewrite !rev_app_distr, rev_involutive. reflexivity.
Qed.

Lemma strip_single sp (a : ascii) : sp a = false -> strip sp [a] = [a].
Proof. intros Ha. unfold strip. simpl. rewrite Ha. simpl. rewrite Ha. reflexivity. Qed.

Lemma list_ascii_roundtrip (l : list ascii) :
  list_ascii_of_string (string_of_list_ascii l) = l.
Proof. apply list_ascii_of_string_of_list_ascii. Qed.

(** ** Row validation: amount and quantity *)

Lemma strip_zeros_exp (fuel : nat) (c : N) (e : Z) :
  e <= (strip_zeros fuel c e).2.
Proof.
  revert c e. induction fuel as [|f IH]; intros c e; simpl; [lia|].
  destruct ((c mod 10 =? 0)%N && negb (c =? 0)%N); simpl; [|lia].
  specialize (IH (c / 10)%N (e + 1)). lia.
Qed.

(** Normalising never lowers the exponent of a decimal whose exponent is
    at most 0, so pydantic's digit check accepts whatever [validate_amount]
    accepts. *)
Lemma decimal_places_ok_of_exp (d : Decimal) :
  -2 <= dec_exp d -> decimal_places_ok d = true.
Proof.
  intros Hd. unfold decimal_places_ok, normalize.
  destruct (dec_is_zero d); [reflexivity|].
  pose proof (strip_zeros_exp (N.to_nat (N.log2 (dec_coeff d)) + 1) (dec_coeff d) (dec_exp d)) as Hs.
  destruct (strip_zeros _ _ _) as [c e]. simpl in *. apply Z.leb_le. lia.
Qed.

Lemma amount_field_spec (s : string) (d : Decimal) :
  amount_field s = Some d <->
  Decimal_of_str s = Some (Finite d) /\ dec_gt0 d = true /\ -2 <= dec_exp d.
Proof.
  unfold amount_field, validate_amount.
  destruct (Decimal_of_str s) as [[d'|]|]; [|split; [discriminate|intros [? _]; discriminate]..].
  split.
  - destruct (decimal_places_ok d' && dec_gt0 d') eqn:E; [|discriminate].
    destruct (dec_exp d' <? -2) eqn:E2; [discriminate|].
    intros [= <-]. apply andb_true_iff in E as [_ E]. apply Z.ltb_ge in E2. auto.
  - intros ([= <-] & Hgt & Hexp).
    rewrite decimal_places_ok_of_exp, Hgt by assumption. simpl.
    destruct (dec_exp d' <? -2) eqn:E2; [apply Z.ltb_lt in E2; lia|reflexivity].
Qed.

Lemma quantity_field_spec (s : string) (q : Z) :
  quantity_field s = Some q <-> int_of_str s = Some q /\ 0 < q.
Proof.
  unfold quantity_field. destruct (int_of_str s) as [q'|]; [|split; [discriminate|intros [? _]; discriminate]].
  destruct (0 <? q') eqn:E.
  - apply Z.ltb_lt in E. split; [intros [= <-]; auto|intros [[= <-] _]; reflexivity].
  - apply Z.ltb_ge in E. split; [discriminate|intros [[= <-] ?]; lia].
Qed.

(** *** Plain decimal notation *)

Lemma plain_cases (c : ascii) :
  plain c = true ->
  In c ["0"; "1"; "2"; "3"; "4"; "5"; "6"; "7"; "8"; "9"; "."]%char.
Proof.
  destruct c as [[] [] [] [] [] [] [] []]; vm_compute; intros E;
    first [discriminate E | tauto].
Qed.

Lemma plain_not_space (c : ascii) : plain c = true -> py_isspace c = false.
Proof.
  intros Hc. apply plain_cases in Hc. simpl in Hc.
  repeat (destruct Hc as [<-|Hc]; [reflexivity|]). destruct Hc.
Qed.

Lemma plain_not_underscore (c : ascii) : plain c = true -> negb (is_underscore c) = true.
Proof.
  intros Hc. apply plain_cases in Hc. simpl in Hc.
  repeat (destruct Hc as [<-|Hc]; [reflexivity|]). destruct Hc.
Qed.

Lemma plain_not_e (c : ascii) : plain c = true -> is_e c = false.
Proof.
  intros Hc. apply plain_cases in Hc. simpl in Hc.
  repeat (destruct Hc as [<-|Hc]; [reflexivity|]). destruct Hc.
Qed.

Lemma digit_plain (c : ascii) : is_digit c = true -> plain c = true.
Proof. intros Hc. unfold plain. rewrite Hc. reflexivity. Qed.

Lemma digit_not_dot (c : ascii) : is_digit c = true -> is_dot c = false.
Proof.
  intros Hc. pose proof (plain_cases c (digit_plain c Hc)) as Hin. simpl in Hin.
  repeat (destruct Hin as [<-|Hin]; [first [reflexivity | discriminate Hc]|]). destruct Hin.
Qed.

Lemma take_sign_plain (c : ascii) (r : list ascii) :
  plain c = true -> take_sign (c :: r) = (false, c :: r).
Proof.
  intros Hc. apply plain_cases in Hc. simpl in Hc.
  repeat (destruct Hc as [<-|Hc]; [reflexivity|]). destruct Hc.
Qed.

Lemma is_special_plain (c : ascii) (r : list ascii) :
  plain c = true -> is_special (c :: r) = false.
Proof.
  intros Hc. apply plain_cases in Hc. simpl in Hc. unfold is_special.
  repeat (destruct Hc as [<-|Hc];
          [repeat (destruct (decide _) as [E|_]; [discriminate E|]); reflexivity|]).
  destruct Hc.
Qed.

Lemma split_on_absent p (l : list ascii) :
  Forall (fun c => p c = false) l -> split_on p l = (l, None).
Proof.
  induction 1 as [|c l Hc _ IH]; simpl; [reflexivity|]. rewrite Hc, IH. reflexivity.
Qed.

Lemma split_on_first p (l r : list ascii) (c : ascii) :
  Forall (fun c => p c = false) l -> p c = true -> split_on p (l ++ c :: r) = (l, Some r).
Proof.
  intros Hl Hc. induction Hl as [|x l Hx _ IH]; simpl.
  - rewrite Hc. reflexivity.
  - rewrite Hx, IH. reflexivity.
Qed.

Lemma filter_all (f : ascii -> bool) (l : list ascii) :
  Forall (fun c => f c = true) l -> List.filter f l = l.
Proof.
  induction 1 as [|c l Hc _ IH]; simpl; [reflexivity|]. rewrite Hc, IH. reflexivity.
Qed.

Lemma all_digits_Forall (l : list ascii) :
  all_digits l = true -> Forall (fun c => is_digit c = true) l.
Proof. intros H. apply List.Forall_forall. apply forallb_forall. exact H. Qed.

Lemma strip_plain (l : list ascii) :
  Forall (fun c => plain c = true) l -> strip py_isspace l = l.
Proof.
  intros Hl. destruct l as [|a l]; [reflexivity|].
  destruct (exists_last (l := a :: l)) as (l' & b & E); [discriminate|].
  destruct l' as [|a' mid].
  - simpl in E. injection E as -> ->. apply strip_single, plain_not_space.
    inversion Hl; assumption.
  - simpl in E. injection E as <- ->.
    pose proof (strip_surrounded py_isspace [] [] mid a b (List.Forall_nil _) (List.Forall_nil _)) as Hs.
    simpl in Hs. rewrite app_nil_r in Hs. apply Hs.
    + apply plain_not_space. inversion Hl; assumption.
    + apply plain_not_space. inversion Hl as [|? ? _ Hl']. subst.
      apply List.Forall_app in Hl' as [_ Hb]. inversion Hb; assumption.
Qed.

(** A number written as digits, a point and digits has as many places as
    there are digits after the point. *)
Lemma Decimal_of_str_plain (ip fp : list ascii) :
  all_digits ip = true -> all_digits fp = true -> fp <> [] ->
  Decimal_of_str (string_of_list_ascii (ip ++ "."%char :: fp))
  = Some (Finite (mkDecimal false (digits_value (ip ++ fp)) (- Z.of_nat (length fp)))).
Proof.
  intros Hip Hfp Hne.
  pose proof (all_digits_Forall _ Hip) as Fip. pose proof (all_digits_Forall _ Hfp) as Ffp.
  assert (Hplain : Forall (fun c => plain c = true) (ip ++ "."%char :: fp)).
  { apply List.Forall_app. split; [eapply List.Forall_impl; [|exact Fip]; apply digit_plain|].
    constructor; [reflexivity|]. eapply List.Forall_impl; [|exact Ffp]. apply digit_plain. }
  unfold Decimal_of_str. rewrite list_ascii_roundtrip, strip_plain by assumption.
  rewrite filter_all by (eapply List.Forall_impl; [|exact Hplain]; apply plain_not_underscore).
  assert (Hts : take_sign (ip ++ "."%char :: fp) = (false, ip ++ "."%char :: fp)
                /\ is_special (ip ++ "."%char :: fp) = false).
  { destruct ip as [|c ip']; simpl app.
    - split; [apply take_sign_plain|apply is_special_plain]; reflexivity.
    - inversion Hplain; subst. split; [apply take_sign_plain|apply is_special_plain]; assumption. }
  destruct Hts as [-> ->].
  rewrite split_on_absent by (eapply List.Forall_impl; [|exact Hplain]; apply plain_not_e).
  rewrite split_on_first; [|eapply List.Forall_impl; [|exact Fip]; apply digit_not_dot|reflexivity].
  simpl default. rewrite Hip, Hfp. destruct fp; [contradiction|]. simpl.
  rewrite andb_false_r. reflexivity.
Qed.

Lemma dec_gt0_value (d : Decimal) : dec_gt0 d = true <-> (0 < dec_value d)%Q.
Proof.
  unfold dec_gt0, dec_value, dec_num, dec_is_zero.
  assert (Hp : (0 < Qpower (10 # 1) (dec_exp d))%Q) by (apply Qpower_0_lt; reflexivity).
  destruct (dec_sign d); simpl.
  - split; [discriminate|]. intros Hlt. exfalso.
    assert (Hle : (inject_Z (- Z.of_N (dec_coeff d)) * Qpower (10 # 1) (dec_exp d) <= 0)%Q).
    { rewrite <- (Qmult_0_l (Qpower (10 # 1) (dec_exp d))).
      apply Qmult_le_compat_r; [|apply Qlt_le_weak; exact Hp].
      change 0%Q with (inject_Z 0). rewrite <- Zle_Qle. lia. }
    apply (Qlt_irrefl 0). eapply Qlt_le_trans; eassumption.
  - rewrite negb_true_iff, N.eqb_neq. split.
    + intros Hne. apply Qmult_lt_0_compat; [|exact Hp].
      change 0%Q with (inject_Z 0). rewrite <- Zlt_Qlt. lia.
    + intros Hlt Hz. rewrite Hz in Hlt. simpl in Hlt. rewrite Qmult_0_l in Hlt.
      exact (Qlt_irrefl 0 Hlt).
Qed.

Lemma TransactionCSVRow_fields {parsers : FieldParsers} (row : RawRow) (t : TransactionCreate) :
  TransactionCSVRow row = Returned t ->
  field_input row "amount" ≫= amount_field = Some (amount t)
  /\ field_input row "currency" ≫= currency_field = Some (currency t)
  /\ field_input row "quantity" ≫= quantity_field = Some (quantity t)
  /\ field_input row "transaction_id" ≫= parse_uuid = Some (transaction_id t)
  /\ restkey row = None.
Proof.
  unfold TransactionCSVRow. destruct (restkey row); [discriminate|].
  destruct (field_input row "transaction_id" ≫= parse_uuid); [|discriminate].
  destruct (field_input row "timestamp" ≫= parse_datetime); [|discriminate].
  destruct (field_input row "amount" ≫= amount_field); [|discriminate].
  destruct (field_input row "currency" ≫= currency_field); [|discriminate].
  destruct (field_input row "customer_id" ≫= parse_uuid); [|discriminate].
  destruct (field_input row "product_id" ≫= parse_uuid); [|discriminate].
  destruct (field_input row "quantity" ≫= quantity_field); [|discriminate].
  intros [= <-]. simpl. auto.
Qed.

Lemma TransactionCSVRow_rejects {parsers : FieldParsers} (row : RawRow) :
  field_input row "amount" ≫= amount_field = None
  \/ field_input row "currency" ≫= currency_field = None
  \/ field_input row "quantity" ≫= quantity_field = None ->
  exists e, TransactionCSVRow row = Raised e.
Proof.
  intros Hbad. destruct (TransactionCSVRow row) as [t|e] eqn:E; [|eauto].
  apply TransactionCSVRow_fields in E as (Ha & Hc & Hq & _).
  destruct Hbad as [Hb|[Hb|Hb]]; congruence.
Qed.

(** C7: the amount must be a decimal strictly greater than zero with
    exponent at least -2 (at most two digits after the point), so "0.00" is
    rejected, "0.01" accepted, and every number written with three or more
    digits after the point ("10.005", also "10.500") is rejected; the
    quantity must be an integer strictly greater than zero, so "0" is
    rejected and "1" accepted.  A row is rejected as soon as its amount or
    its quantity is, and an accepted row carries accepted values. *)
Theorem amount_and_quantity_bounds {parsers : FieldParsers} :
  (forall s d, amount_field s = Some d <->
     Decimal_of_str s = Some (Finite d) /\ (0 < dec_value d)%Q /\ -2 <= dec_exp d)
  /\ amount_field "0.00" = None
  /\ amount_field "0.01" = Some (mkDecimal false 1 (-2))
  /\ amount_field "10.005" = None
  /\ amount_field "10.500" = None
  /\ (forall ip fp, all_digits ip = true -> all_digits fp = true -> (3 <= length fp)%nat ->
        amount_field (string_of_list_ascii (ip ++ "."%char :: fp)) = None)
  /\ (forall s q, quantity_field s = Some q <-> int_of_str s = Some q /\ 0 < q)
  /\ quantity_field "0" = None
  /\ quantity_field "1" = Some 1
  /\ (forall row t, TransactionCSVRow row = Returned t ->
        (0 < dec_value (amount t))%Q /\ -2 <= dec_exp (amount t) /\ 0 < quantity t)
  /\ (forall row,
        field_input row "amount" ≫= amount_field = None
        \/ field_input row "quantity" ≫= quantity_field = None ->
        exists e, TransactionCSVRow row = Raised e).
Proof.
  assert (Hspec : forall s d, amount_field s = Some d <->
     Decimal_of_str s = Some (Finite d) /\ (0 < dec_value d)%Q /\ -2 <= dec_exp d).
  { intros s d. rewrite amount_field_spec, dec_gt0_value. reflexivity. }
  split; [exact Hspec|].
  do 4 (split; [reflexivity|]).
  split.
  { intros ip fp Hip Hfp Hlen.
    destruct (amount_field _) as [d|] eqn:E; [|reflexivity]. exfalso.
    apply amount_field_spec in E as (Hd & _ & Hexp).
    rewrite Decimal_of_str_plain in Hd; [|assumption|assumption|destruct fp; [simpl in Hlen; lia|discriminate]].
    injection Hd as <-. simpl in Hexp. lia. }
  split; [exact quantity_field_spec|].
  do 2 (split; [reflexivity|]).
  split.
  - intros row t Ht. apply TransactionCSVRow_fields in Ht as (Ha & _ & Hq & _).
    destruct (field_input row "amount") as [a|]; [|discriminate].
    destruct (field_input row "quantity") as [q|]; [|discriminate].
    simpl in Ha, Hq. apply Hspec in Ha as (_ & ? & ?). apply quantity_field_spec in Hq as [_ ?].
    auto.
  - intros row [Hb|Hb]; apply TransactionCSVRow_rejects; auto.
Qed.

(** ** Row validation: currency *)

Lemma string_list_roundtrip (s : string) :
  string_of_list_ascii (list_ascii_of_string s) = s.
Proof. apply string_of_list_ascii_of_string. Qed.

Lemma CurrencyEnum_of_str_value (s : string) (c : CurrencyEnum) :
  CurrencyEnum_of_str s = Some c <-> s = CurrencyEnum_value c.
Proof.
  unfold CurrencyEnum_of_str.
  repeat (destruct (decide _) as [->|?]);
    destruct c; simpl; split; intros E; try discriminate E; try congruence.
Qed.

Lemma currency_field_spec (s : string) (c : CurrencyEnum) :
  currency_field s = Some c <-> s = CurrencyEnum_value c.
Proof. unfold currency_field. apply CurrencyEnum_of_str_value. Qed.

(** What [str_strip_whitespace] does to the input of a [str] field. *)
Lemma str_input_surrounded (ws1 ws2 : list ascii) (c : CurrencyEnum) :
  all_whitespace ws1 -> all_whitespace ws2 ->
  str_input model_config
    (string_of_list_ascii (ws1 ++ list_ascii_of_string (CurrencyEnum_value c) ++ ws2))
  = CurrencyEnum_value c.
Proof.
  intros H1 H2. unfold str_input, str_strip. simpl str_strip_whitespace. cbv iota.
  rewrite list_ascii_roundtrip.
  assert (Hs : forall a m b, rs_is_whitespace a = false -> rs_is_whitespace b = false ->
            strip rs_is_whitespace (ws1 ++ [a; m; b] ++ ws2) = [a; m; b]).
  { intros a m b Ha Hb. exact (strip_surrounded rs_is_whitespace ws1 ws2 [m] a b H1 H2 Ha Hb). }
  destruct c; simpl list_ascii_of_string; rewrite Hs; reflexivity.
Qed.

(** The enumeration field takes the cell as it is: a member with anything
    around it is no member. *)
Lemma currency_field_surrounded (ws1 ws2 : list ascii) (c : CurrencyEnum) :
  ws1 <> [] \/ ws2 <> [] ->
  currency_field
    (string_of_list_ascii (ws1 ++ list_ascii_of_string (CurrencyEnum_value c) ++ ws2))
  = None.
Proof.
  intros Hne.
  destruct (currency_field _) as [c'|] eqn:E; [|reflexivity]. exfalso.
  apply currency_field_spec in E.
  apply (f_equal list_ascii_of_string) in E. rewrite list_ascii_roundtrip in E.
  apply (f_equal (@length ascii)) in E. rewrite !length_app in E.
  assert (H3 : forall x, length (list_ascii_of_string (CurrencyEnum_value x)) = 3%nat)
    by (intros []; reflexivity).
  rewrite !H3 in E.
  destruct Hne as [Hne|Hne]; [destruct ws1|destruct ws2]; try contradiction; simpl in E; lia.
Qed.

Lemma parse_row_invalid {parsers : FieldParsers} (row_num : Z) (row : RawRow) (e : exn)
    (d : gmap string string) (s : Session) :
  TransactionCSVRow row = Raised e ->
  raw_data_input row = Some d ->
  parse_row row_num row s
  = (Returned (inl {| row_number := row_num; field := None; error := exn_str e;
                      raw_data := Some d |}), s).
Proof.
  intros He Hd. unfold parse_row, try_except, mbind, M_bind, lift.
  rewrite He. unfold mk_ValidationError. rewrite Hd. reflexivity.
Qed.

(** C8: the currency is compared with the enumeration as the cell holds
    it; surrounding whitespace is not stripped.  " PLN " is rejected, and
    so is every member with whitespace around it, although the option
    [str_strip_whitespace] of the model would turn each into the member
    were the field a string, and although the amount is accepted with
    whitespace around it; a value is accepted exactly when it is a
    member.  A row whose currency is no member fails validation,
    which the import records as an error of that row: the file with the
    one row whose currency is " PLN " is answered with no processed row
    and one error, and nothing is stored. *)
Theorem currency_whitespace_not_stripped {parsers : FieldParsers} :
  currency_field " PLN " = None
  /\ str_input model_config " PLN " = "PLN"
  /\ amount_field " 100.00 " = Some (mkDecimal false 10000 (-2))
  /\ (forall ws1 ws2 c, all_whitespace ws1 -> all_whitespace ws2 ->
        ws1 <> [] \/ ws2 <> [] ->
        let s := string_of_list_ascii
                   (ws1 ++ list_ascii_of_string (CurrencyEnum_value c) ++ ws2) in
        currency_field s = None /\ str_input model_config s = CurrencyEnum_value c)
  /\ (forall s c, currency_field s = Some c <-> s = CurrencyEnum_value c)
  /\ (forall row s,
        field_input row "currency" = Some s ->
        (forall c, s <> CurrencyEnum_value c) ->
        exists e, TransactionCSVRow row = Raised e
          /\ forall row_num d st, raw_data_input row = Some d ->
               parse_row row_num row st
               = (Returned (inl {| row_number := row_num; field := None;
                                   error := exn_str e; raw_data := Some d |}), st))
  /\ (let run := import_csv (parsers := Sample.parsers) (writers := no_writers)
                    Sample.service
                    (utf8_text [Sample.header; Sample.record 1 "100.00" " PLN " "1"])
                    "blanks.csv" Sample.s0 in
      (exists resp, run.1 = Returned resp
         /\ processed_count resp = 0 /\ error_count resp = 1
         /\ (fun e => e !! "row") <$> errors resp = [Some "2"])
      /\ transactions (view run.2) = []).
Proof.
  split; [reflexivity|].
  split; [reflexivity|].
  split; [vm_compute; reflexivity|].
  split.
  { intros ws1 ws2 c H1 H2 Hne. split.
    - apply currency_field_surrounded. exact Hne.
    - apply str_input_surrounded; assumption. }
  split; [exact currency_field_spec|].
  split.
  { intros row s Hs Hnot.
    destruct (TransactionCSVRow_rejects row) as [e He].
    { right; left. rewrite Hs. simpl.
      destruct (currency_field s) as [c|] eqn:E; [|reflexivity].
      apply currency_field_spec in E. destruct (Hnot c E). }
    exists e. split; [exact He|]. intros row_num d st Hd. apply parse_row_invalid; assumption. }
  split.
  - eexists. split; [vm_compute; reflexivity|]. repeat split; vm_compute; reflexivity.
  - vm_compute. reflexivity.
Qed.

Section ParsingLoop.
Context {parsers : FieldParsers}.

(** The row loop, when it ends normally: every row had an outcome, the
    accepted rows and the errors are appended in order. *)
Lemma parse_rows_returned (rows : list RawRow) :
  forall row_num valid errs total s valid' errs' total' s',
  parse_rows rows row_num valid errs total s = (Returned (valid', errs', total'), s') ->
  exists rs,
    (forall i row, rows !! i = Some row ->
       exists r, rs !! i = Some r
         /\ parse_row (row_num + Z.of_nat i) row s = (Returned r, s))
    /\ length rs = length rows
    /\ valid' = valid ++ accepted rs
    /\ errs' = errs ++ rejected rs
    /\ total' = total + len rows.
Proof.
  induction rows as [|row rest IH]; intros row_num valid errs total s valid' errs' total' s'.
  - simpl. intros [= <- <- <- <-]. exists []. unfold len. simpl.
    rewrite !app_nil_r. repeat split; try lia. intros i row Hi. discriminate Hi.
  - simpl. rewrite bind_run.
    destruct (parse_row row_num row s) as [[r|e] s1] eqn:Er; [|discriminate].
    pose proof (read_only_run _ _ _ _ (read_only_parse_row row_num row) Er) as ->.
    intros Hrest.
    assert (Hgen : exists valid1 errs1,
      parse_rows rest (row_num + 1) valid1 errs1 (total + 1) s = (Returned (valid', errs', total'), s')
      /\ valid1 = valid ++ accepted [r] /\ errs1 = errs ++ rejected [r]).
    { destruct r as [err|t]; eexists _, _; (split; [exact Hrest|]);
        unfold accepted, rejected; simpl; rewrite ?app_nil_r; auto. }
    destruct Hgen as (valid1 & errs1 & Hrest' & -> & ->).
    apply IH in Hrest' as (rs & Hrs & Hlen & -> & -> & ->).
    exists (r :: rs). split; [|split; [|split; [|split]]].
    + intros [|i] row' Hi; simpl in Hi.
      * injection Hi as <-. exists r. split; [reflexivity|]. rewrite Z.add_0_r. exact Er.
      * destruct (Hrs i row' Hi) as (r' & Hr' & Hp). exists r'. split; [exact Hr'|].
        rewrite <- Hp. f_equal. lia.
    + simpl. lia.
    + rewrite <- app_assoc. f_equal. unfold accepted. destruct r; reflexivity.
    + rewrite <- app_assoc. f_equal. unfold rejected. destruct r; reflexivity.
    + unfold len. simpl length. lia.
Qed.

Lemma elem_of_accepted (rs : list (ValidationError + TransactionCreate)) (t : TransactionCreate) :
  t ∈ accepted rs <-> inr t ∈ rs.
Proof.
  unfold accepted. rewrite list_elem_of_omap. split.
  - intros ([e|t'] & Hin & Heq); [discriminate|]. injection Heq as ->. exact Hin.
  - intros Hin. exists (inr t). auto.
Qed.

Lemma elem_of_rejected (rs : list (ValidationError + TransactionCreate)) (e : ValidationError) :
  e ∈ rejected rs <-> inl e ∈ rs.
Proof.
  unfold rejected. rewrite list_elem_of_omap. split.
  - intros ([e'|t] & Hin & Heq); [|discriminate]. injection Heq as ->. exact Hin.
  - intros Hin. exists (inl e). auto.
Qed.

End ParsingLoop.

(** ** Duplicates of stored transactions *)

Section StoredDuplicates.
Context {parsers : FieldParsers}.

(** A row whose identifier is stored and whose cells are all strings is
    reported as an error of that row, on [transaction_id], naming the
    identifier; the session is not touched. *)
Lemma parse_row_duplicate (row_num : Z) (row : RawRow) (t : TransactionCreate)
    (d : gmap string string) (s : Session) :
  active s = true ->
  TransactionCSVRow row = Returned t ->
  transaction_id t ∈ stored_ids (view s) ->
  raw_data_input row = Some d ->
  parse_row row_num row s
  = (Returned (inl {| row_number := row_num; field := Some "transaction_id";
                      error := "Transaction " +:+ UUID_str (transaction_id t)
                                 +:+ " already exists";
                      raw_data := Some d |}), s).
Proof.
  intros Ha Ht Hid Hd. unfold parse_row, TransactionRepository.exists_.
  apply try_Returned. rewrite (bind_Returned _ _ s s t) by (unfold lift; rewrite Ht; reflexivity).
  rewrite (bind_Returned _ _ s s true).
  - unfold mk_ValidationError. rewrite Hd. reflexivity.
  - rewrite execute_active by assumption. rewrite bool_decide_eq_true_2 by exact Hid. reflexivity.
Qed.

(** The same row with a cell missing (a record shorter than the header)
    cannot be put in an error record: the construction of the error raises,
    in the [try] block and again in its handler, and the exception leaves
    the row loop. *)
Lemma parse_row_duplicate_short (row_num : Z) (row : RawRow) (t : TransactionCreate)
    (s : Session) :
  active s = true ->
  TransactionCSVRow row = Returned t ->
  transaction_id t ∈ stored_ids (view s) ->
  raw_data_input row = None ->
  parse_row row_num row s = (Raised (PydanticValidationError "ValidationError"), s).
Proof.
  intros Ha Ht Hid Hd. unfold parse_row, TransactionRepository.exists_.
  assert (Hbody : forall k : ValidationError -> M (ValidationError + TransactionCreate),
    (lift (TransactionCSVRow row) ≫= fun validated_row =>
       execute (fun db => bool_decide (transaction_id validated_row
                                       ∈ Transaction.transaction_id <$> transactions db))
       ≫= fun exists_ : bool =>
            if exists_
            then lift (mk_ValidationError row_num (Some "transaction_id")
                         ("Transaction " +:+ UUID_str (transaction_id validated_row)
                            +:+ " already exists") (Some row)) ≫= k
            else mret (inr validated_row)) s
    = (Raised (PydanticValidationError "ValidationError"), s)).
  { intros k. rewrite (bind_Returned _ _ s s t) by (unfold lift; rewrite Ht; reflexivity).
    rewrite (bind_Returned _ _ s s true).
    - unfold mk_ValidationError, lift. rewrite Hd. reflexivity.
    - rewrite execute_active by assumption. rewrite bool_decide_eq_true_2 by exact Hid.
      reflexivity. }
  rewrite (try_Raised _ _ _ _ _ (Hbody _)).
  unfold mk_ValidationError, lift. mrun. rewrite Hd. reflexivity.
Qed.

End StoredDuplicates.

(** C4, where the code departs from it: transaction 1 is stored; the file
    has an eighth header column and one data row with seven cells, which
    carries identifier 1.  The row validates and its identifier is found in
    storage, but the import reports no error for row 2: building the error
    record raises, and the import call fails as a whole.  The stored
    transaction stays as it was. *)
Theorem duplicate_in_short_row_fails_import :
  let row := dict_row (Sample.header ++ ["note"]) (Sample.record 1 "100.00" "PLN" "1") in
  (exists t, TransactionCSVRow (parsers := Sample.parsers) row = Returned t
             /\ transaction_id t ∈ stored_ids (view Sample.s1))
  /\ raw_data_input row = None
  /\ _parse_csv (parsers := Sample.parsers) Sample.short_row_file Sample.s1
     = (Raised (PydanticValidationError "ValidationError"), Sample.s1)
  /\ (exists s',
        import_csv (parsers := Sample.parsers) (writers := no_writers) Sample.service
          Sample.short_row_file "again.csv" Sample.s1
        = (Raised (PydanticValidationError "ValidationError"), s')
        /\ transactions (view s') = transactions (view Sample.s1)).
Proof.
  cbv zeta. split; [|split; [|split]].
  - eexists. split; [vm_compute; reflexivity|]. apply (bool_decide_unpack _). vm_compute. exact I.
  - vm_compute. reflexivity.
  - vm_compute. reflexivity.
  - eexists. split; vm_compute; reflexivity.
Qed.

(** ** The repositories *)

Lemma flush_returning_inactive {A} reject (w : DB -> A * DB) (s : Session) :
  active s = false -> flush_returning reject w s = (Raised PendingRollbackError, s).
Proof. intros E. unfold flush_returning. rewrite E. reflexivity. Qed.

Lemma flush_returning_rejected {A} reject (w : DB -> A * DB) (s : Session) (e : exn) :
  active s = true -> reject (view s) = Some e ->
  flush_returning reject w s = (Raised e, rolled_back s).
Proof. intros E R. unfold flush_returning. rewrite E, R. reflexivity. Qed.

Lemma flush_returning_accepted {A} reject (w : DB -> A * DB) (s : Session) :
  active s = true -> reject (view s) = None ->
  flush_returning reject w s
  = (Returned (w (view s)).1, mkSession (snapshot s) (w (view s)).2 true (status_log s)).
Proof.
  intros E R. unfold flush_returning. rewrite E, R. destruct (w (view s)). reflexivity.
Qed.

(** A flush that raises leaves an inactive session, either untouched or
    rolled back. *)
Lemma flush_returning_Raised {A} reject (w : DB -> A * DB) (s s' : Session) (e : exn) :
  flush_returning reject w s = (Raised e, s') ->
  (active s = false /\ s' = s) \/ (active s = true /\ s' = rolled_back s).
Proof.
  unfold flush_returning. destruct (active s) eqn:E.
  - destruct (reject (view s)); [|destruct (w (view s)); discriminate].
    intros [= _ <-]. auto.
  - intros [= _ <-]. auto.
Qed.

Lemma flush_returning_Returned {A} reject (w : DB -> A * DB) (s s' : Session) (a : A) :
  flush_returning reject w s = (Returned a, s') ->
  active s = true /\ reject (view s) = None /\ a = (w (view s)).1
  /\ s' = mkSession (snapshot s) (w (view s)).2 true (status_log s).
Proof.
  unfold flush_returning. destruct (active s) eqn:E; [|discriminate].
  destruct (reject (view s)); [discriminate|]. destruct (w (view s)).
  intros [= <- <-]. auto.
Qed.

Lemma aborted_inactive (s s' : Session) : aborted s s' -> active s' = false.
Proof. intros [[E ->]|[_ ->]]; [exact E|reflexivity]. Qed.

Lemma aborted_log (s s' : Session) : aborted s s' -> status_log s' = status_log s.
Proof. intros [[_ ->]|[_ ->]]; reflexivity. Qed.

Lemma aborted_snapshot (s s' : Session) : aborted s s' -> snapshot s' = snapshot s.
Proof. intros [[_ ->]|[_ ->]]; reflexivity. Qed.

Lemma aborted_view (s s' : Session) :
  aborted s s' -> active s = true -> view s' = snapshot s.
Proof. intros [[E _]|[_ ->]] Ha; [congruence|reflexivity]. Qed.

Lemma steady_trans (s1 s2 s3 : Session) : steady s1 s2 -> steady s2 s3 -> steady s1 s3.
Proof. unfold steady. intros (? & ? & ? & ? & ?) (? & ? & ? & ? & ?). repeat split; congruence. Qed.

Lemma steady_aborted (s1 s2 s3 : Session) :
  steady s1 s2 -> aborted s2 s3 -> s3 = rolled_back s2 /\ snapshot s3 = snapshot s1.
Proof.
  intros (Hs & _ & _ & _ & Ha) [[E _]|[_ ->]]; [congruence|]. split; [reflexivity|exact Hs].
Qed.

Section Repositories.
Context {writers : ConcurrentWriters}.

Lemma customers_bulk_run (ids : gset UUID) (s s' : Session) r :
  CustomerRepository.get_or_create_bulk ids s = (r, s') ->
  match r with
  | Returned _ => steady s s'
  | Raised _ => aborted s s'
  end.
Proof.
  unfold CustomerRepository.get_or_create_bulk, flush. rewrite bind_run.
  unfold execute at 1. destruct (active s) eqn:Ha.
  - destruct (decide _).
    + rewrite bind_run.
      destruct (flush_returning _ _ s) as [[[]|e] s1] eqn:Ef.
      * intros [= <- <-]. apply flush_returning_Returned in Ef as (_ & _ & _ & ->).
        repeat split; auto.
      * intros [= <- <-]. apply flush_returning_Raised in Ef. exact Ef.
    + intros [= <- <-]. repeat split; auto.
  - intros [= <- <-]. left. auto.
Qed.

Lemma products_bulk_run (ids : gset UUID) (s s' : Session) r :
  ProductRepository.get_or_create_bulk ids s = (r, s') ->
  match r with
  | Returned _ => steady s s'
  | Raised _ => aborted s s'
  end.
Proof.
  unfold ProductRepository.get_or_create_bulk, flush. rewrite bind_run.
  unfold execute at 1. destruct (active s) eqn:Ha.
  - destruct (decide _).
    + rewrite bind_run.
      destruct (flush_returning _ _ s) as [[[]|e] s1] eqn:Ef.
      * intros [= <- <-]. apply flush_returning_Returned in Ef as (_ & _ & _ & ->).
        repeat split; auto.
      * intros [= <- <-]. apply flush_returning_Raised in Ef. exact Ef.
    + intros [= <- <-]. repeat split; auto.
  - intros [= <- <-]. left. auto.
Qed.

(** A bulk insert that raises has written nothing. *)
Lemma create_bulk_Raised (data : list TransactionCreate) (s s' : Session) (e : exn) :
  TransactionRepository.create_bulk data s = (Raised e, s') -> aborted s s'.
Proof.
  unfold TransactionRepository.create_bulk, flush.
  destruct (is_nil data); [discriminate|].
  destruct (mapM Transaction_of data) as [rows|]; rewrite bind_run;
    (destruct (flush_returning _ _ s) as [[[]|e0] s1] eqn:Ef; [discriminate|]);
    intros [= <- <-]; apply flush_returning_Raised in Ef; exact Ef.
Qed.

(** A bulk insert that returns has appended one row per element. *)
Lemma create_bulk_Returned (data : list TransactionCreate) (s s' : Session)
    (rows : list Transaction.t) :
  data <> [] ->
  TransactionRepository.create_bulk data s = (Returned rows, s') ->
  mapM Transaction_of data = Some rows
  /\ TransactionRepository.insert_ok (view s) rows = true
  /\ transactions (view s') = transactions (view s) ++ rows
  /\ snapshot s' = snapshot s /\ status_log s' = status_log s
  /\ active s = true /\ active s' = true.
Proof.
  intros Hne. unfold TransactionRepository.create_bulk, flush.
  destruct data as [|d data']; [contradiction|]. cbn [is_nil].
  destruct (mapM Transaction_of (d :: data')) as [rows'|]; rewrite bind_run;
    (destruct (flush_returning _ _ s) as [[[]|e0] s1] eqn:Ef; [|discriminate]);
    apply flush_returning_Returned in Ef as (Ha & Hr & _ & ->).
  - intros [= <- <-]. destruct (TransactionRepository.insert_ok (view s) rows'); [|discriminate].
    simpl. auto 10.
  - discriminate.
Qed.

End Repositories.

Lemma update_status_run (batch_id : UUID) (st : ImportStatus) (p e : option Z)
    (d : option ErrorDetails) (s s' : Session) r :
  ImportBatchRepository.update_status batch_id st p e d s = (r, s') ->
  match r with
  | Returned b =>
      snapshot s' = snapshot s /\ transactions (view s') = transactions (view s)
      /\ customers (view s') = customers (view s) /\ products (view s') = products (view s)
      /\ active s = true /\ active s' = true
      /\ status_log s' = status_log s ++ match b with Some _ => [(batch_id, st)] | None => [] end
  | Raised _ => active s = false /\ s' = s
  end.
Proof.
  unfold ImportBatchRepository.update_status, flush, flush_returning, log_status, execute.
  rewrite bind_run. destruct (active s) eqn:Ha.
  - destruct (import_batches (view s) !! batch_id) as [b|].
    + rewrite !bind_run. simpl. rewrite Ha. simpl. intros [= <- <-]. simpl. auto 10.
    + intros [= <- <-]. rewrite app_nil_r. auto 10.
  - intros [= <- <-]. auto.
Qed.

Lemma create_batch_run (filename : string) (s s' : Session) r :
  ImportBatchRepository.create filename s = (r, s') ->
  match r with
  | Returned b =>
      snapshot s' = snapshot s /\ transactions (view s') = transactions (view s)
      /\ customers (view s') = customers (view s) /\ products (view s') = products (view s)
      /\ active s = true /\ active s' = true
      /\ status_log s' = status_log s ++ [(ImportBatch.batch_id b, pending)]
  | Raised _ => aborted s s'
  end.
Proof.
  unfold ImportBatchRepository.create, log_status. rewrite bind_run.
  destruct (flush_returning _ _ s) as [[b|e] s1] eqn:Ef.
  - apply flush_returning_Returned in Ef as (Ha & _ & -> & ->).
    rewrite !bind_run. simpl. intros [= <- <-]. simpl. auto 10.
  - intros [= <- <-]. apply flush_returning_Raised in Ef. exact Ef.
Qed.

Lemma update_status_active (batch_id : UUID) (st : ImportStatus) (p e : option Z)
    (d : option ErrorDetails) (s : Session) :
  active s = true ->
  exists b s', ImportBatchRepository.update_status batch_id st p e d s = (Returned b, s').
Proof.
  intros Ha.
  destruct (ImportBatchRepository.update_status batch_id st p e d s) as [[b|x] s'] eqn:E;
    [eauto|]. apply update_status_run in E as [E _]. congruence.
Qed.

Lemma create_batch_active (filename : string) (s : Session) :
  active s = true -> Z.of_nat (String.length filename) <= 255 ->
  exists b s', ImportBatchRepository.create filename s = (Returned b, s').
Proof.
  intros Ha Hlen. unfold ImportBatchRepository.create. rewrite bind_run.
  rewrite flush_returning_accepted; [|assumption|].
  - rewrite !bind_run. simpl. eauto.
  - destruct (255 <? _) eqn:E; [apply Z.ltb_lt in E; lia|reflexivity].
Qed.

(** ** Header validation *)

Section Headers.
Context {parsers : FieldParsers} {writers : ConcurrentWriters}.

Lemma parse_csv_header_error (file : FileContent) (fieldnames : list string)
    (body : list (list string)) (s : Session) :
  records_read file = fieldnames :: body ->
  (exists h, h ∈ required_headers /\ h ∉ fieldnames) ->
  _parse_csv file s = (Returned ([], [header_error (header_message fieldnames)], 0), s).
Proof.
  intros Hrec (x & Hx & Hnot).
  assert (Hmissing : fieldnames <> [] ->
            negb (is_nil (List.filter (fun h => negb (bool_decide (h ∈ fieldnames)))
                            required_headers)) = true).
  { intros _.
    destruct (List.filter (fun h => negb (bool_decide (h ∈ fieldnames))) required_headers)
      as [|m ms] eqn:Ef; [|reflexivity].
    exfalso. apply list_elem_of_In in Hx.
    assert (Hin : In x (List.filter (fun h => negb (bool_decide (h ∈ fieldnames)))
                          required_headers)).
    { apply filter_In. split; [exact Hx|]. rewrite bool_decide_eq_false_2 by exact Hnot.
      reflexivity. }
    rewrite Ef in Hin. destruct Hin. }
  destruct file as [|records|records rest msg]; simpl in Hrec; [discriminate| |];
    subst records; unfold _parse_csv, header_message;
    (destruct fieldnames as [|h fieldnames]; [reflexivity|]);
    rewrite Hmissing by discriminate; reflexivity.
Qed.

(** C3, as amended: a file that is empty, or whose first line the reader
    reads and which lacks a required header, yields exactly one error,
    with row number 0, and no processed row, whatever the data rows are
    and whether or not the reader can read them: the parser returns before
    it asks for them, the session is untouched, and the import answers
    with zero processed rows and that single error.  A text whose first
    line the reader cannot read yields no such error: the parser raises
    the error of the reader, and the import raises. *)
Theorem missing_headers_single_error (file : FileContent) :
  (header_readable file -> lacks_headers (records_read file) ->
   exists err,
     row_number err = 0 /\ field err = None
     /\ (forall s, _parse_csv file s = (Returned ([], [err], 0), s))
     /\ (forall fieldnames body file' s,
           records_read file = fieldnames :: body ->
           (exists body', records_read file' = fieldnames :: body') ->
           _parse_csv file' s = (Returned ([], [err], 0), s))
     /\ (forall self filename s,
           active s = true -> Z.of_nat (String.length filename) <= 255 ->
           exists resp s',
             import_csv self file filename s = (Returned resp, s')
             /\ processed_count resp = 0 /\ error_count resp = 1
             /\ errors resp = [error_entry err]
             /\ error_entry err !! "row" = Some "0"
             /\ transactions (view s') = transactions (view s)
             /\ customers (view s') = customers (view s)
             /\ products (view s') = products (view s)))
  /\ (forall rest msg, file = unreadable_text [] rest msg ->
        (forall s, _parse_csv file s = (Raised (CsvError msg), s))
        /\ (forall self filename s,
              exists e s',
                import_csv self file filename s = (Raised e, s')
                /\ (active s = true -> Z.of_nat (String.length filename) <= 255 ->
                    e = CsvError msg /\ transactions (view s') = transactions (view s)))).
Proof.
  split.
  { intros Hr Hl.
    assert (exists msg,
              (forall s, _parse_csv file s = (Returned ([], [header_error msg], 0), s))
              /\ (forall fieldnames body file' s,
                    records_read file = fieldnames :: body ->
                    (exists body', records_read file' = fieldnames :: body') ->
                    _parse_csv file' s = (Returned ([], [header_error msg], 0), s)))
      as (msg & Hp' & Hq).
    { destruct (records_read file) as [|fieldnames body] eqn:Hrec.
      - exists "Empty CSV file". split; [|discriminate].
        destruct file as [|records|records rest msg]; simpl in Hrec, Hr;
          [destruct Hr|subst records; reflexivity|contradiction].
      - exists (header_message fieldnames). simpl in Hl. split.
        + intros s. eapply parse_csv_header_error; eauto.
        + intros ? ? file' s [= <- <-] [body' Hrec'].
          eapply parse_csv_header_error; eauto. }
    exists (header_error msg). split; [reflexivity|]. split; [reflexivity|].
    split; [exact Hp'|]. split; [exact Hq|]. clear Hq.
    intros self filename s Ha Hlen. unfold import_csv.
    destruct (import_batch_repo self).
    - destruct (create_batch_active filename s Ha Hlen) as (b & s1 & Ec).
      rewrite bind_run, bind_run, Ec. mrun.
      apply create_batch_run in Ec as (_ & Ht1 & Hc1 & Hp1 & _ & Ha1 & _).
      unfold try_except. rewrite bind_run, Hp'. mrun.
      destruct (ImportBatchRepository.update_status _ processing _ _ _ s1) as [[b2|x] s2] eqn:Eu;
        apply update_status_run in Eu; [|destruct Eu; congruence].
      destruct Eu as (_ & Ht2 & Hc2 & Hp2 & _ & Ha2 & _).
      mrun. cbn [is_nil negb]. mrun.
      destruct (ImportBatchRepository.update_status _ completed _ _ _ s2) as [[b3|x] s3] eqn:Eu3;
        apply update_status_run in Eu3; [|destruct Eu3; congruence].
      destruct Eu3 as (_ & Ht3 & Hc3 & Hp3 & _ & _ & _).
      mrun.
      eexists _, s3. split; [reflexivity|]. cbn.
      repeat split; try reflexivity; congruence.
    - mrun. unfold try_except. rewrite bind_run, Hp'. mrun.
      eexists _, s. split; [reflexivity|]. cbn. repeat split; reflexivity. }
  intros rest msg ->.
  assert (Hp : forall s, _parse_csv (unreadable_text [] rest msg) s
                         = (Raised (CsvError msg), s)) by reflexivity.
  split; [exact Hp|].
  intros self filename s. unfold import_csv.
  destruct (import_batch_repo self).
  - rewrite bind_run, bind_run.
    destruct (ImportBatchRepository.create filename s) as [[b|e0] s1] eqn:Ec.
    + mrun. unfold try_except. rewrite bind_run, Hp. mrun.
      apply create_batch_run in Ec as (_ & Ht1 & _ & _ & _ & Ha1 & _).
      destruct (ImportBatchRepository.update_status _ failed _ _ _ s1) as [[b2|x] s2] eqn:Eu;
        apply update_status_run in Eu.
      * mrun. eexists _, s2. split; [reflexivity|]. intros _ _.
        split; [reflexivity|]. destruct Eu as (_ & Ht2 & _). congruence.
      * mrun. eexists _, s2. split; [reflexivity|]. intros Ha _.
        destruct Eu as [Hin _]. congruence.
    + mrun. eexists _, s1. split; [reflexivity|]. intros Ha Hlen.
      destruct (create_batch_active filename s Ha Hlen) as (b' & s' & Ec'). congruence.
  - mrun. unfold try_except. rewrite bind_run, Hp. mrun.
    eexists _, s. split; [reflexivity|]. intros _ _. split; reflexivity.
Qed.

End Headers.

(** ** Decimal arithmetic *)

Lemma dec_num_of_num (n e : Z) : dec_num (dec_of_num n e) = n.
Proof.
  unfold dec_num, dec_of_num. simpl. destruct (n <? 0) eqn:E.
  - apply Z.ltb_lt in E. rewrite Z2N.id by lia. lia.
  - apply Z.ltb_ge in E. rewrite Z2N.id by lia. lia.
Qed.

Lemma dec_num_mul (a b : Decimal) : dec_num (dec_mul a b) = dec_num a * dec_num b.
Proof.
  unfold dec_num, dec_mul. simpl. rewrite N2Z.inj_mul.
  destruct (dec_sign a), (dec_sign b); simpl; lia.
Qed.

Lemma revenue_num (r : Transaction.t) :
  dec_num (revenue r) = Transaction.amount r * rate_tenths (Transaction.currency r)
  /\ dec_exp (revenue r) = -3.
Proof.
  unfold revenue. rewrite dec_num_mul. unfold amount_dec. rewrite dec_num_of_num.
  destruct (Transaction.currency r); simpl; auto.
Qed.

Lemma dec_add_same_exp (a b : Decimal) (e : Z) :
  dec_exp a = e -> dec_exp b = e ->
  dec_num (dec_add a b) = dec_num a + dec_num b /\ dec_exp (dec_add a b) = e.
Proof.
  intros Ha Hb. unfold dec_add. rewrite Ha, Hb, Z.min_id, Z.sub_diag.
  rewrite dec_num_of_num. simpl. split; [lia|reflexivity].
Qed.

Lemma fold_dec_add (rows : list Transaction.t) (x : Decimal) :
  dec_exp x = -3 ->
  dec_num (fold_left dec_add (revenue <$> rows) x) = dec_num x + total_thousandths rows
  /\ dec_exp (fold_left dec_add (revenue <$> rows) x) = -3.
Proof.
  revert x. induction rows as [|r rows IH]; intros x Hx.
  - simpl. split; [lia|exact Hx].
  - rewrite fmap_cons. cbn [fold_left]. unfold total_thousandths. cbn [fold_right].
    fold (total_thousandths rows).
    destruct (revenue_num r) as [Hn He].
    destruct (dec_add_same_exp x (revenue r) (-3) Hx He) as [Hn' He'].
    destruct (IH _ He') as [IHn IHe]. rewrite IHn, Hn', Hn. split; [lia|exact IHe].
Qed.

Lemma sql_sum_revenue (rows : list Transaction.t) :
  rows <> [] ->
  exists d, sql_sum (revenue <$> rows) = Some d
    /\ dec_num d = total_thousandths rows /\ dec_exp d = -3.
Proof.
  destruct rows as [|r rows]; [contradiction|]. intros _. rewrite fmap_cons. cbn [sql_sum].
  eexists. split; [reflexivity|].
  unfold total_thousandths. cbn [fold_right]. fold (total_thousandths rows).
  destruct (revenue_num r) as [Hn He].
  destruct (fold_dec_add rows (revenue r) He) as [Hn' He']. rewrite Hn', Hn. split; [lia|exact He'].
Qed.

Lemma half_up_div (c : Z) :
  0 <= c -> (if 10 <=? 2 * (c mod 10) then c / 10 + 1 else c / 10) = (c + 5) / 10.
Proof.
  intros Hc. pose proof (Z.div_mod c 10 ltac:(lia)) as Hdm.
  pose proof (Z.mod_pos_bound c 10 ltac:(lia)) as Hm.
  destruct (10 <=? 2 * (c mod 10)) eqn:E.
  - apply Z.leb_le in E. apply Z.div_unique with (r := c mod 10 - 5); lia.
  - apply Z.leb_gt in E. apply Z.div_unique with (r := c mod 10 + 5); lia.
Qed.

(** The total as the summary formats it: the thousandths are rounded to
    hundredths, half up on the magnitude, the sign is kept. *)
Lemma formatted_total (rows : list Transaction.t) (m : Z) :
  m = total_thousandths rows ->
  dec_exp (quantize_half_up_2 (total_or_0 (sql_sum (revenue <$> rows)))) = -2
  /\ dec_num (quantize_half_up_2 (total_or_0 (sql_sum (revenue <$> rows))))
     = (if m <? 0 then - ((Z.abs m + 5) / 10) else (Z.abs m + 5) / 10).
Proof.
  intros Hm.
  destruct (decide (rows = [])) as [->|Hne].
  - subst m. simpl. split; reflexivity.
  - destruct (sql_sum_revenue rows Hne) as (d & -> & Hn & He).
    rewrite <- Hm in Hn. clear Hm. unfold total_or_0, dec_is_zero.
    destruct (dec_coeff d =? 0)%N eqn:Ez.
    + apply N.eqb_eq in Ez.
      assert (m = 0) as ->.
      { unfold dec_num in Hn. rewrite Ez in Hn. destruct (dec_sign d); simpl in Hn; lia. }
      split; reflexivity.
    + apply N.eqb_neq in Ez. unfold quantize_half_up_2. rewrite He. simpl Z.leb. cbv iota.
      split; [reflexivity|]. unfold dec_num at 1. simpl dec_sign. simpl dec_coeff.
      change (-2 - -3) with 1. change (10 ^ 1) with 10.
      rewrite half_up_div by lia.
      assert (Hc : Z.of_N (dec_coeff d) = Z.abs m).
      { unfold dec_num in Hn. destruct (dec_sign d); lia. }
      rewrite Hc. rewrite Z2N.id by (apply Z.div_pos; lia).
      assert (Hs : dec_sign d = (m <? 0)).
      { unfold dec_num in Hn. destruct (dec_sign d); symmetry; [apply Z.ltb_lt|apply Z.ltb_ge]; lia. }
      rewrite Hs. reflexivity.
Qed.

(** ** Rounding over the rationals *)

Lemma converted_total_thousandths (rows : list Transaction.t) :
  (converted_total rows == total_thousandths rows # 1000)%Q.
Proof.
  induction rows as [|r rows IH]; [reflexivity|].
  unfold converted_total, total_thousandths. cbn [fold_right].
  fold (converted_total rows). fold (total_thousandths rows). rewrite IH.
  unfold amount_value. generalize (total_thousandths rows) as t, (Transaction.amount r) as a.
  intros t a. destruct (Transaction.currency r); unfold base_rate, rate_tenths, Qeq; simpl; lia.
Qed.

Lemma round_half_up_2dp_comp (x y : Q) :
  (x == y)%Q -> (round_half_up_2dp x == round_half_up_2dp y)%Q.
Proof.
  intros E. unfold round_half_up_2dp.
  assert (Hf : Qfloor (Qabs x * 100 + (1 # 2)) = Qfloor (Qabs y * 100 + (1 # 2))).
  { apply Qfloor_comp. rewrite E. reflexivity. }
  assert (Hb : Qle_bool 0 x = Qle_bool 0 y) by (rewrite E; reflexivity).
  rewrite Hf, Hb. reflexivity.
Qed.

Lemma round_half_up_thousandths (m : Z) :
  (round_half_up_2dp (m # 1000)
   == (if m <? 0 then - ((Z.abs m + 5) / 10) else (Z.abs m + 5) / 10) # 100)%Q.
Proof.
  unfold round_half_up_2dp.
  assert (Hfl : Qfloor (Qabs (m # 1000) * 100 + (1 # 2)) = (Z.abs m + 5) / 10).
  { rewrite (Qfloor_comp _ ((Z.abs m + 5) # 10)); [reflexivity|].
    unfold Qabs, Qeq. simpl. lia. }
  rewrite Hfl.
  destruct (Qle_bool 0 (m # 1000)) eqn:E.
  - apply Qle_bool_iff in E. unfold Qle in E. simpl in E.
    destruct (m <? 0) eqn:E2; [apply Z.ltb_lt in E2; lia|reflexivity].
  - destruct (m <? 0) eqn:E2; [reflexivity|]. apply Z.ltb_ge in E2.
    assert (Qle_bool 0 (m # 1000) = true) by (apply Qle_bool_iff; unfold Qle; simpl; lia).
    congruence.
Qed.

Lemma dec_value_hundredths (d : Decimal) :
  dec_exp d = -2 -> (dec_value d == dec_num d # 100)%Q.
Proof.
  intros He. unfold dec_value. rewrite He. unfold Qeq. simpl. lia.
Qed.

(** ** Reports *)

Lemma in_window_within (start_date end_date : option datetime) (ts : datetime) :
  in_window start_date end_date ts = true <-> within start_date end_date ts.
Proof.
  unfold in_window, within. rewrite andb_true_iff.
  destruct start_date as [a|], end_date as [b|]; rewrite ?Z.leb_le;
    split; intros [H1 H2]; split; intros; simplify_eq; auto; try lia.
Qed.

Lemma customer_rows_unfiltered (db : DB) (c : UUID) :
  TransactionRepository.customer_rows db c None None = rows_of_customer db c.
Proof.
  unfold TransactionRepository.customer_rows, rows_of_customer, in_window.
  apply filter_ext. intros r. apply andb_true_r.
Qed.

Lemma filter_none {A} (f : A -> bool) (l : list A) :
  (forall x, x ∈ l -> f x = false) -> List.filter f l = [].
Proof.
  induction l as [|x l IH]; intros Hf; [reflexivity|]. simpl.
  rewrite Hf by constructor. apply IH. intros y Hy. apply Hf. constructor. exact Hy.
Qed.

Lemma customer_summary_run (cid : UUID) (start_date end_date : option datetime) (s : Session) :
  active s = true ->
  ReportService.get_customer_summary cid start_date end_date s
  = (Returned
       (if bool_decide (cid ∈ customers (view s))
        then
          let rows := TransactionRepository.customer_rows (view s) cid start_date end_date in
          Some (CustomerSummaryResponse.mk cid
                  (quantize_half_up_2 (total_or_0 (sql_sum (revenue <$> rows))))
                  (count_distinct (Transaction.product_id <$> rows))
                  (sql_max (Transaction.timestamp <$> rows)))
        else None), s).
Proof.
  intros Ha. unfold ReportService.get_customer_summary, CustomerRepository.exists_,
    TransactionRepository.get_customer_summary.
  mrun. rewrite execute_active by assumption.
  destruct (bool_decide _); cbn [negb]; mrun; [|reflexivity].
  rewrite execute_active by assumption. mrun. reflexivity.
Qed.

Lemma product_summary_run (pid : UUID) (start_date end_date : option datetime) (s : Session) :
  active s = true ->
  ReportService.get_product_summary pid start_date end_date s
  = (Returned
       (if bool_decide (pid ∈ products (view s))
        then
          let rows := TransactionRepository.product_rows (view s) pid start_date end_date in
          Some (ProductSummaryResponse.mk pid
                  (default 0 (sql_sum_int (Transaction.quantity <$> rows)))
                  (quantize_half_up_2 (total_or_0 (sql_sum (revenue <$> rows))))
                  (count_distinct (Transaction.customer_id <$> rows)))
        else None), s).
Proof.
  intros Ha. unfold ReportService.get_product_summary, ProductRepository.exists_,
    TransactionRepository.get_product_summary.
  mrun. rewrite execute_active by assumption.
  destruct (bool_decide _); cbn [negb]; mrun; [|reflexivity].
  rewrite execute_active by assumption. mrun. reflexivity.
Qed.

(** C2: for a customer that exists, the summary without a date filter
    reports the sum of amount times rate (PLN 1.0, EUR 4.3, USD 4.0) over
    the customer's transactions, rounded half up to two decimal places. *)
Theorem customer_total_in_base_currency (s : Session) (cid : UUID) :
  active s = true ->
  cid ∈ customers (view s) ->
  exists r,
    ReportService.get_customer_summary cid None None s = (Returned (Some r), s)
    /\ dec_exp (CustomerSummaryResponse.total_amount_pln r) = -2
    /\ (dec_value (CustomerSummaryResponse.total_amount_pln r)
        == round_half_up_2dp (converted_total (rows_of_customer (view s) cid)))%Q.
Proof.
  intros Ha Hc. rewrite customer_summary_run by assumption.
  rewrite bool_decide_eq_true_2 by assumption. cbv zeta.
  eexists. split; [reflexivity|]. cbn [CustomerSummaryResponse.total_amount_pln].
  rewrite customer_rows_unfiltered.
  destruct (formatted_total (rows_of_customer (view s) cid) _ eq_refl) as [He Hn].
  split; [exact He|].
  rewrite dec_value_hundredths by exact He. rewrite Hn.
  rewrite (round_half_up_2dp_comp _ _ (converted_total_thousandths _)).
  rewrite round_half_up_thousandths. reflexivity.
Qed.

(** C5: a summary is "not found" exactly when the customer (the product)
    has no entity row; for an existing entity with no transaction in the
    requested window the totals and the unique count are zero, and the
    customer has no last transaction date. *)
Theorem summary_not_found_or_zero (s : Session) (start_date end_date : option datetime) :
  active s = true ->
  (forall cid, exists r,
     ReportService.get_customer_summary cid start_date end_date s = (Returned r, s)
     /\ (r = None <-> cid ∉ customers (view s))
     /\ (cid ∈ customers (view s) ->
         (forall t, t ∈ transactions (view s) -> Transaction.customer_id t = cid ->
                    ~ within start_date end_date (Transaction.timestamp t)) ->
         r = Some (CustomerSummaryResponse.mk cid (mkDecimal false 0 (-2)) 0 None)))
  /\ (forall pid, exists r,
     ReportService.get_product_summary pid start_date end_date s = (Returned r, s)
     /\ (r = None <-> pid ∉ products (view s))
     /\ (pid ∈ products (view s) ->
         (forall t, t ∈ transactions (view s) -> Transaction.product_id t = pid ->
                    ~ within start_date end_date (Transaction.timestamp t)) ->
         r = Some (ProductSummaryResponse.mk pid 0 (mkDecimal false 0 (-2)) 0))).
Proof.
  intros Ha. split.
  - intros cid. rewrite customer_summary_run by assumption. eexists. split; [reflexivity|].
    destruct (bool_decide (cid ∈ customers (view s))) eqn:E.
    + apply bool_decide_eq_true in E. split; [split; [discriminate|contradiction]|].
      intros _ Hnone. cbv zeta.
      unfold TransactionRepository.customer_rows, TransactionRepository.product_rows.
      rewrite (filter_none _ (transactions (view s))); [reflexivity|].
      intros t Ht. destruct (bool_decide _) eqn:Ec; [|reflexivity].
      apply bool_decide_eq_true in Ec. simpl.
      destruct (in_window _ _ _) eqn:Ew; [|reflexivity].
      apply in_window_within in Ew. destruct (Hnone t Ht Ec Ew).
    + apply bool_decide_eq_false in E. split; [split; auto|]. intros Hin. contradiction.
  - intros pid. rewrite product_summary_run by assumption. eexists. split; [reflexivity|].
    destruct (bool_decide (pid ∈ products (view s))) eqn:E.
    + apply bool_decide_eq_true in E. split; [split; [discriminate|contradiction]|].
      intros _ Hnone. cbv zeta.
      unfold TransactionRepository.customer_rows, TransactionRepository.product_rows.
      rewrite (filter_none _ (transactions (view s))); [reflexivity|].
      intros t Ht. destruct (bool_decide _) eqn:Ec; [|reflexivity].
      apply bool_decide_eq_true in Ec. simpl.
      destruct (in_window _ _ _) eqn:Ew; [|reflexivity].
      apply in_window_within in Ew. destruct (Hnone t Ht Ec Ew).
    + apply bool_decide_eq_false in E. split; [split; auto|]. intros Hin. contradiction.
Qed.

(** ** The import, step by step *)

Section ImportSteps.
Context {parsers : FieldParsers} {writers : ConcurrentWriters}.

Lemma process_transactions_run (data : list TransactionCreate) (s s' : Session) r :
  data <> [] ->
  _process_transactions data s = (r, s') ->
  match r with
  | Returned _ =>
      exists rows, mapM Transaction_of data = Some rows
        /\ NoDup (Transaction.transaction_id <$> rows)
        /\ transactions (view s') = transactions (view s) ++ rows
        /\ snapshot s' = snapshot s /\ status_log s' = status_log s
        /\ active s = true /\ active s' = true
  | Raised _ =>
      active s' = false /\ status_log s' = status_log s /\ snapshot s' = snapshot s
      /\ (active s = true -> view s' = snapshot s)
  end.
Proof.
  intros Hne. unfold _process_transactions. mrun.
  destruct (CustomerRepository.get_or_create_bulk _ s) as [[c|e] s1] eqn:Ec;
    apply customers_bulk_run in Ec.
  2:{ intros [= <- <-]. split; [eapply aborted_inactive; eassumption|].
      split; [eapply aborted_log; eassumption|].
      split; [eapply aborted_snapshot; eassumption|]. apply aborted_view. exact Ec. }
  mrun. destruct (ProductRepository.get_or_create_bulk _ s1) as [[p|e] s2] eqn:Ep;
    apply products_bulk_run in Ep.
  2:{ intros [= <- <-]. destruct Ec as (Hs1 & _ & Hl1 & Ha & Ha1).
      split; [eapply aborted_inactive; eassumption|].
      split; [rewrite (aborted_log _ _ Ep); exact Hl1|].
      split; [rewrite (aborted_snapshot _ _ Ep); exact Hs1|].
      intros _. rewrite (aborted_view _ _ Ep Ha1). exact Hs1. }
  pose proof (steady_trans _ _ _ Ec Ep) as (Hs2 & Ht2 & Hl2 & Ha & Ha2).
  mrun. destruct (TransactionRepository.create_bulk data s2) as [[rows|e] s3] eqn:Eb.
  - mrun. intros [= <- <-]. apply create_bulk_Returned in Eb as (Hm & Hok & Ht & Hs & Hl & _ & Ha3);
      [|exact Hne].
    exists rows. rewrite Ht, Ht2, Hs, Hs2, Hl, Hl2.
    split; [exact Hm|]. split; [|auto 10].
    unfold TransactionRepository.insert_ok in Hok. apply andb_true_iff in Hok as [Hnd _].
    apply bool_decide_eq_true in Hnd. exact Hnd.
  - intros [= <- <-]. apply create_bulk_Raised in Eb.
    split; [eapply aborted_inactive; eassumption|].
    split; [rewrite (aborted_log _ _ Eb); exact Hl2|].
    split; [rewrite (aborted_snapshot _ _ Eb); exact Hs2|].
    intros _. rewrite (aborted_view _ _ Eb Ha2). exact Hs2.
Qed.

(** The [except] block always ends in an exception; on an inactive
    session it cannot even record the failure. *)
Lemma import_failed_run (batch : option ImportBatch.t) (e : exn) (s s' : Session) r :
  import_failed batch e s = (r, s') ->
  (exists e', r = Raised e')
  /\ snapshot s' = snapshot s /\ transactions (view s') = transactions (view s)
  /\ active s' = active s
  /\ (active s = false -> s' = s)
  /\ (status_log s' = status_log s
      \/ exists b, batch = Some b /\ active s = true
           /\ status_log s' = status_log s ++ [(ImportBatch.batch_id b, failed)]).
Proof.
  unfold import_failed. destruct batch as [b|]; mrun.
  - destruct (ImportBatchRepository.update_status _ _ _ _ _ s) as [[b'|x] s1] eqn:Eu;
      apply update_status_run in Eu.
    + mrun. intros [= <- <-]. destruct Eu as (Hs & Ht & _ & _ & Ha & Ha1 & Hl).
      split; [eauto|]. split; [exact Hs|]. split; [exact Ht|]. split; [congruence|].
      split; [congruence|]. destruct b'; [right; eauto|left; rewrite Hl; apply app_nil_r].
    + intros [= <- <-]. destruct Eu as [Ha ->]. split; [eauto|]. auto 10.
  - intros [= <- <-]. split; [eauto|]. auto 10.
Qed.

Lemma try_import_failed_Raised (m : M FileUploadResponse) (batch : option ImportBatch.t)
    (s s1 : Session) (e : exn) :
  m s = (Raised e, s1) ->
  exists e' s', try_except m (import_failed batch) s = (Raised e', s')
    /\ import_failed batch e s1 = (Raised e', s').
Proof.
  intros Em. rewrite (try_Raised _ _ _ _ _ Em).
  destruct (import_failed batch e s1) as [r s'] eqn:Ef.
  destruct (import_failed_run _ _ _ _ _ Ef) as ([e' ->] & _). eauto.
Qed.

(** Facts about the prefix of the import. *)
Lemma until_process_run (self : ImportService) (file : FileContent) (filename : string)
    (s s1 : Session) batch valid errs :
  until_process self file filename s = (Returned (batch, valid, errs), s1) ->
  snapshot s1 = snapshot s
  /\ transactions (view s1) = transactions (view s)
  /\ customers (view s1) = customers (view s)
  /\ products (view s1) = products (view s)
  /\ active s1 = active s
  /\ (forall t, t ∈ valid -> active s = true /\ transaction_id t ∉ stored_ids (view s)).
Proof.
  unfold until_process. mrun.
  assert (Hparse : forall s0 v e n s0', _parse_csv file s0 = (Returned (v, e, n), s0') ->
            s0' = s0 /\ forall t, t ∈ v -> active s0 = true /\ transaction_id t ∉ stored_ids (view s0)).
  { intros s0 v e n s0' Ep.
    pose proof (read_only_run _ _ _ _ (read_only_parse_csv file) Ep) as ->. split; [reflexivity|].
    apply parse_csv_Returned_text in Ep as [records Ep]. unfold _parse_csv in Ep.
    destruct records as [|[|h fieldnames] body];
      try (injection Ep as <- _ _; intros t Ht; inversion Ht).
    destruct (negb _); [injection Ep as <- _ _; intros t Ht; inversion Ht|].
    apply parse_rows_returned in Ep as (rs & Hrs & Hlen & -> & _ & _).
    intros t Ht. rewrite app_nil_l in Ht. apply elem_of_accepted in Ht.
    apply list_elem_of_lookup in Ht as [i Hi].
    assert (Hlt : (i < length (DictReader_rows (h :: fieldnames) body))%nat).
    { rewrite <- Hlen. eapply lookup_lt_Some. exact Hi. }
    apply lookup_lt_is_Some in Hlt as [row Hrow].
    destruct (Hrs i row Hrow) as (r & Hr & Hp). rewrite Hi in Hr. injection Hr as <-.
    apply parse_row_inr in Hp as (Ha & _ & Hid). auto. }
  destruct (import_batch_repo self).
  - mrun. destruct (ImportBatchRepository.create filename s) as [[b|e] s0] eqn:Ec; [|discriminate].
    apply create_batch_run in Ec as (Hs0 & Ht0 & Hc0 & Hp0 & Ha & Ha0 & _). mrun.
    destruct (_parse_csv file s0) as [[[[v e] n]|e] s0'] eqn:Ep; [|discriminate].
    apply Hparse in Ep as [-> Hv]. mrun.
    destruct (ImportBatchRepository.update_status _ _ _ _ _ s0) as [[b'|x] s2] eqn:Eu;
      [|discriminate].
    apply update_status_run in Eu as (Hs2 & Ht2 & Hc2 & Hp2 & _ & Ha2 & _). mrun.
    intros [= <- <- <- <-].
    do 5 (split; [congruence|]).
    intros t Ht. apply Hv in Ht as [_ Hid]. split; [exact Ha|].
    unfold stored_ids in *. congruence.
  - mrun. destruct (_parse_csv file s) as [[[[v e] n]|e] s0'] eqn:Ep; [|discriminate].
    apply Hparse in Ep as [-> Hv]. mrun. intros [= <- <- <- <-].
    do 5 (split; [reflexivity|]). exact Hv.
Qed.

(** After its prefix, the import is its [try] block run from where the
    prefix ended. *)
Lemma import_csv_from_process (self : ImportService) (file : FileContent) (filename : string)
    (s s1 : Session) batch valid errs :
  until_process self file filename s = (Returned (batch, valid, errs), s1) ->
  import_csv self file filename s
  = try_except (import_rest batch valid errs) (import_failed batch) s1.
Proof.
  unfold until_process, import_csv, import_rest, import_failed, try_except. mrun.
  destruct (import_batch_repo self).
  - mrun. destruct (ImportBatchRepository.create filename s) as [[b|e] s0]; [|discriminate].
    mrun. destruct (_parse_csv file s0) as [[[[v e] n]|e] s0']; [|discriminate]. mrun.
    destruct (ImportBatchRepository.update_status _ _ _ _ _ s0') as [[b'|x] s2];
      [|discriminate].
    mrun. intros [= <- <- <- <-]. reflexivity.
  - mrun. destruct (_parse_csv file s) as [[[[v e] n]|e] s0']; [|discriminate]. mrun.
    intros [= <- <- <- <-]. reflexivity.
Qed.

(** When processing the surviving rows raises, so does the import, and
    the session ends rolled back. *)
Lemma import_csv_process_Raised (self : ImportService) (file : FileContent) (filename : string)
    (s s1 s2 : Session) batch valid errs (e : exn) :
  until_process self file filename s = (Returned (batch, valid, errs), s1) ->
  valid <> [] ->
  _process_transactions valid s1 = (Raised e, s2) ->
  exists e',
    import_csv self file filename s = (Raised e', s2)
    /\ active s2 = false
    /\ (active s1 = true -> view s2 = snapshot s).
Proof.
  intros Eu Hne Hproc.
  pose proof (until_process_run _ _ _ _ _ _ _ _ Eu) as (Hsu & _).
  pose proof (process_transactions_run _ _ _ _ Hne Hproc) as (Hin & _ & Hs2 & Hv2).
  assert (Hrest : import_rest batch valid errs s1 = (Raised e, s2)).
  { unfold import_rest. destruct valid; [contradiction|]. cbn [is_nil negb].
    rewrite (bind_Raised _ _ _ _ _ Hproc). reflexivity. }
  rewrite (import_csv_from_process _ _ _ _ _ _ _ _ Eu).
  destruct (try_import_failed_Raised _ batch _ _ _ Hrest) as (e' & s' & -> & Hf).
  destruct (import_failed_run _ _ _ _ _ Hf) as (_ & _ & _ & _ & Hsame & _).
  rewrite (Hsame Hin). exists e'. split; [reflexivity|]. split; [exact Hin|].
  intros Ha1. rewrite (Hv2 Ha1). exact Hsu.
Qed.

(** When the prefix of the import raises, so does the import; no
    transaction has been written. *)
Lemma import_csv_prefix_Raised (self : ImportService) (file : FileContent) (filename : string)
    (s s1 : Session) (e : exn) :
  until_process self file filename s = (Raised e, s1) ->
  exists e' s',
    import_csv self file filename s = (Raised e', s')
    /\ (transactions (view s') = transactions (view s) \/ view s' = snapshot s).
Proof.
  unfold until_process, import_csv. mrun.
  assert (Htry : forall (m : M FileUploadResponse) batch s0 x s0',
            m s0 = (Raised x, s0') ->
            exists e' s', try_except m (import_failed batch) s0 = (Raised e', s')
              /\ transactions (view s') = transactions (view s0')).
  { intros m batch s0 x s0' Em.
    destruct (try_import_failed_Raised m batch _ _ _ Em) as (e' & s' & Et & Hf).
    exists e', s'. split; [exact Et|].
    destruct (import_failed_run _ _ _ _ _ Hf) as (_ & _ & Ht & _). exact Ht. }
  destruct (import_batch_repo self).
  - mrun. destruct (ImportBatchRepository.create filename s) as [[b|x] s0] eqn:Ec.
    2:{ intros _. exists x, s0. split; [reflexivity|].
        apply create_batch_run in Ec as [[_ ->]|[_ ->]]; auto. }
    apply create_batch_run in Ec as (_ & Ht0 & _). mrun.
    destruct (_parse_csv file s0) as [[[[v er] n]|x] s0'] eqn:Ep;
      pose proof (read_only_run _ _ _ _ (read_only_parse_csv file) Ep) as ->.
    + mrun.
      destruct (ImportBatchRepository.update_status _ _ _ _ _ s0) as [[b'|x] s2] eqn:Eu;
        [mrun; discriminate|].
      intros _. pose proof Eu as Eu'. apply update_status_run in Eu' as [_ ->].
      match goal with
      | |- context [try_except ?m _ s0] =>
          destruct (Htry m (Some b) s0 x s0) as (e' & s' & Et & Ht)
      end.
      { mrun. rewrite Ep. mrun. rewrite Eu. reflexivity. }
      exists e', s'. split; [exact Et|]. left. congruence.
    + intros _.
      match goal with
      | |- context [try_except ?m _ s0] =>
          destruct (Htry m (Some b) s0 x s0) as (e' & s' & Et & Ht)
      end.
      { mrun. rewrite Ep. reflexivity. }
      exists e', s'. split; [exact Et|]. left. congruence.
  - mrun. destruct (_parse_csv file s) as [[[[v er] n]|x] s0'] eqn:Ep; [mrun; discriminate|].
    pose proof (read_only_run _ _ _ _ (read_only_parse_csv file) Ep) as ->.
    intros _.
    match goal with
    | |- context [try_except ?m _ s] =>
        destruct (Htry m None s x s) as (e' & s' & Et & Ht)
    end.
    { mrun. rewrite Ep. reflexivity. }
    exists e', s'. split; [exact Et|]. left. exact Ht.
Qed.

End ImportSteps.

Section ImportProperties.
Context {parsers : FieldParsers} {writers : ConcurrentWriters}.

(** C1: when the bulk insert raises, after rows survived validation and
    the duplicate check and their customers and products were resolved,
    the import call raises (it returns no response with row errors), the
    session is rolled back to the state in which the transaction began,
    and no transaction of the batch is in the table. *)
Theorem bulk_insert_failure_persists_nothing (self : ImportService) (file : FileContent)
    (filename : string) (s s1 s2 : Session) batch valid errs (e : exn) :
  until_bulk_insert self file filename s = (Returned (batch, valid, errs), s1) ->
  valid <> [] ->
  TransactionRepository.create_bulk valid s1 = (Raised e, s2) ->
  exists e',
    import_csv self file filename s = (Raised e', s2)
    /\ view s2 = snapshot s
    /\ active s2 = false
    /\ (view s = snapshot s ->
        transactions (view s2) = transactions (view s)
        /\ forall t, t ∈ valid -> transaction_id t ∉ stored_ids (view s2)).
Proof.
  intros Hpre Hne Hbulk. unfold until_bulk_insert in Hpre. revert Hpre. mrun.
  destruct (until_process self file filename s) as [[[[b v] er]|x] su] eqn:Eu; [|discriminate].
  mrun.
  destruct (CustomerRepository.get_or_create_bulk _ su) as [[c|x] sc] eqn:Ec; [|discriminate].
  mrun.
  destruct (ProductRepository.get_or_create_bulk _ sc) as [[p|x] sp] eqn:Ep; [|discriminate].
  mrun. intros [= -> -> -> ->].
  pose proof (until_process_run _ _ _ _ _ _ _ _ Eu) as (Hsu & Htu & _ & _ & _ & Hids).
  pose proof (customers_bulk_run _ _ _ _ Ec) as Hc. pose proof (products_bulk_run _ _ _ _ Ep) as Hp.
  cbv beta iota in Hc, Hp.
  pose proof (steady_trans _ _ _ Hc Hp) as (Hs1 & _ & _ & _ & Ha1).
  pose proof (create_bulk_Raised _ _ _ _ Hbulk) as Hab.
  assert (Hproc : _process_transactions valid su = (Raised e, s2)).
  { unfold _process_transactions. rewrite (bind_Returned _ _ _ _ _ Ec).
    rewrite (bind_Returned _ _ _ _ _ Ep). rewrite (bind_Raised _ _ _ _ _ Hbulk). reflexivity. }
  assert (Hrest : import_rest batch valid errs su = (Raised e, s2)).
  { unfold import_rest. destruct valid; [contradiction|]. cbn [is_nil negb].
    rewrite (bind_Raised _ _ _ _ _ Hproc). reflexivity. }
  rewrite (import_csv_from_process _ _ _ _ _ _ _ _ Eu).
  destruct (try_import_failed_Raised _ batch _ _ _ Hrest) as (e' & s' & -> & Hf).
  pose proof (aborted_inactive _ _ Hab) as Hin.
  destruct (import_failed_run _ _ _ _ _ Hf) as (_ & _ & _ & _ & Hsame & _).
  rewrite (Hsame Hin). exists e'. split; [reflexivity|].
  assert (Hview : view s2 = snapshot s).
  { rewrite (aborted_view _ _ Hab Ha1). congruence. }
  split; [exact Hview|]. split; [exact Hin|].
  intros Hfresh. rewrite Hview, <- Hfresh. split; [reflexivity|].
  intros t Ht. apply (Hids t Ht).
Qed.

(** *** Entity resolution under a concurrent writer *)

Lemma customers_conflict (ids : gset UUID) (c : UUID) (s : Session) :
  active s = true -> c ∈ ids -> c ∉ customers (view s) -> c ∈ racing_customers ->
  CustomerRepository.get_or_create_bulk ids s
  = (Raised (IntegrityError "customers"), rolled_back s).
Proof.
  intros Ha Hc Hnew Hrace. unfold CustomerRepository.get_or_create_bulk, flush. mrun.
  rewrite execute_active by assumption.
  destruct (decide _) as [_|Hempty]; [|exfalso; apply Hempty; set_solver].
  mrun. rewrite (flush_returning_rejected _ _ _ (IntegrityError "customers")); [reflexivity|exact Ha|].
  destruct (decide _) as [Hdisj|_]; [exfalso; set_solver|reflexivity].
Qed.

Lemma products_conflict (ids : gset UUID) (p : UUID) (s : Session) :
  active s = true -> p ∈ ids -> p ∉ products (view s) -> p ∈ racing_products ->
  ProductRepository.get_or_create_bulk ids s
  = (Raised (IntegrityError "products"), rolled_back s).
Proof.
  intros Ha Hc Hnew Hrace. unfold ProductRepository.get_or_create_bulk, flush. mrun.
  rewrite execute_active by assumption.
  destruct (decide _) as [_|Hempty]; [|exfalso; apply Hempty; set_solver].
  mrun. rewrite (flush_returning_rejected _ _ _ (IntegrityError "products")); [reflexivity|exact Ha|].
  destruct (decide _) as [Hdisj|_]; [exfalso; set_solver|reflexivity].
Qed.

Lemma customers_bulk_products (ids : gset UUID) (s s' : Session) (r : gset UUID) :
  CustomerRepository.get_or_create_bulk ids s = (Returned r, s') ->
  products (view s') = products (view s).
Proof.
  unfold CustomerRepository.get_or_create_bulk, flush. mrun.
  unfold execute at 1. destruct (active s) eqn:Ha; [|discriminate].
  destruct (decide _).
  - mrun. destruct (flush_returning _ _ s) as [[[]|e] s1] eqn:Ef; [|discriminate].
    mrun. intros [= <- <-]. apply flush_returning_Returned in Ef as (_ & _ & _ & ->). reflexivity.
  - intros [= <- <-]. reflexivity.
Qed.

Lemma customers_bulk_Raised_active (ids : gset UUID) (s s' : Session) (e : exn) :
  active s = true ->
  CustomerRepository.get_or_create_bulk ids s = (Raised e, s') ->
  e = IntegrityError "customers".
Proof.
  intros Ha. unfold CustomerRepository.get_or_create_bulk, flush. mrun.
  rewrite execute_active by assumption.
  destruct (decide _); [|discriminate]. mrun. unfold flush_returning. rewrite Ha.
  destruct (decide _); [discriminate|]. intros [= <- _]. reflexivity.
Qed.

(** C6, as the code has it: a duplicate-creation conflict during bulk
    entity resolution is not caught.  [get_or_create_bulk] raises the
    storage layer's integrity error and the transaction is rolled back; the
    error leaves [_process_transactions], the import call raises, and the
    session holds nothing but what the transaction began with. *)
Theorem entity_conflict_fails_import (self : ImportService) (file : FileContent)
    (filename : string) (s s1 : Session) batch valid errs :
  until_process self file filename s = (Returned (batch, valid, errs), s1) ->
  (exists c, c ∈ (customer_id <$> valid) /\ (c ∉ customers (view s1)) /\ c ∈ racing_customers)
  \/ (exists p, p ∈ (product_id <$> valid) /\ (p ∉ products (view s1)) /\ p ∈ racing_products) ->
  (exists e s2,
     _process_transactions valid s1 = (Raised e, s2)
     /\ (e = IntegrityError "customers" \/ e = IntegrityError "products"))
  /\ exists e' s',
       import_csv self file filename s = (Raised e', s')
       /\ active s' = false /\ view s' = snapshot s.
Proof.
  intros Eu Hconf.
  pose proof (until_process_run _ _ _ _ _ _ _ _ Eu) as (_ & _ & _ & _ & Ha1 & Hv).
  assert (Hne_a : valid <> [] /\ active s1 = true).
  { destruct Hconf as [(c & Hc & _)|(p & Hp & _)];
      [apply list_elem_of_fmap in Hc as (t & _ & Ht)|apply list_elem_of_fmap in Hp as (t & _ & Ht)];
      (split; [intros ->; inversion Ht|rewrite Ha1; apply (Hv t Ht)]). }
  destruct Hne_a as [Hne Ha].
  assert (Hproc : exists e s2, _process_transactions valid s1 = (Raised e, s2)
            /\ (e = IntegrityError "customers" \/ e = IntegrityError "products")).
  { unfold _process_transactions.
    destruct Hconf as [(c & Hc & Hnew & Hrace)|(p & Hp & Hnew & Hrace)].
    - eexists _, _. rewrite (bind_Raised _ _ _ _ _
        (customers_conflict (list_to_set (customer_id <$> valid)) c s1 Ha
           ltac:(apply elem_of_list_to_set; exact Hc) Hnew Hrace)).
      split; [reflexivity|auto].
    - destruct (CustomerRepository.get_or_create_bulk (list_to_set (customer_id <$> valid)) s1)
        as [[r|x] sc] eqn:Ec.
      + rewrite (bind_Returned _ _ _ _ _ Ec).
        pose proof (customers_bulk_products _ _ _ _ Ec) as Hprod.
        apply customers_bulk_run in Ec as (_ & _ & _ & _ & Hac).
        eexists _, _. rewrite (bind_Raised _ _ _ _ _
          (products_conflict (list_to_set (product_id <$> valid)) p sc Hac
             ltac:(apply elem_of_list_to_set; exact Hp) ltac:(rewrite Hprod; exact Hnew) Hrace)).
        split; [reflexivity|auto].
      + rewrite (customers_bulk_Raised_active _ _ _ _ Ha Ec) in Ec.
        eexists _, _. rewrite (bind_Raised _ _ _ _ _ Ec). split; [reflexivity|auto]. }
  split; [exact Hproc|].
  destruct Hproc as (e & s2 & Hproc & _).
  destruct (import_csv_process_Raised _ _ _ _ _ _ _ _ _ _ Eu Hne Hproc) as (e' & Hi & Hin & Hview).
  exists e', s2. auto.
Qed.

End ImportProperties.

Section DuplicateIdentifiers.
Context {parsers : FieldParsers} {writers : ConcurrentWriters}.

Lemma Transaction_of_id (t : TransactionCreate) (r : Transaction.t) :
  Transaction_of t = Some r -> Transaction.transaction_id r = transaction_id t.
Proof.
  unfold Transaction_of. destruct (to_numeric_10_2 _); [|discriminate].
  destruct (fits_integer _); [|discriminate]. intros [= <-]. reflexivity.
Qed.

Lemma mapM_Transaction_of_ids (data : list TransactionCreate) (rows : list Transaction.t) :
  mapM Transaction_of data = Some rows ->
  Transaction.transaction_id <$> rows = transaction_id <$> data.
Proof.
  intros Hm. apply mapM_Some in Hm.
  induction Hm as [|t r data rows Htr _ IH]; [reflexivity|].
  rewrite !fmap_cons, IH. f_equal. apply Transaction_of_id. exact Htr.
Qed.

(** Two accepted rows with one identifier at different places make the
    identifiers of the surviving rows repeat. *)
Lemma accepted_ids_repeat (rs : list (ValidationError + TransactionCreate)) (i j : nat)
    (a b : TransactionCreate) :
  rs !! i = Some (inr a) -> rs !! j = Some (inr b) -> i <> j ->
  transaction_id a = transaction_id b ->
  ~ NoDup (transaction_id <$> accepted rs).
Proof.
  assert (Hlt : forall i j a b, (i < j)%nat ->
            rs !! i = Some (inr a) -> rs !! j = Some (inr b) ->
            transaction_id a = transaction_id b ->
            ~ NoDup (transaction_id <$> accepted rs)).
  { clear. intros i j a b Hij Hi Hj Hid Hnd.
    rewrite <- (take_drop_middle rs i (inr a) Hi) in Hnd, Hj.
    rewrite lookup_app_r in Hj by (rewrite length_take; lia).
    rewrite length_take in Hj.
    assert (Hi' : (i < length rs)%nat) by (eapply lookup_lt_Some; exact Hi).
    replace (j - i `min` length rs)%nat with (S (j - S i)) in Hj by lia.
    simpl in Hj.
    unfold accepted in Hnd. rewrite omap_app, fmap_app in Hnd.
    apply NoDup_app in Hnd as (_ & _ & Hnd). simpl in Hnd.
    apply NoDup_cons in Hnd as [Hnot _]. apply Hnot.
    apply list_elem_of_fmap. exists b. split; [exact Hid|].
    apply list_elem_of_omap. exists (inr b). split; [|reflexivity].
    eapply list_elem_of_lookup_2. exact Hj. }
  intros Hi Hj Hne Hid.
  destruct (Nat.lt_total i j) as [Hlt'|[->|Hgt]]; [eauto|contradiction|].
  symmetry in Hid. eauto.
Qed.

(** The bulk insert of rows with a repeated identifier never returns; when
    every value fits its column it is the uniqueness of the primary key
    that fails. *)
Lemma create_bulk_repeated_ids (data : list TransactionCreate) (s : Session) :
  ~ NoDup (transaction_id <$> data) ->
  exists e s',
    TransactionRepository.create_bulk data s = (Raised e, s')
    /\ (active s = true -> is_Some (mapM Transaction_of data) ->
        e = IntegrityError "transactions").
Proof.
  intros Hdup.
  destruct (TransactionRepository.create_bulk data s) as [[rows|e] s'] eqn:Eb.
  - exfalso. apply create_bulk_Returned in Eb as (Hm & Hok & _).
    + apply mapM_Transaction_of_ids in Hm.
      unfold TransactionRepository.insert_ok in Hok. apply andb_true_iff in Hok as [Hnd _].
      apply bool_decide_eq_true in Hnd. rewrite Hm in Hnd. exact (Hdup Hnd).
    + intros ->. apply Hdup. constructor.
  - exists e, s'. split; [reflexivity|]. intros Ha [rows Hm]. revert Eb.
    unfold TransactionRepository.create_bulk, flush, flush_returning.
    destruct (is_nil data); [discriminate|]. rewrite Hm. mrun. rewrite Ha.
    destruct (TransactionRepository.insert_ok (view s) rows); [discriminate|].
    intros [= <- _]. reflexivity.
Qed.

(** C10: two rows of one file that validate to the same transaction
    identifier, not yet stored.  Whenever the parser returns, both are
    among the surviving rows and no error carries the row number of either;
    the bulk insert of the surviving rows raises in every session, with the
    integrity error of the primary key when the values fit their columns;
    and the import call as a whole raises, leaving the table of a fresh
    session as it was. *)
Theorem same_id_twice_fails_batch (self : ImportService) (fieldnames : list string)
    (body : list (list string)) (filename : string) (s : Session) (i j : nat)
    (ri rj : RawRow) (ti tj : TransactionCreate) :
  fieldnames <> [] ->
  (forall h, h ∈ required_headers -> h ∈ fieldnames) ->
  DictReader_rows fieldnames body !! i = Some ri ->
  DictReader_rows fieldnames body !! j = Some rj ->
  i <> j ->
  TransactionCSVRow ri = Returned ti ->
  TransactionCSVRow rj = Returned tj ->
  transaction_id ti = transaction_id tj ->
  transaction_id ti ∉ stored_ids (view s) ->
  active s = true ->
  (forall valid errs total s',
     _parse_csv (utf8_text (fieldnames :: body)) s = (Returned (valid, errs, total), s') ->
     ti ∈ valid /\ tj ∈ valid
     /\ (forall err, err ∈ errs ->
           row_number err <> 2 + Z.of_nat i /\ row_number err <> 2 + Z.of_nat j)
     /\ forall s2, exists e s2',
          TransactionRepository.create_bulk valid s2 = (Raised e, s2')
          /\ (active s2 = true -> is_Some (mapM Transaction_of valid) ->
              e = IntegrityError "transactions"))
  /\ exists e s',
       import_csv self (utf8_text (fieldnames :: body)) filename s = (Raised e, s')
       /\ (view s = snapshot s -> transactions (view s') = transactions (view s)).
Proof.
  intros Hfn Hhdr Hi Hj Hij Hti Htj Hid Hnew Ha.
  assert (Hparse : forall s0 valid errs total s0',
    active s0 = true -> stored_ids (view s0) = stored_ids (view s) ->
    _parse_csv (utf8_text (fieldnames :: body)) s0 = (Returned (valid, errs, total), s0') ->
    ti ∈ valid /\ tj ∈ valid
    /\ (forall err, err ∈ errs ->
          row_number err <> 2 + Z.of_nat i /\ row_number err <> 2 + Z.of_nat j)
    /\ ~ NoDup (transaction_id <$> valid)).
  { intros s0 valid errs total s0' Ha0 Hids Ep. unfold _parse_csv in Ep.
    destruct fieldnames as [|h fn]; [destruct (Hfn eq_refl)|].
    destruct (List.filter _ required_headers) as [|m ms] eqn:Ef.
    2:{ exfalso. assert (Hin : In m (m :: ms)) by (left; reflexivity).
        rewrite <- Ef in Hin. apply filter_In in Hin as [Hm Hnot].
        apply list_elem_of_In in Hm. apply Hhdr in Hm.
        rewrite bool_decide_eq_true_2 in Hnot by exact Hm. discriminate Hnot. }
    cbn [is_nil negb] in Ep.
    apply parse_rows_returned in Ep as (rs & Hrs & Hlen & -> & -> & _).
    rewrite !app_nil_l.
    destruct (Hrs i ri Hi) as (r1 & Hr1 & Hp1). destruct (Hrs j rj Hj) as (r2 & Hr2 & Hp2).
    rewrite (parse_row_accepts _ _ ti) in Hp1 by (try rewrite Hids; assumption).
    rewrite (parse_row_accepts _ _ tj) in Hp2
      by (try rewrite Hids; try rewrite <- Hid; assumption).
    injection Hp1 as <-. injection Hp2 as <-.
    split; [apply elem_of_accepted; eapply list_elem_of_lookup_2; exact Hr1|].
    split; [apply elem_of_accepted; eapply list_elem_of_lookup_2; exact Hr2|].
    split; [|exact (accepted_ids_repeat rs i j ti tj Hr1 Hr2 Hij Hid)].
    intros err Herr. apply elem_of_rejected in Herr. apply list_elem_of_lookup in Herr as [k Hk].
    assert (Hlt : (k < length (DictReader_rows (h :: fn) body))%nat).
    { rewrite <- Hlen. eapply lookup_lt_Some. exact Hk. }
    apply lookup_lt_is_Some in Hlt as [rk Hrk].
    destruct (Hrs k rk Hrk) as (r' & Hr' & Hp'). rewrite Hk in Hr'. injection Hr' as <-.
    apply parse_row_inl in Hp'. rewrite Hp'.
    split; intros Heq.
    - assert (k = i) as -> by lia. congruence.
    - assert (k = j) as -> by lia. congruence. }
  split.
  { intros valid errs total s' Ep.
    destruct (Hparse s valid errs total s' Ha eq_refl Ep) as (H1 & H2 & H3 & Hdup).
    split; [exact H1|]. split; [exact H2|]. split; [exact H3|].
    intros s2. apply create_bulk_repeated_ids. exact Hdup. }
  destruct (until_process self (utf8_text (fieldnames :: body)) filename s)
    as [[[[batch valid] errs]|e] s1] eqn:Eu.
  2:{ destruct (import_csv_prefix_Raised _ _ _ _ _ _ Eu) as (e' & s' & Hi' & Ht).
      exists e', s'. split; [exact Hi'|]. intros Hfresh.
      destruct Ht as [Ht| ->]; [exact Ht|rewrite Hfresh; reflexivity]. }
  assert (Hdup : ti ∈ valid /\ ~ NoDup (transaction_id <$> valid)).
  { revert Eu. unfold until_process. mrun. destruct (import_batch_repo self).
    - mrun. destruct (ImportBatchRepository.create filename s) as [[b|x] s0] eqn:Ec;
        [|discriminate].
      apply create_batch_run in Ec as (_ & Ht0 & _ & _ & _ & Ha0 & _). mrun.
      destruct (_parse_csv _ s0) as [[[[v er] n]|x] s0'] eqn:Ep; [|discriminate].
      apply Hparse in Ep as (H1 & _ & _ & Hdup);
        [|exact Ha0|unfold stored_ids; rewrite Ht0; reflexivity].
      mrun. destruct (ImportBatchRepository.update_status _ _ _ _ _ s0') as [[b'|x] s2];
        [|discriminate].
      mrun. intros [= _ <- _ _]. auto.
    - mrun. destruct (_parse_csv _ s) as [[[[v er] n]|x] s0'] eqn:Ep; [|discriminate].
      apply Hparse in Ep as (H1 & _ & _ & Hdup); [|exact Ha|reflexivity].
      mrun. intros [= _ <- _ _]. auto. }
  destruct Hdup as [Hin Hdup].
  assert (Hne : valid <> []) by (intros ->; inversion Hin).
  destruct (_process_transactions valid s1) as [[[]|e] s2] eqn:Eproc.
  - exfalso. apply (process_transactions_run _ _ _ _ Hne) in Eproc as (rows & Hm & Hnd & _).
    apply mapM_Transaction_of_ids in Hm. rewrite Hm in Hnd. exact (Hdup Hnd).
  - destruct (import_csv_process_Raised _ _ _ _ _ _ _ _ _ _ Eu Hne Eproc) as (e' & Hi' & _ & Hv).
    exists e', s2. split; [exact Hi'|]. intros Hfresh.
    pose proof (until_process_run _ _ _ _ _ _ _ _ Eu) as (_ & _ & _ & _ & Ha1 & _).
    rewrite Hv by congruence. rewrite Hfresh. reflexivity.
Qed.

End DuplicateIdentifiers.

(** ** The status of the batch record *)

Section BatchStatus.
Context {parsers : FieldParsers} {writers : ConcurrentWriters}.

Lemma until_process_log (self : ImportService) (file : FileContent) (filename : string)
    (s s1 : Session) batch valid errs :
  until_process self file filename s = (Returned (batch, valid, errs), s1) ->
  (batch = None /\ status_log s1 = status_log s)
  \/ exists b o1, batch = Some b
       /\ status_log s1 = status_log s ++ [(ImportBatch.batch_id b, pending)] ++ o1
       /\ (o1 = [] \/ o1 = [(ImportBatch.batch_id b, processing)]).
Proof.
  unfold until_process. mrun. destruct (import_batch_repo self).
  - mrun. destruct (ImportBatchRepository.create filename s) as [[b|e] s0] eqn:Ec; [|discriminate].
    apply create_batch_run in Ec as (_ & _ & _ & _ & _ & _ & Hl0). mrun.
    destruct (_parse_csv file s0) as [[[[v e] n]|e] s0'] eqn:Ep; [|discriminate].
    pose proof (read_only_run _ _ _ _ (read_only_parse_csv file) Ep) as ->. mrun.
    destruct (ImportBatchRepository.update_status _ _ _ _ _ s0) as [[b'|x] s2] eqn:Eu;
      [|discriminate].
    apply update_status_run in Eu as (_ & _ & _ & _ & _ & _ & Hl2). mrun.
    intros [= <- <- <- <-]. right. exists b.
    exists (match b' with Some _ => [(ImportBatch.batch_id b, processing)] | None => [] end).
    split; [reflexivity|]. split; [rewrite Hl2, Hl0, <- app_assoc; reflexivity|].
    destruct b'; auto.
  - mrun. destruct (_parse_csv file s) as [[[[v e] n]|e] s0'] eqn:Ep; [|discriminate].
    pose proof (read_only_run _ _ _ _ (read_only_parse_csv file) Ep) as ->. mrun.
    intros [= <- <- <- <-]. left. auto.
Qed.

Lemma import_failed_log (batch : option ImportBatch.t) (e : exn) (s s' : Session) r :
  import_failed batch e s = (r, s') ->
  status_log s' = status_log s
  \/ exists b, batch = Some b
       /\ status_log s' = status_log s ++ [(ImportBatch.batch_id b, failed)].
Proof.
  intros Ef. destruct (import_failed_run _ _ _ _ _ Ef) as (_ & _ & _ & _ & _ & [Hl|(b & Hb & _ & Hl)]);
    [left; exact Hl|right; eauto].
Qed.

Lemma until_process_Raised_log (self : ImportService) (file : FileContent) (filename : string)
    (s s1 : Session) (e : exn) r s' :
  until_process self file filename s = (Raised e, s1) ->
  import_csv self file filename s = (r, s') ->
  status_log s' = status_log s
  \/ exists b o2,
       status_log s' = status_log s ++ [(b, pending)] ++ o2
       /\ (o2 = [] \/ o2 = [(b, failed)]).
Proof.
  unfold until_process, import_csv. mrun.
  destruct (import_batch_repo self).
  - mrun. destruct (ImportBatchRepository.create filename s) as [[b|x] s0] eqn:Ec.
    2:{ intros _ [= <- <-]. left. apply create_batch_run in Ec. apply aborted_log. exact Ec. }
    apply create_batch_run in Ec as (_ & _ & _ & _ & _ & _ & Hl0). mrun.
    assert (Hfail : forall x sx, status_log sx = status_log s0 ->
              import_failed (Some b) x sx = (r, s') ->
              status_log s' = status_log s
              \/ exists b0 o2, status_log s' = status_log s ++ [(b0, pending)] ++ o2
                   /\ (o2 = [] \/ o2 = [(b0, failed)])).
    { intros x sx Hsx Ef. right. exists (ImportBatch.batch_id b).
      destruct (import_failed_log _ _ _ _ _ Ef) as [Hl|(b0 & [= <-] & Hl)].
      - exists []. rewrite Hl, Hsx, Hl0. auto.
      - exists [(ImportBatch.batch_id b, failed)]. rewrite Hl, Hsx, Hl0, <- app_assoc. auto. }
    unfold try_except. mrun.
    destruct (_parse_csv file s0) as [[[[v er] n]|x] s0'] eqn:Ep;
      pose proof (read_only_run _ _ _ _ (read_only_parse_csv file) Ep) as ->.
    + mrun.
      destruct (ImportBatchRepository.update_status _ _ _ _ _ s0) as [[b'|x] s2] eqn:Eu;
        [mrun; discriminate|].
      apply update_status_run in Eu as [_ ->]. intros _. apply Hfail. reflexivity.
    + intros _. apply Hfail. reflexivity.
  - mrun. unfold try_except. mrun.
    destruct (_parse_csv file s) as [[[[v er] n]|x] s0'] eqn:Ep; [mrun; discriminate|].
    pose proof (read_only_run _ _ _ _ (read_only_parse_csv file) Ep) as ->.
    intros _ Ef. left. destruct (import_failed_log None x s s' r Ef) as [Hl|(b0 & [=] & _)].
    exact Hl.
Qed.

Lemma process_if_any_log (valid : list TransactionCreate) (s s1 : Session) (r1 : Result ()) :
  (if negb (is_nil valid) then _process_transactions valid else mret ()) s = (r1, s1) ->
  status_log s1 = status_log s.
Proof.
  destruct valid as [|t valid']; cbn [is_nil negb].
  - intros [= _ <-]. reflexivity.
  - intros Ep. apply process_transactions_run in Ep; [|discriminate].
    destruct r1; [destruct Ep as (rows & _ & _ & _ & _ & Hl & _)|destruct Ep as (_ & Hl & _)];
      exact Hl.
Qed.

Lemma import_rest_log (batch : option ImportBatch.t) (valid : list TransactionCreate)
    (errs : list ValidationError) (s s' : Session) r :
  import_rest batch valid errs s = (r, s') ->
  match r with
  | Returned _ =>
      status_log s' = status_log s
      \/ exists b, batch = Some b
           /\ status_log s' = status_log s ++ [(ImportBatch.batch_id b, completed)]
  | Raised _ => status_log s' = status_log s
  end.
Proof.
  unfold import_rest. mrun.
  destruct ((if negb (is_nil valid) then _process_transactions valid else mret ()) s)
    as [[[]|e] s1] eqn:Ep; apply process_if_any_log in Ep.
  2:{ intros [= <- <-]. exact Ep. }
  destruct batch as [b|]; mrun.
  - destruct (ImportBatchRepository.update_status _ _ _ _ _ s1) as [[b'|x] s2] eqn:Eu;
      apply update_status_run in Eu.
    + mrun. intros [= <- <-]. destruct Eu as (_ & _ & _ & _ & _ & _ & Hl).
      destruct b'; [right; exists b; rewrite Hl, Ep; auto|left; rewrite Hl, Ep; apply app_nil_r].
    + intros [= <- <-]. destruct Eu as [_ ->]. exact Ep.
  - intros [= <- <-]. left. exact Ep.
Qed.

(** C9: the status assignments made during one import call all concern
    the batch created by that call, begin with [pending], never move to an
    earlier status and never follow [completed] or [failed]. *)
Theorem batch_status_only_forward (self : ImportService) (file : FileContent)
    (filename : string) (s s' : Session) (r : Result FileUploadResponse) :
  import_csv self file filename s = (r, s') ->
  exists l, status_log s' = status_log s ++ l
    /\ (l = []
        \/ exists b sts, l = (fun st => (b, st)) <$> (pending :: sts)
             /\ forward_only pending sts).
Proof.
  intros Ei.
  assert (Hshape : status_log s' = status_log s
    \/ exists b o1 o2,
         status_log s' = status_log s ++ [(b, pending)] ++ o1 ++ o2
         /\ (o1 = [] \/ o1 = [(b, processing)])
         /\ (o2 = [] \/ o2 = [(b, completed)] \/ o2 = [(b, failed)])).
  { destruct (until_process self file filename s) as [[[[batch valid] errs]|e] s1] eqn:Eu.
    - rewrite (import_csv_from_process _ _ _ _ _ _ _ _ Eu) in Ei. unfold try_except in Ei.
      destruct (import_rest batch valid errs s1) as [[resp|e] s2] eqn:Er;
        apply import_rest_log in Er.
      + injection Ei as <- <-.
        destruct (until_process_log _ _ _ _ _ _ _ _ Eu) as [[-> Hl1]|(b & o1 & -> & Hl1 & Ho1)].
        * left. destruct Er as [Hl|(b & [=] & _)]. congruence.
        * right. exists (ImportBatch.batch_id b), o1.
          destruct Er as [Hl|(b0 & [= <-] & Hl)].
          -- exists []. rewrite Hl, Hl1, app_nil_r. auto.
          -- exists [(ImportBatch.batch_id b, completed)]. rewrite Hl, Hl1, <- !app_assoc. auto.
      + apply import_failed_log in Ei.
        destruct (until_process_log _ _ _ _ _ _ _ _ Eu) as [[-> Hl1]|(b & o1 & -> & Hl1 & Ho1)].
        * left. destruct Ei as [Hl|(b & [=] & _)]. congruence.
        * right. exists (ImportBatch.batch_id b), o1.
          destruct Ei as [Hl|(b0 & [= <-] & Hl)].
          -- exists []. rewrite Hl, Er, Hl1, app_nil_r. auto.
          -- exists [(ImportBatch.batch_id b, failed)]. rewrite Hl, Er, Hl1, <- !app_assoc. auto.
    - destruct (until_process_Raised_log _ _ _ _ _ _ _ _ Eu Ei) as [Hl|(b & o2 & Hl & Ho2)];
        [left; exact Hl|].
      right. exists b, [], o2. split; [exact Hl|]. split; [auto|]. destruct Ho2; auto. }
  destruct Hshape as [Hl|(b & o1 & o2 & Hl & Ho1 & Ho2)].
  - exists []. rewrite app_nil_r. auto.
  - exists ([(b, pending)] ++ o1 ++ o2). split; [exact Hl|]. right. exists b.
    destruct Ho1 as [->| ->]; destruct Ho2 as [->|[->| ->]].
    + exists []. split; [reflexivity|exact I].
    + exists [completed]. split; [reflexivity|]. simpl. repeat split; lia.
    + exists [failed]. split; [reflexivity|]. simpl. repeat split; lia.
    + exists [processing]. split; [reflexivity|]. simpl. repeat split; lia.
    + exists [processing; completed]. split; [reflexivity|]. simpl. repeat split; lia.
    + exists [processing; failed]. split; [reflexivity|]. simpl. repeat split; lia.
Qed.

End BatchStatus.

(** ** The properties on the sample data *)

Lemma bulk_insert_failure_witness :
  exists e',
    import_csv (parsers := Sample.parsers) (writers := no_writers) Sample.service
      Sample.fifty_rows "batch.csv" Sample.s0
    = (Raised e', Sample.fifty_insert.2)
    /\ length Sample.fifty_valid = 50%nat
    /\ view Sample.fifty_insert.2 = Sample.empty_db
    /\ transactions (view Sample.fifty_insert.2) = [].
Proof.
  destruct (bulk_insert_failure_persists_nothing (parsers := Sample.parsers)
              (writers := no_writers) Sample.service Sample.fifty_rows "batch.csv"
              Sample.s0 Sample.fifty_prefix.2 Sample.fifty_insert.2 Sample.fifty_batch
              Sample.fifty_valid Sample.fifty_errors Sample.fifty_exn)
    as (e' & Hi & Hv & _ & Hrows).
  - vm_compute. reflexivity.
  - vm_compute. discriminate.
  - vm_compute. reflexivity.
  - exists e'. split; [exact Hi|]. split; [vm_compute; reflexivity|].
    split; [exact Hv|]. rewrite Hv. reflexivity.
Defined.

Lemma customer_total_witness :
  exists r,
    ReportService.get_customer_summary 100 None None (Sample.session_of Sample.db2)
    = (Returned (Some r), Sample.session_of Sample.db2)
    /\ dec_exp (CustomerSummaryResponse.total_amount_pln r) = -2
    /\ (dec_value (CustomerSummaryResponse.total_amount_pln r)
        == round_half_up_2dp (converted_total (rows_of_customer Sample.db2 100)))%Q
    /\ (round_half_up_2dp (converted_total (rows_of_customer Sample.db2 100)) == 143)%Q.
Proof.
  destruct (customer_total_in_base_currency (Sample.session_of Sample.db2) 100)
    as (r & Hr & He & Hv).
  - reflexivity.
  - apply (bool_decide_unpack _). vm_compute. exact I.
  - exists r. split; [exact Hr|]. split; [exact He|]. split; [exact Hv|].
    vm_compute. reflexivity.
Defined.

(** C3, as the claim states it, fails: no required header name occurs in
    the text [a<CR>b], yet the import of that text answers with no error of
    row 0.  The reader raises when [_parse_csv] asks for the field names,
    and the import raises with it, with or without batch tracking. *)
Lemma unreadable_header_no_row_error :
  (forall h, h ∈ required_headers -> index 0 h Sample.bare_cr_text = None)
  /\ _parse_csv (parsers := Sample.parsers) Sample.bare_cr_file Sample.s0
     = (Raised (CsvError Sample.bare_cr_message), Sample.s0)
  /\ (import_csv (parsers := Sample.parsers) (writers := no_writers)
        {| import_batch_repo := false |} Sample.bare_cr_file "cr.csv" Sample.s0)
     = (Raised (CsvError Sample.bare_cr_message), Sample.s0)
  /\ (import_csv (parsers := Sample.parsers) (writers := no_writers)
        Sample.service Sample.bare_cr_file "cr.csv" Sample.s0).1
     = Raised (CsvError Sample.bare_cr_message)
  /\ ~ (exists resp s',
         import_csv (parsers := Sample.parsers) (writers := no_writers)
           Sample.service Sample.bare_cr_file "cr.csv" Sample.s0 = (Returned resp, s')
         /\ error_count resp = 1).
Proof.
  split.
  { intros h Hh. apply list_elem_of_In in Hh. simpl in Hh.
    repeat (destruct Hh as [<-|Hh]; [vm_compute; reflexivity|]). destruct Hh. }
  split; [reflexivity|]. split; [vm_compute; reflexivity|].
  split; [vm_compute; reflexivity|].
  intros (resp & s' & E & _).
  apply (f_equal fst) in E. vm_compute in E. discriminate E.
Qed.

Lemma missing_headers_witness :
  exists err,
    row_number err = 0
    /\ (forall s, _parse_csv (parsers := Sample.parsers) (utf8_text Sample.no_amount_records) s
                  = (Returned ([], [err], 0), s))
    /\ (forall s, _parse_csv (parsers := Sample.parsers)
                    (unreadable_text (take 1 Sample.no_amount_records) Sample.bare_cr_text
                       Sample.bare_cr_message) s
                  = (Returned ([], [err], 0), s)).
Proof.
  destruct (missing_headers_single_error (parsers := Sample.parsers) (writers := no_writers)
              (utf8_text Sample.no_amount_records)) as [H _].
  destruct H as (err & Hrow & _ & Hparse & Hany & _).
  - exact I.
  - exists "amount". split; apply (bool_decide_unpack _); vm_compute; exact I.
  - exists err. split; [exact Hrow|]. split; [exact Hparse|].
    intros s. eapply Hany; [reflexivity|]. exists []. reflexivity.
Defined.

Lemma summary_not_found_or_zero_witness :
  (exists r,
     ReportService.get_customer_summary 77 (Some 0) (Some 1000000) (Sample.session_of Sample.db2)
     = (Returned r, Sample.session_of Sample.db2) /\ r = None)
  /\ (exists r,
     ReportService.get_product_summary 200 (Some 0) (Some 1000000) (Sample.session_of Sample.db2)
     = (Returned r, Sample.session_of Sample.db2)
     /\ r = Some (ProductSummaryResponse.mk 200 0 (mkDecimal false 0 (-2)) 0)).
Proof.
  destruct (summary_not_found_or_zero (Sample.session_of Sample.db2) (Some 0) (Some 1000000))
    as [Hc Hp]; [reflexivity|].
  split.
  - destruct (Hc 77%N) as (r & Hr & Hnone & _). exists r. split; [exact Hr|].
    apply Hnone. apply (bool_decide_unpack _). vm_compute. exact I.
  - destruct (Hp 200%N) as (r & Hr & _ & Hzero). exists r. split; [exact Hr|].
    apply Hzero.
    + apply (bool_decide_unpack _). vm_compute. exact I.
    + intros t Ht _ [Hlo Hhi]. specialize (Hhi 1000000 eq_refl).
      apply list_elem_of_In in Ht. simpl in Ht.
      destruct Ht as [<-|[<-|[]]]; simpl in Hhi; lia.
Defined.

(** C6, as the claim states it, fails: customer 100 is created by another
    writer between the existence read and the insert; bulk resolution
    raises the integrity error instead of re-reading the customer, and the
    import of the one valid row raises instead of returning a response. *)
Lemma entity_conflict_not_tolerated :
  CustomerRepository.get_or_create_bulk (writers := Sample.racing_customer) {[100%N]} Sample.s0
  = (Raised (IntegrityError "customers"), rolled_back Sample.s0)
  /\ (import_csv (parsers := Sample.parsers) (writers := Sample.racing_customer)
        {| import_batch_repo := false |} Sample.one_row "race.csv" Sample.s0).1
     = Raised (IntegrityError "customers")
  /\ is_Raised (import_csv (parsers := Sample.parsers) (writers := Sample.racing_customer)
                  Sample.service Sample.one_row "race.csv" Sample.s0).1 = true
  /\ (import_csv (parsers := Sample.parsers) (writers := no_writers)
        Sample.service Sample.one_row "race.csv" Sample.s0).1
     = Returned {| message := "Successfully processed 1 transactions"; processed_count := 1;
                   error_count := 0; errors := [] |}.
Proof. repeat split; vm_compute; reflexivity. Qed.

Lemma entity_conflict_witness :
  exists e' s',
    import_csv (parsers := Sample.parsers) (writers := Sample.racing_customer) Sample.service
      Sample.one_row "race.csv" Sample.s0 = (Raised e', s')
    /\ active s' = false /\ view s' = Sample.empty_db.
Proof.
  destruct (entity_conflict_fails_import (parsers := Sample.parsers)
              (writers := Sample.racing_customer) Sample.service Sample.one_row "race.csv"
              Sample.s0 Sample.one_row_prefix.2 Sample.one_row_batch Sample.one_row_valid
              Sample.one_row_errors)
    as (_ & e' & s' & Hi & Ha & Hv).
  - vm_compute. reflexivity.
  - left. exists 100%N. repeat split; apply (bool_decide_unpack _); vm_compute; exact I.
  - exists e', s'. split; [exact Hi|]. split; [exact Ha|exact Hv].
Defined.

Lemma batch_status_witness :
  exists l, status_log Sample.two_rows_run.2 = status_log Sample.s0 ++ l
    /\ (l = []
        \/ exists b sts, l = (fun st => (b, st)) <$> (pending :: sts)
             /\ forward_only pending sts).
Proof.
  apply (batch_status_only_forward (parsers := Sample.parsers) (writers := no_writers)
           Sample.service Sample.two_rows_same_id "twice.csv" Sample.s0
           Sample.two_rows_run.2 Sample.two_rows_run.1).
  vm_compute. reflexivity.
Defined.

Lemma same_id_twice_witness :
  exists e s',
    import_csv (parsers := Sample.parsers) (writers := no_writers) Sample.service
      Sample.two_rows_same_id "twice.csv" Sample.s0 = (Raised e, s')
    /\ (view Sample.s0 = snapshot Sample.s0 ->
        transactions (view s') = transactions (view Sample.s0)).
Proof.
  apply (same_id_twice_fails_batch (parsers := Sample.parsers) (writers := no_writers)
           Sample.service Sample.header
           [Sample.record 7 "100.00" "PLN" "1"; Sample.record 7 "5.50" "EUR" "2"]
           "twice.csv" Sample.s0 0 1
           (dict_row Sample.header (Sample.record 7 "100.00" "PLN" "1"))
           (dict_row Sample.header (Sample.record 7 "5.50" "EUR" "2"))
           (Sample.row7 (mkDecimal false 10000 (-2)) PLN 1)
           (Sample.row7 (mkDecimal false 550 (-2)) EUR 2)).
  - discriminate.
  - intros h Hh. exact Hh.
  - reflexivity.
  - reflexivity.
  - lia.
  - vm_compute. reflexivity.
  - vm_compute. reflexivity.
  - reflexivity.
  - apply (bool_decide_unpack _). vm_compute. exact I.
  - reflexivity.
Defined.

(** * Further properties *)
(** ** Records and rows *)

Lemma fold_insert_last {V} (l : list (string * V)) (k : string) (v : V) (m : gmap string V) :
  fold_left (fun d kv => <[kv.1 := kv.2]> d) (l ++ [(k, v)]) m !! k = Some v.
Proof.
  rewrite fold_left_app. simpl. apply lookup_insert_eq.
Qed.

Lemma fold_insert_Forall {V} (P : V -> Prop) (l : list (string * V)) :
  forall m : gmap string V,
  map_Forall (fun _ v => P v) m ->
  Forall (fun kv => P kv.2) l ->
  map_Forall (fun _ v => P v) (fold_left (fun d kv => <[kv.1 := kv.2]> d) l m).
Proof.
  induction l as [|[k v] l IH]; intros m Hm Hl; simpl; [exact Hm|].
  inversion Hl; subst. apply IH; [|assumption].
  apply map_Forall_insert_2; assumption.
Qed.

Lemma zip_Some_values (fn : list string) (record : list string) :
  Forall (fun kv : string * option string => is_Some kv.2) (zip fn (Some <$> record)).
Proof.
  revert fn. induction record as [|c record IH]; intros [|k fn]; simpl; try constructor.
  - simpl. eauto.
  - apply IH.
Qed.

Lemma forallb_map_Forall (m : gmap string (option string)) :
  forallb (fun kv : string * option string => bool_decide (is_Some kv.2)) (map_to_list m) = true
  <-> map_Forall (fun _ v => is_Some v) m.
Proof.
  rewrite forallb_forall. split.
  - intros H k v Hkv. apply elem_of_map_to_list in Hkv.
    apply list_elem_of_In, H in Hkv. apply bool_decide_eq_true in Hkv. exact Hkv.
  - intros H [k v] Hin. apply list_elem_of_In in Hin. apply elem_of_map_to_list in Hin.
    apply bool_decide_eq_true. exact (H k v Hin).
Qed.

(** The dictionary of a record can be kept as [raw_data] exactly when the
    record has as many cells as the header has names. *)
Lemma raw_data_input_dict_row (fn : list string) (record : list string) :
  is_Some (raw_data_input (dict_row fn record)) <-> length record = length fn.
Proof.
  unfold raw_data_input, dict_row. cbn [restkey cells].
  destruct (length fn <? length record)%nat eqn:E.
  - apply Nat.ltb_lt in E. split; [intros [? ?]; discriminate | lia].
  - apply Nat.ltb_ge in E.
    destruct (decide (length record = length fn)) as [Heq|Hne].
    + rewrite Heq, Nat.sub_diag. simpl replicate. rewrite app_nil_r.
      match goal with |- context [forallb ?f (map_to_list ?m)] =>
        assert (forallb f (map_to_list m) = true) as ->
      end.
      { apply forallb_map_Forall. apply fold_insert_Forall; [apply map_Forall_empty|].
        apply zip_Some_values. }
      split; eauto.
    + assert (fn <> []) as Hfn by (intros ->; simpl in *; lia).
      destruct (exists_last Hfn) as (fn' & k & ->).
      rewrite length_app in *. simpl in *.
      replace (length fn' + 1 - length record)%nat
        with (S (length fn' - length record)) by lia.
      rewrite replicate_S_end, app_assoc.
      rewrite zip_with_app
        by (rewrite length_app, length_fmap, length_replicate; lia).
      simpl zip_with.
      match goal with |- context [forallb ?f (map_to_list ?m)] =>
        destruct (forallb f (map_to_list m)) eqn:Hall
      end.
      * apply forallb_map_Forall in Hall.
        specialize (Hall k None (fold_insert_last _ k None ∅)).
        destruct Hall; discriminate.
      * split; [intros [? ?]; discriminate | lia].
Qed.

Section Rows.
Context {parsers : FieldParsers} {writers : ConcurrentWriters}.

(** The loop body of [_parse_csv] in closed form. *)
Lemma parse_row_run (row_num : Z) (row : RawRow) (s : Session) :
  parse_row row_num row s
  = (let report f msg :=
       match raw_data_input row with
       | Some d => Returned (inl {| row_number := row_num; field := f; error := msg;
                                   raw_data := Some d |})
       | None => Raised (PydanticValidationError "ValidationError")
       end in
     match TransactionCSVRow row with
     | Raised e => report None (exn_str e)
     | Returned t =>
         if active s then
           if bool_decide (transaction_id t ∈ stored_ids (view s))
           then report (Some "transaction_id")
                  ("Transaction " +:+ UUID_str (transaction_id t) +:+ " already exists")
           else Returned (inr t)
         else report None (exn_str PendingRollbackError)
     end, s).
Proof.
  unfold parse_row, try_except, lift, TransactionRepository.exists_, execute, mk_ValidationError,
    exn_loc, stored_ids.
  rewrite bind_run.
  destruct (TransactionCSVRow row) as [t|e]; cbv beta iota.
  - rewrite bind_run. destruct (active s); cbv beta iota.
    + destruct (bool_decide _); cbv beta iota.
      * rewrite bind_run. destruct (raw_data_input row); cbv beta iota.
        -- rewrite ret_run. reflexivity.
        -- rewrite bind_run. reflexivity.
      * rewrite ret_run. reflexivity.
    + rewrite bind_run. destruct (raw_data_input row); cbv beta iota.
      * rewrite ret_run. reflexivity.
      * reflexivity.
  - rewrite bind_run. destruct (raw_data_input row); cbv beta iota.
    + rewrite ret_run. reflexivity.
    + reflexivity.
Qed.

Lemma acceptable_dec (row : RawRow) (s : Session) :
  acceptable row s \/ ~ acceptable row s.
Proof.
  unfold acceptable. destruct (active s); [|right; intros [? _]; discriminate].
  destruct (TransactionCSVRow row) as [t|e].
  - destruct (decide (transaction_id t ∈ stored_ids (view s))) as [Hin|Hnin].
    + right. intros (_ & t' & [= <-] & Hn). contradiction.
    + left. eauto.
  - right. intros (_ & t' & [=] & _).
Qed.

(** A row with all its cells never raises. *)
Lemma parse_row_rectangular (row_num : Z) (row : RawRow) (s : Session) :
  is_Some (raw_data_input row) ->
  exists r, parse_row row_num row s = (Returned r, s)
    /\ match r with
       | inr t => acceptable row s /\ TransactionCSVRow row = Returned t
       | inl err =>
           ~ acceptable row s /\ row_number err = row_num /\ is_Some (raw_data err)
           /\ (field err = None \/ field err = Some "transaction_id")
       end.
Proof.
  intros [d Hd]. rewrite parse_row_run. rewrite Hd. cbv zeta.
  unfold acceptable.
  destruct (TransactionCSVRow row) as [t|e].
  - destruct (active s).
    + destruct (bool_decide_reflect (transaction_id t ∈ stored_ids (view s))) as [Hin|Hnin].
      * eexists; split; [reflexivity|]. simpl. repeat split; eauto.
        intros (_ & t' & [= <-] & Hn). contradiction.
      * eexists; split; [reflexivity|]. simpl. eauto.
    + eexists; split; [reflexivity|]. simpl. repeat split; eauto.
      intros [? _]; discriminate.
  - eexists; split; [reflexivity|]. simpl. repeat split; eauto.
    intros (_ & t' & [=] & _).
Qed.

(** A row lacking a cell, or with a surplus cell, raises unless it is
    accepted. *)
Lemma parse_row_ragged (row_num : Z) (row : RawRow) (s : Session) :
  raw_data_input row = None ->
  (acceptable row s /\ exists t, parse_row row_num row s = (Returned (inr t), s))
  \/ (~ acceptable row s
      /\ parse_row row_num row s = (Raised (PydanticValidationError "ValidationError"), s)).
Proof.
  intros Hd. rewrite parse_row_run. rewrite Hd. cbv zeta.
  unfold acceptable.
  destruct (TransactionCSVRow row) as [t|e].
  - destruct (active s).
    + destruct (bool_decide_reflect (transaction_id t ∈ stored_ids (view s))) as [Hin|Hnin].
      * right. split; [|reflexivity]. intros (_ & t' & [= <-] & Hn). contradiction.
      * left. eauto 10.
    + right. split; [|reflexivity]. intros [? _]; discriminate.
  - right. split; [|reflexivity]. intros (_ & t' & [=] & _).
Qed.
End Rows.

(** ** The row loop *)

Section Loop.
Context {parsers : FieldParsers}.

Lemma parse_csv_headers_ok (fieldnames : list string) (body : list (list string)) :
  (forall h, h ∈ required_headers -> h ∈ fieldnames) ->
  _parse_csv (utf8_text (fieldnames :: body))
  = parse_rows (DictReader_rows fieldnames body) 2 [] [] 0.
Proof.
  intros Hhdr. unfold _parse_csv.
  destruct fieldnames as [|h fn].
  { specialize (Hhdr "amount"). unfold required_headers in Hhdr.
    assert (Hin : "amount" ∈ @nil string) by (apply Hhdr; set_solver).
    inversion Hin. }
  rewrite filter_none; [reflexivity|].
  intros x Hx. apply Hhdr in Hx. rewrite bool_decide_eq_true_2 by exact Hx. reflexivity.
Qed.

Lemma parse_csv_headers_ok_unreadable (fieldnames : list string) (body : list (list string))
    (rest msg : string) :
  (forall h, h ∈ required_headers -> h ∈ fieldnames) ->
  _parse_csv (unreadable_text (fieldnames :: body) rest msg)
  = (_ ← parse_rows (DictReader_rows fieldnames body) 2 [] [] 0; raise (CsvError msg)).
Proof.
  intros Hhdr. unfold _parse_csv.
  destruct fieldnames as [|h fn].
  { specialize (Hhdr "amount"). unfold required_headers in Hhdr.
    assert (Hin : "amount" ∈ @nil string) by (apply Hhdr; set_solver).
    inversion Hin. }
  rewrite filter_none; [reflexivity|].
  intros x Hx. apply Hhdr in Hx. rewrite bool_decide_eq_true_2 by exact Hx. reflexivity.
Qed.

Lemma accepted_rejected_length (rs : list (ValidationError + TransactionCreate)) :
  (length (accepted rs) + length (rejected rs))%nat = length rs.
Proof.
  induction rs as [|[e|t] rs IH]; simpl; [reflexivity| |]; unfold accepted, rejected in *;
    simpl; lia.
Qed.

(** The loop returns when every row does. *)
Lemma parse_rows_total (rows : list RawRow) (s : Session) :
  forall row_num valid errs total,
  (forall i row, rows !! i = Some row ->
     exists r, parse_row (row_num + Z.of_nat i) row s = (Returned r, s)) ->
  exists rs,
    parse_rows rows row_num valid errs total s
    = (Returned (valid ++ accepted rs, errs ++ rejected rs, total + len rows), s)
    /\ length rs = length rows
    /\ forall i row, rows !! i = Some row ->
         exists r, rs !! i = Some r
           /\ parse_row (row_num + Z.of_nat i) row s = (Returned r, s).
Proof.
  induction rows as [|row rest IH]; intros n valid errs total H.
  - exists []. simpl. rewrite ret_run, !app_nil_r. unfold len. simpl.
    rewrite Z.add_0_r. split; [reflexivity|]. split; [reflexivity|].
    intros i row Hi. rewrite lookup_nil in Hi. discriminate.
  - destruct (H 0%nat row eq_refl) as [r Hr]. rewrite Z.add_0_r in Hr.
    assert (Hrest : forall i row', rest !! i = Some row' ->
              exists r', parse_row (n + 1 + Z.of_nat i) row' s = (Returned r', s)).
    { intros i row' Hi. destruct (H (S i) row' Hi) as [r' Hr'].
      exists r'. rewrite <- Hr'. f_equal. lia. }
    cbn [parse_rows]. rewrite bind_run, Hr.
    destruct r as [err|t]; cbv beta iota.
    + destruct (IH (n + 1) valid (errs ++ [err]) (total + 1) Hrest) as (rs & -> & Hlen & Hrs).
      exists (inl err :: rs). split; [|split].
      * unfold accepted, rejected, len. simpl length. rewrite Nat2Z.inj_succ.
        replace (total + 1 + Z.of_nat (length rest)) with (total + Z.succ (Z.of_nat (length rest)))
          by lia.
        simpl. rewrite <- app_assoc. reflexivity.
      * simpl. lia.
      * intros [|i] row' Hi; simpl in Hi.
        -- injection Hi as <-. exists (inl err). rewrite Z.add_0_r. split; [reflexivity|exact Hr].
        -- destruct (Hrs i row' Hi) as (r' & Hr1 & Hr2). exists r'. split; [exact Hr1|].
           rewrite <- Hr2. f_equal. lia.
    + destruct (IH (n + 1) (valid ++ [t]) errs (total + 1) Hrest) as (rs & -> & Hlen & Hrs).
      exists (inr t :: rs). split; [|split].
      * unfold accepted, rejected, len. simpl length. rewrite Nat2Z.inj_succ.
        replace (total + 1 + Z.of_nat (length rest)) with (total + Z.succ (Z.of_nat (length rest)))
          by lia.
        simpl. rewrite <- app_assoc. reflexivity.
      * simpl. lia.
      * intros [|i] row' Hi; simpl in Hi.
        -- injection Hi as <-. exists (inr t). rewrite Z.add_0_r. split; [reflexivity|exact Hr].
        -- destruct (Hrs i row' Hi) as (r' & Hr1 & Hr2). exists r'. split; [exact Hr1|].
           rewrite <- Hr2. f_equal. lia.
Qed.

(** The loop raises when some row does, whatever its number. *)
Lemma parse_rows_raises (rows : list RawRow) (s : Session) (bad : RawRow) :
  bad ∈ rows ->
  (forall n, parse_row n bad s = (Raised (PydanticValidationError "ValidationError"), s)) ->
  forall row_num valid errs total,
  parse_rows rows row_num valid errs total s
  = (Raised (PydanticValidationError "ValidationError"), s).
Proof.
  intros Hin Hbad. induction rows as [|row rest IH]; intros n valid errs total.
  - inversion Hin.
  - cbn [parse_rows]. rewrite bind_run.
    destruct (parse_row n row s) as [[r|e] s1] eqn:Er.
    + assert (s1 = s) as -> by (eapply read_only_run; [apply read_only_parse_row|exact Er]).
      assert (Hrest : bad ∈ rest).
      { apply elem_of_cons in Hin as [->|Hin]; [|exact Hin].
        rewrite Hbad in Er. discriminate. }
      destruct r; apply IH; exact Hrest.
    + assert (s1 = s) as -> by (eapply read_only_run; [apply read_only_parse_row|exact Er]).
      rewrite parse_row_run in Er. revert Er. cbv zeta.
      destruct (raw_data_input row), (TransactionCSVRow row); try discriminate;
        repeat (match goal with |- context [if ?b then _ else _] => destruct b end);
        intros [= <-]; reflexivity.
Qed.

(** Errors come out in the order of the rows. *)
Lemma rejected_increasing (rs : list (ValidationError + TransactionCreate)) :
  forall n,
  (forall k e, rs !! k = Some (inl e) -> row_number e = n + Z.of_nat k) ->
  (forall e, e ∈ rejected rs -> n <= row_number e)
  /\ forall i j ei ej, rejected rs !! i = Some ei -> rejected rs !! j = Some ej ->
       (i < j)%nat -> row_number ei < row_number ej.
Proof.
  induction rs as [|r rs IH]; intros n H.
  - split; [intros e He; inversion He|]. intros i j ei ej Hi. unfold rejected in Hi.
    simpl in Hi. rewrite lookup_nil in Hi. discriminate.
  - assert (Hrest : forall k e, rs !! k = Some (inl e) -> row_number e = n + 1 + Z.of_nat k).
    { intros k e Hk. rewrite (H (S k) e Hk). lia. }
    destruct (IH (n + 1) Hrest) as [Hge Hlt].
    destruct r as [e0|t]; unfold rejected in *; simpl.
    + assert (H0 : row_number e0 = n) by (rewrite (H 0%nat e0 eq_refl); lia).
      split.
      * intros e He. apply elem_of_cons in He as [->|He]; [lia|]. specialize (Hge e He). lia.
      * intros [|i] [|j] ei ej Hi Hj Hij; simpl in *; try lia.
        -- injection Hi as <-. apply list_elem_of_lookup_2 in Hj. specialize (Hge ej Hj). lia.
        -- eapply Hlt; eauto. lia.
    + split; [|exact Hlt]. intros e He. specialize (Hge e He). lia.
Qed.
End Loop.

(** ** Files whose records have as many cells as the header *)

(** X1: a row makes the parser raise exactly when its record has not as
    many cells as the header has names and the row is not accepted; the
    exception is then the validation error of the error record itself, and
    the session is left as it was. *)
Theorem ragged_row_outcome {parsers : FieldParsers} (fieldnames record : list string)
    (row_num : Z) (s : Session) :
  let row := dict_row fieldnames record in
  (parse_row row_num row s).2 = s
  /\ (forall e, (parse_row row_num row s).1 = Raised e ->
        e = PydanticValidationError "ValidationError")
  /\ (is_Raised (parse_row row_num row s).1 = true
      <-> length record <> length fieldnames /\ ~ acceptable row s).
Proof.
  intros row. split; [apply read_only_parse_row|].
  destruct (raw_data_input row) as [d|] eqn:Hd.
  - assert (Hlen : length record = length fieldnames).
    { apply raw_data_input_dict_row. fold row. rewrite Hd. eauto. }
    destruct (parse_row_rectangular row_num row s) as (r & -> & _); [rewrite Hd; eauto|].
    simpl. split; [discriminate|]. split; [discriminate|]. intros [Hne _]. contradiction.
  - assert (Hlen : length record <> length fieldnames).
    { intros Heq. apply raw_data_input_dict_row in Heq. fold row in Heq. rewrite Hd in Heq.
      destruct Heq; discriminate. }
    destruct (parse_row_ragged row_num row s Hd) as [(Hacc & t & ->)|(Hnacc & ->)]; simpl.
    + split; [discriminate|]. split; [discriminate|]. intros [_ Hn]. contradiction.
    + split; [intros e [= <-]; reflexivity|]. split; auto.
Qed.

(** X2: a file with the required headers whose records all have as many
    cells as the header makes the parser raise only when the reader cannot
    read it to its end, and then with the error of the reader.  When the
    reader reads it to its end the parser returns, on any session: every
    record that is not blank yields exactly one outcome, a surviving row or
    an error; the errors come in file order, each numbered by the position
    of its record among the records that are not blank (the first is row
    2), each keeps the row's cells, and names the field [transaction_id]
    or none. *)
Theorem rectangular_file_parses {parsers : FieldParsers} (fieldnames : list string)
    (body : list (list string)) (s : Session) :
  (forall h, h ∈ required_headers -> h ∈ fieldnames) ->
  (forall record, record ∈ body -> record = [] \/ length record = length fieldnames) ->
  let records := List.filter nonblank body in
  exists valid errs,
    _parse_csv (utf8_text (fieldnames :: body)) s = (Returned (valid, errs, len records), s)
    /\ (forall rest msg,
          _parse_csv (unreadable_text (fieldnames :: body) rest msg) s
          = (Raised (CsvError msg), s))
    /\ len valid + len errs = len records
    /\ (forall i j ei ej, errs !! i = Some ei -> errs !! j = Some ej -> (i < j)%nat ->
          row_number ei < row_number ej)
    /\ (forall e, e ∈ errs ->
          is_Some (raw_data e) /\ (field e = None \/ field e = Some "transaction_id")
          /\ exists k record, row_number e = 2 + Z.of_nat k /\ records !! k = Some record
               /\ ~ acceptable (dict_row fieldnames record) s)
    /\ (forall t, t ∈ valid ->
          exists record, record ∈ records
            /\ TransactionCSVRow (dict_row fieldnames record) = Returned t
            /\ acceptable (dict_row fieldnames record) s)
    /\ (forall k record, records !! k = Some record ->
          (acceptable (dict_row fieldnames record) s ->
           exists t, t ∈ valid /\ TransactionCSVRow (dict_row fieldnames record) = Returned t)
          /\ (~ acceptable (dict_row fieldnames record) s ->
              exists e, e ∈ errs /\ row_number e = 2 + Z.of_nat k)).
Proof.
  intros Hhdr Hrect records.
  assert (Hstop : forall rest msg r,
            _parse_csv (utf8_text (fieldnames :: body)) s = (Returned r, s) ->
            _parse_csv (unreadable_text (fieldnames :: body) rest msg) s
            = (Raised (CsvError msg), s)).
  { intros rest msg r. rewrite parse_csv_headers_ok, parse_csv_headers_ok_unreadable
      by exact Hhdr.
    intros E. rewrite bind_run, E. reflexivity. }
  revert Hstop. rewrite parse_csv_headers_ok by exact Hhdr. intros Hstop.
  assert (Hrows : DictReader_rows fieldnames body = dict_row fieldnames <$> records)
    by reflexivity.
  rewrite Hrows.
  assert (Hrec : forall k record, records !! k = Some record ->
            is_Some (raw_data_input (dict_row fieldnames record))).
  { intros k record Hk. apply raw_data_input_dict_row.
    apply list_elem_of_lookup_2, list_elem_of_In, filter_In in Hk as [Hin Hnb].
    apply list_elem_of_In, Hrect in Hin as [->|Hlen]; [discriminate Hnb|exact Hlen]. }
  destruct (parse_rows_total (dict_row fieldnames <$> records) s 2 [] [] 0)
    as (rs & Hrun & Hlen & Hrs).
  { intros i row Hi. apply list_lookup_fmap_Some in Hi as (record & -> & Hi).
    destruct (parse_row_rectangular (2 + Z.of_nat i) _ s (Hrec i record Hi)) as (r & Hr & _).
    eauto. }
  rewrite length_fmap in Hlen.
  assert (Hk : forall k record, records !! k = Some record ->
            exists r, rs !! k = Some r
              /\ match r with
                 | inr t => acceptable (dict_row fieldnames record) s
                            /\ TransactionCSVRow (dict_row fieldnames record) = Returned t
                 | inl err =>
                     ~ acceptable (dict_row fieldnames record) s
                     /\ row_number err = 2 + Z.of_nat k /\ is_Some (raw_data err)
                     /\ (field err = None \/ field err = Some "transaction_id")
                 end).
  { intros k record Hk.
    destruct (Hrs k (dict_row fieldnames record)) as (r & Hr1 & Hr2).
    { rewrite list_lookup_fmap, Hk. reflexivity. }
    destruct (parse_row_rectangular (2 + Z.of_nat k) _ s (Hrec k record Hk)) as (r' & Hr' & Hp).
    rewrite Hr2 in Hr'. injection Hr' as <-. eauto. }
  assert (Hinv : forall k r, rs !! k = Some r -> exists record, records !! k = Some record).
  { intros k r Hr. apply lookup_lt_Some in Hr. rewrite Hlen in Hr.
    apply lookup_lt_is_Some in Hr. exact Hr. }
  exists (accepted rs), (rejected rs). rewrite Hrun, !app_nil_l.
  unfold len at 1. rewrite length_fmap. fold (len records). rewrite Z.add_0_l.
  split; [reflexivity|]. split.
  { intros rest msg. eapply Hstop. rewrite ?Hrows. rewrite Hrun. reflexivity. }
  split.
  { unfold len. rewrite <- Hlen, <- accepted_rejected_length. lia. }
  split.
  { apply (rejected_increasing rs 2). intros k e Hke.
    destruct (Hinv k _ Hke) as [record Hrk]. destruct (Hk k record Hrk) as (r & Hr & Hp).
    rewrite Hke in Hr. injection Hr as <-. tauto. }
  split.
  { intros e He. apply elem_of_rejected, list_elem_of_lookup in He as [k Hke].
    destruct (Hinv k _ Hke) as [record Hrk]. destruct (Hk k record Hrk) as (r & Hr & Hp).
    rewrite Hke in Hr. injection Hr as <-. destruct Hp as (Hn & Hnum & Hraw & Hf).
    split; [exact Hraw|]. split; [exact Hf|]. eauto 10. }
  split.
  { intros t Ht. apply elem_of_accepted, list_elem_of_lookup in Ht as [k Hkt].
    destruct (Hinv k _ Hkt) as [record Hrk]. destruct (Hk k record Hrk) as (r & Hr & Hp).
    rewrite Hkt in Hr. injection Hr as <-. destruct Hp as [Hacc Ht].
    exists record. split; [eapply list_elem_of_lookup_2; exact Hrk|]. tauto. }
  intros k record Hrk. destruct (Hk k record Hrk) as (r & Hr & Hp). split.
  - intros Hacc. destruct r as [err|t]; [destruct Hp as [Hn _]; contradiction|].
    exists t. split; [|tauto]. apply elem_of_accepted. eapply list_elem_of_lookup_2. exact Hr.
  - intros Hn. destruct r as [err|t]; [|destruct Hp as [Hacc _]; contradiction].
    exists err. split; [|tauto]. apply elem_of_rejected. eapply list_elem_of_lookup_2. exact Hr.
Qed.

(** ** The batch record, exactly *)

Lemma create_batch_exact (filename : string) (s : Session) :
  active s = true -> Z.of_nat (String.length filename) <= 255 ->
  let b := ImportBatch.mk (fresh (dom (import_batches (view s)))) filename pending 0 0 0 None in
  ImportBatchRepository.create filename s
  = (Returned b,
     mkSession (snapshot s) (ImportBatchRepository.put_batch b (view s)) true
       (status_log s ++ [(ImportBatch.batch_id b, pending)])).
Proof.
  intros Ha Hlen b. unfold ImportBatchRepository.create. rewrite bind_run.
  rewrite flush_returning_accepted; [|assumption|].
  - rewrite !bind_run. reflexivity.
  - destruct (255 <? _) eqn:E; [apply Z.ltb_lt in E; lia|reflexivity].
Qed.

Lemma create_batch_Returned (filename : string) (s s' : Session) (b : ImportBatch.t) :
  ImportBatchRepository.create filename s = (Returned b, s') ->
  active s = true
  /\ b = ImportBatch.mk (fresh (dom (import_batches (view s)))) filename pending 0 0 0 None
  /\ s' = mkSession (snapshot s) (ImportBatchRepository.put_batch b (view s)) true
            (status_log s ++ [(ImportBatch.batch_id b, pending)]).
Proof.
  unfold ImportBatchRepository.create, log_status. rewrite bind_run.
  destruct (flush_returning _ _ s) as [[b0|e] s1] eqn:Ef; [|discriminate].
  apply flush_returning_Returned in Ef as (Ha & _ & -> & ->).
  rewrite !bind_run. simpl. intros [= <- <-]. auto.
Qed.

Lemma update_status_exact (batch_id : UUID) (st : ImportStatus) (p e : option Z)
    (d : option ErrorDetails) (s : Session) (b : ImportBatch.t) :
  active s = true -> import_batches (view s) !! batch_id = Some b ->
  let b' := ImportBatch.mk (ImportBatch.batch_id b) (ImportBatch.filename b) st
              (ImportBatch.total_rows b)
              (default (ImportBatch.processed_rows b) p)
              (default (ImportBatch.error_rows b) e)
              (match d with Some x => Some x | None => ImportBatch.error_details b end) in
  ImportBatchRepository.update_status batch_id st p e d s
  = (Returned (Some b'),
     mkSession (snapshot s) (ImportBatchRepository.put_batch b' (view s)) true
       (status_log s ++ [(batch_id, st)])).
Proof.
  intros Ha Hb b'.
  unfold ImportBatchRepository.update_status, flush, flush_returning, log_status, execute.
  rewrite bind_run, Ha, Hb. rewrite !bind_run. simpl. rewrite Ha. reflexivity.
Qed.

Lemma update_status_inactive (batch_id : UUID) (st : ImportStatus) (p e : option Z)
    (d : option ErrorDetails) (s : Session) :
  active s = false ->
  ImportBatchRepository.update_status batch_id st p e d s = (Raised PendingRollbackError, s).
Proof.
  intros Ha. unfold ImportBatchRepository.update_status, execute.
  rewrite bind_run, Ha. reflexivity.
Qed.

(** ** What the parser reads of the session *)

Section Frame.
Context {parsers : FieldParsers}.

Lemma parse_row_frame (row_num : Z) (row : RawRow) (s1 s2 : Session) :
  active s1 = active s2 -> transactions (view s1) = transactions (view s2) ->
  (parse_row row_num row s1).1 = (parse_row row_num row s2).1.
Proof.
  intros Ha Ht. rewrite !parse_row_run. unfold stored_ids. rewrite Ha, Ht. reflexivity.
Qed.

Lemma parse_rows_frame (rows : list RawRow) (s1 s2 : Session) :
  active s1 = active s2 -> transactions (view s1) = transactions (view s2) ->
  forall row_num valid errs total,
  (parse_rows rows row_num valid errs total s1).1
  = (parse_rows rows row_num valid errs total s2).1.
Proof.
  intros Ha Ht. induction rows as [|row rest IH]; intros n valid errs total.
  - reflexivity.
  - cbn [parse_rows]. rewrite !bind_run.
    pose proof (parse_row_frame n row s1 s2 Ha Ht) as Hf.
    destruct (parse_row n row s1) as [r1 s1'] eqn:E1.
    destruct (parse_row n row s2) as [r2 s2'] eqn:E2.
    assert (s1' = s1) as -> by (eapply read_only_run; [apply read_only_parse_row|exact E1]).
    assert (s2' = s2) as -> by (eapply read_only_run; [apply read_only_parse_row|exact E2]).
    simpl in Hf. subst r2. destruct r1 as [[err|t]|e]; [apply IH|apply IH|reflexivity].
Qed.

(** The parser reads nothing of the session but whether it is active and
    which transactions are stored. *)
Lemma parse_csv_frame (file : FileContent) (s1 s2 : Session) :
  active s1 = active s2 -> transactions (view s1) = transactions (view s2) ->
  (_parse_csv file s1).1 = (_parse_csv file s2).1.
Proof.
  intros Ha Ht. unfold _parse_csv.
  destruct file as [|[|[|h fn] body]|[|[|h fn] body] rest msg]; try reflexivity.
  - destruct (negb _); [reflexivity|]. apply parse_rows_frame; assumption.
  - destruct (negb _); [reflexivity|]. unfold mbind, M_bind.
    pose proof (parse_rows_frame (DictReader_rows (h :: fn) body) s1 s2 Ha Ht 2 [] [] 0) as Hf.
    destruct (parse_rows _ _ _ _ _ s1) as [[x1|e1] s1'], (parse_rows _ _ _ _ _ s2) as [[x2|e2] s2'];
      simpl in *; unfold raise; simpl; congruence.
Qed.

Lemma parse_csv_at (file : FileContent) (s1 s2 : Session) r :
  active s1 = active s2 -> transactions (view s1) = transactions (view s2) ->
  _parse_csv file s1 = (r, s1) -> _parse_csv file s2 = (r, s2).
Proof.
  intros Ha Ht E. pose proof (parse_csv_frame file s1 s2 Ha Ht) as Hf.
  rewrite E in Hf. simpl in Hf.
  destruct (_parse_csv file s2) as [r2 s2'] eqn:E2.
  assert (s2' = s2) as -> by (eapply read_only_run; [apply read_only_parse_csv|exact E2]).
  simpl in Hf. congruence.
Qed.
End Frame.

(** ** Imports that fail while parsing *)

Section ParseFailure.
Context {parsers : FieldParsers} {writers : ConcurrentWriters}.

Lemma import_csv_parse_Raised (self : ImportService) (file : FileContent) (filename : string)
    (s : Session) (e : exn) :
  active s = true -> Z.of_nat (String.length filename) <= 255 ->
  _parse_csv file s = (Raised e, s) ->
  import_csv self file filename s
  = (Raised e,
     if import_batch_repo self then
       let b := ImportBatch.mk (fresh (dom (import_batches (view s)))) filename pending 0 0 0
                  None in
       let b' := ImportBatch.mk (ImportBatch.batch_id b) filename failed 0 0 0
                   (Some (str_of (exn_str e))) in
       mkSession (snapshot s)
         (ImportBatchRepository.put_batch b' (ImportBatchRepository.put_batch b (view s))) true
         ((status_log s ++ [(ImportBatch.batch_id b, pending)])
            ++ [(ImportBatch.batch_id b, failed)])
     else s).
Proof.
  intros Ha Hlen Hp. unfold import_csv. destruct (import_batch_repo self).
  - rewrite bind_run, bind_run, create_batch_exact by assumption. cbv beta iota zeta.
    rewrite ret_run. cbv beta iota.
    set (b := ImportBatch.mk _ filename pending 0 0 0 None).
    set (sb := mkSession _ _ true _).
    unfold try_except. rewrite bind_run.
    rewrite (parse_csv_at file s sb (Raised e)) by (try assumption; reflexivity).
    cbv beta iota. rewrite bind_run, bind_run.
    rewrite (update_status_exact _ _ _ _ _ sb b); [|reflexivity|].
    + cbv beta iota zeta. rewrite ret_run. cbv beta iota. rewrite raise_run. reflexivity.
    + subst sb. simpl. apply lookup_insert_eq.
  - rewrite bind_run, ret_run. cbv beta iota. unfold try_except. rewrite bind_run, Hp.
    cbv beta iota. rewrite bind_run, ret_run. cbv beta iota. rewrite raise_run. reflexivity.
Qed.

(** Whenever the parser raises, so does the import. *)
Lemma import_csv_parse_Raised_any (self : ImportService) (file : FileContent)
    (filename : string) (s : Session) :
  (forall s0, exists e, _parse_csv file s0 = (Raised e, s0)) ->
  exists e s', import_csv self file filename s = (Raised e, s')
    /\ (transactions (view s') = transactions (view s) \/ view s' = snapshot s).
Proof.
  intros Hp.
  destruct (until_process self file filename s) as [[[[batch valid] errs]|e] s1] eqn:Eu.
  - exfalso. revert Eu. unfold until_process. rewrite bind_run.
    destruct (import_batch_repo self).
    + rewrite bind_run.
      destruct (ImportBatchRepository.create filename s) as [[b0|e0] s0]; [|discriminate].
      rewrite ret_run. cbv beta iota. rewrite bind_run. destruct (Hp s0) as [e ->].
      discriminate.
    + rewrite ret_run. cbv beta iota. rewrite bind_run. destruct (Hp s) as [e ->].
      discriminate.
  - apply (import_csv_prefix_Raised self file filename s s1 e Eu).
Qed.
End ParseFailure.

(** X3: a data record with more cells than the header has names makes the
    parser raise, on every session and wherever the record stands: the row
    cannot be validated, and the error record that should report it cannot
    be built either.  The import call raises in turn and stores no
    transaction; on an active session it raises that same exception. *)
Theorem long_record_aborts_import {parsers : FieldParsers} {writers : ConcurrentWriters}
    (self : ImportService) (fieldnames : list string) (body : list (list string))
    (record : list string) (filename : string) (s : Session) :
  (forall h, h ∈ required_headers -> h ∈ fieldnames) ->
  record ∈ body ->
  (length fieldnames < length record)%nat ->
  _parse_csv (utf8_text (fieldnames :: body)) s
  = (Raised (PydanticValidationError "ValidationError"), s)
  /\ (exists e s',
        import_csv self (utf8_text (fieldnames :: body)) filename s = (Raised e, s')
        /\ (transactions (view s') = transactions (view s) \/ view s' = snapshot s))
  /\ (active s = true -> Z.of_nat (String.length filename) <= 255 ->
      exists s',
        import_csv self (utf8_text (fieldnames :: body)) filename s
        = (Raised (PydanticValidationError "ValidationError"), s')
        /\ transactions (view s') = transactions (view s)).
Proof.
  intros Hhdr Hin Hlong.
  assert (Hp : forall s0, _parse_csv (utf8_text (fieldnames :: body)) s0
                          = (Raised (PydanticValidationError "ValidationError"), s0)).
  { intros s0. rewrite parse_csv_headers_ok by exact Hhdr.
    apply (parse_rows_raises _ s0 (dict_row fieldnames record)).
    - unfold DictReader_rows. apply list_elem_of_fmap. exists record. split; [reflexivity|].
      apply list_elem_of_In, filter_In. split; [apply list_elem_of_In; exact Hin|].
      destruct record; [simpl in Hlong; lia|reflexivity].
    - intros n. rewrite parse_row_run. unfold TransactionCSVRow, raw_data_input, dict_row.
      cbn [restkey]. apply Nat.ltb_lt in Hlong. rewrite Hlong. reflexivity. }
  split; [apply Hp|]. split.
  - apply import_csv_parse_Raised_any. intros s0. eauto.
  - intros Ha Hlen. rewrite (import_csv_parse_Raised self _ filename s _ Ha Hlen (Hp s)).
    eexists. split; [reflexivity|]. destruct (import_batch_repo self); reflexivity.
Qed.

(** X4: when the parser raises on an active session (the bytes are not
    UTF-8, or a row cannot be reported), the import call raises the same
    exception, the session stays usable and no transaction, customer or
    product is written.  With batch tracking the new batch record is left
    with the status [failed] and the text of the exception. *)
Theorem parse_failure_marks_batch_failed {parsers : FieldParsers}
    {writers : ConcurrentWriters} (self : ImportService) (file : FileContent)
    (filename : string) (s : Session) (e : exn) :
  active s = true -> Z.of_nat (String.length filename) <= 255 ->
  _parse_csv file s = (Raised e, s) ->
  exists s',
    import_csv self file filename s = (Raised e, s')
    /\ active s' = true /\ snapshot s' = snapshot s
    /\ transactions (view s') = transactions (view s)
    /\ customers (view s') = customers (view s)
    /\ products (view s') = products (view s)
    /\ (import_batch_repo self = false -> s' = s)
    /\ (import_batch_repo self = true ->
        exists id, (id ∉ dom (import_batches (view s)))
          /\ import_batches (view s')
             = <[id := ImportBatch.mk id filename failed 0 0 0 (Some (str_of (exn_str e)))]>
                 (import_batches (view s))
          /\ status_log s' = status_log s ++ [(id, pending); (id, failed)]).
Proof.
  intros Ha Hlen Hp. rewrite (import_csv_parse_Raised self file filename s e Ha Hlen Hp).
  eexists. split; [reflexivity|].
  destruct (import_batch_repo self); simpl.
  - repeat split; auto; try discriminate. intros _.
    exists (fresh (dom (import_batches (view s)))). split; [apply is_fresh|].
    split; [apply insert_insert_eq|]. rewrite <- app_assoc. reflexivity.
  - repeat split; auto. discriminate.
Qed.

(** ** Imports that fail while storing *)

Section StorageFailure.
Context {parsers : FieldParsers} {writers : ConcurrentWriters}.

Lemma until_process_batch (self : ImportService) (file : FileContent) (filename : string)
    (s s1 : Session) batch valid errs :
  until_process self file filename s = (Returned (batch, valid, errs), s1) ->
  is_Some batch <-> import_batch_repo self = true.
Proof.
  unfold until_process. rewrite bind_run. destruct (import_batch_repo self).
  - rewrite bind_run.
    destruct (ImportBatchRepository.create filename s) as [[b0|e0] s0]; [|discriminate].
    rewrite ret_run. cbv beta iota. rewrite bind_run.
    destruct (_parse_csv file s0) as [[[[v er] tot]|e] sp]; [|discriminate].
    cbv beta iota. rewrite bind_run.
    destruct ((_ ← ImportBatchRepository.update_status _ _ _ _ _; mret ()) sp)
      as [[[]|e] su]; [|discriminate].
    rewrite ret_run. intros [= <- _ _ _]. split; eauto.
  - rewrite ret_run. cbv beta iota. rewrite bind_run.
    destruct (_parse_csv file s) as [[[[v er] tot]|e] sp]; [|discriminate].
    cbv beta iota. rewrite bind_run, ret_run. cbv beta iota. rewrite ret_run.
    intros [= <- _ _ _]. split; [intros [? ?]|]; discriminate.
Qed.
End StorageFailure.

(** X5: when storing the surviving rows raises (entity resolution or the
    bulk insert), the session is rolled back and unusable.  Without batch
    tracking the import call raises that exception.  With batch tracking
    the attempt to mark the batch failed is itself refused by the session:
    the caller gets the session's pending-rollback error instead of the
    cause, no [failed] status is recorded, and the batch record is rolled
    back with everything else. *)
Theorem storage_failure_hides_cause {parsers : FieldParsers} {writers : ConcurrentWriters}
    (self : ImportService) (file : FileContent) (filename : string) (s s1 s2 : Session)
    batch valid errs (e : exn) :
  until_process self file filename s = (Returned (batch, valid, errs), s1) ->
  valid <> [] ->
  _process_transactions valid s1 = (Raised e, s2) ->
  import_csv self file filename s
  = (Raised (if import_batch_repo self then PendingRollbackError else e), s2)
  /\ active s2 = false
  /\ status_log s2 = status_log s1
  /\ view s2 = snapshot s.
Proof.
  intros Eu Hne Ep.
  pose proof (until_process_batch self file filename s s1 batch valid errs Eu) as Hb.
  pose proof (until_process_run self file filename s s1 batch valid errs Eu)
    as (Hsnap & _ & _ & _ & Hact & Hval).
  pose proof (process_transactions_run valid s1 s2 (Raised e) Hne Ep) as (Ha2 & Hlog & Hs2 & Hv2).
  assert (Ha : active s = true).
  { destruct valid as [|t valid']; [contradiction|]. apply (Hval t). left. }
  rewrite (import_csv_from_process self file filename s s1 batch valid errs Eu).
  assert (Er : import_rest batch valid errs s1 = (Raised e, s2)).
  { unfold import_rest. rewrite bind_run.
    destruct valid as [|t valid']; [contradiction|]. cbn [is_nil negb]. rewrite Ep.
    reflexivity. }
  rewrite (try_Raised _ _ s1 s2 e Er).
  split.
  - unfold import_failed. rewrite bind_run. destruct (import_batch_repo self).
    + destruct batch as [b|]; [|destruct (proj2 Hb eq_refl); discriminate].
      rewrite bind_run, update_status_inactive by exact Ha2. reflexivity.
    + destruct batch as [b|];
        [assert (false = true) by (apply Hb; eauto); discriminate|].
      rewrite ret_run. cbv beta iota. rewrite raise_run. reflexivity.
  - split; [exact Ha2|]. split; [exact Hlog|]. rewrite Hv2, Hsnap; congruence.
Qed.

(** ** The repositories in closed form *)

Section Exact.
Context {writers : ConcurrentWriters}.

Lemma session_eta (s : Session) :
  s = mkSession (snapshot s) (view s) (active s) (status_log s).
Proof. destruct s. reflexivity. Qed.

Lemma missing_ids_eq (ids c : gset UUID) : ids ∖ (ids ∩ c) = ids ∖ c.
Proof. apply set_eq. intros x. destruct (decide (x ∈ c)); set_solver. Qed.

Lemma existing_missing (ids c : gset UUID) : ids ∩ c ∪ ids ∖ c = ids.
Proof. apply set_eq. intros x. destruct (decide (x ∈ c)); set_solver. Qed.

Lemma union_missing (ids c : gset UUID) : c ∪ ids ∖ c = c ∪ ids.
Proof. apply set_eq. intros x. destruct (decide (x ∈ c)); set_solver. Qed.

Lemma nothing_missing (ids c : gset UUID) : ids ∖ c = ∅ -> ids ∩ c = ids /\ c ∪ ids = c.
Proof.
  intros H. split; apply set_eq; intros x; destruct (decide (x ∈ c)); set_solver.
Qed.

Lemma customers_bulk_exact (ids : gset UUID) (s : Session) :
  active s = true ->
  CustomerRepository.get_or_create_bulk ids s
  = if decide ((ids ∖ customers (view s)) ∩ racing_customers = ∅)
    then (Returned ids,
          mkSession (snapshot s) (CustomerRepository.add_customers ids (view s)) true
            (status_log s))
    else (Raised (IntegrityError "customers"), rolled_back s).
Proof.
  intros Ha. unfold CustomerRepository.get_or_create_bulk, flush. rewrite bind_run.
  rewrite execute_active by exact Ha. cbv beta iota zeta.
  rewrite missing_ids_eq.
  destruct (decide (ids ∖ customers (view s) ≠ ∅)) as [Hm|Hm].
  - rewrite bind_run. destruct (decide ((ids ∖ customers (view s)) ∩ racing_customers = ∅))
      as [Hr|Hr].
    + rewrite flush_returning_accepted; [|exact Ha|].
      * cbv beta iota. rewrite ret_run. simpl. rewrite existing_missing.
        unfold CustomerRepository.add_customers. rewrite union_missing. reflexivity.
      * rewrite decide_True; [reflexivity|]. set_solver.
    + rewrite (flush_returning_rejected _ _ s (IntegrityError "customers")); [reflexivity|exact Ha|].
      rewrite decide_False; [reflexivity|]. set_solver.
  - rewrite ret_run. assert (Hm' : ids ∖ customers (view s) = ∅).
    { destruct (decide (ids ∖ customers (view s) = ∅)) as [E|E]; [exact E|contradiction]. }
    rewrite Hm'. rewrite decide_True by set_solver.
    destruct (nothing_missing _ _ Hm') as [-> Hu].
    f_equal. rewrite (session_eta s) at 1. rewrite Ha. f_equal.
    unfold CustomerRepository.add_customers. rewrite Hu. destruct (view s). reflexivity.
Qed.

Lemma products_bulk_exact (ids : gset UUID) (s : Session) :
  active s = true ->
  ProductRepository.get_or_create_bulk ids s
  = if decide ((ids ∖ products (view s)) ∩ racing_products = ∅)
    then (Returned ids,
          mkSession (snapshot s) (ProductRepository.add_products ids (view s)) true
            (status_log s))
    else (Raised (IntegrityError "products"), rolled_back s).
Proof.
  intros Ha. unfold ProductRepository.get_or_create_bulk, flush. rewrite bind_run.
  rewrite execute_active by exact Ha. cbv beta iota zeta.
  rewrite missing_ids_eq.
  destruct (decide (ids ∖ products (view s) ≠ ∅)) as [Hm|Hm].
  - rewrite bind_run. destruct (decide ((ids ∖ products (view s)) ∩ racing_products = ∅))
      as [Hr|Hr].
    + rewrite flush_returning_accepted; [|exact Ha|].
      * cbv beta iota. rewrite ret_run. simpl. rewrite existing_missing.
        unfold ProductRepository.add_products. rewrite union_missing. reflexivity.
      * rewrite decide_True; [reflexivity|]. set_solver.
    + rewrite (flush_returning_rejected _ _ s (IntegrityError "products")); [reflexivity|exact Ha|].
      rewrite decide_False; [reflexivity|]. set_solver.
  - rewrite ret_run. assert (Hm' : ids ∖ products (view s) = ∅).
    { destruct (decide (ids ∖ products (view s) = ∅)) as [E|E]; [exact E|contradiction]. }
    rewrite Hm'. rewrite decide_True by set_solver.
    destruct (nothing_missing _ _ Hm') as [-> Hu].
    f_equal. rewrite (session_eta s) at 1. rewrite Ha. f_equal.
    unfold ProductRepository.add_products. rewrite Hu. destruct (view s). reflexivity.
Qed.

Lemma create_bulk_exact (data : list TransactionCreate) (s : Session) :
  active s = true -> data <> [] ->
  TransactionRepository.create_bulk data s
  = match mapM Transaction_of data with
    | None => (Raised (DataError "value out of range"), rolled_back s)
    | Some rows =>
        if TransactionRepository.insert_ok (view s) rows
        then (Returned rows,
              mkSession (snapshot s) (TransactionRepository.add_transactions rows (view s)) true
                (status_log s))
        else (Raised (IntegrityError "transactions"), rolled_back s)
    end.
Proof.
  intros Ha Hne. unfold TransactionRepository.create_bulk, flush.
  destruct data as [|d data']; [contradiction|]. cbn [is_nil].
  destruct (mapM Transaction_of (d :: data')) as [rows|]; rewrite bind_run.
  - destruct (TransactionRepository.insert_ok (view s) rows) eqn:Hok.
    + rewrite flush_returning_accepted; [|exact Ha|rewrite Hok; reflexivity].
      cbv beta iota. rewrite ret_run. reflexivity.
    + rewrite (flush_returning_rejected _ _ s (IntegrityError "transactions"));
        [reflexivity|exact Ha|rewrite Hok; reflexivity].
  - rewrite (flush_returning_rejected _ _ s (DataError "value out of range"));
      [reflexivity|exact Ha|reflexivity].
Qed.
End Exact.

(** ** Rows on their way to the table *)

Lemma Transaction_of_Some (t : TransactionCreate) (r : Transaction.t) :
  Transaction_of t = Some r ->
  to_numeric_10_2 (amount t) = Some (Transaction.amount r)
  /\ fits_integer (quantity t) = true
  /\ r = Transaction.mk (transaction_id t) (timestamp t) (Transaction.amount r) (currency t)
           (quantity t) (customer_id t) (product_id t).
Proof.
  unfold Transaction_of. destruct (to_numeric_10_2 (amount t)) as [cents|]; [|discriminate].
  destruct (fits_integer (quantity t)); [|discriminate]. intros [= <-]. auto.
Qed.

Lemma mapM_Transaction_of_Forall2 (data : list TransactionCreate) (rows : list Transaction.t) :
  mapM Transaction_of data = Some rows ->
  Forall2 (fun t r => Transaction_of t = Some r) data rows.
Proof. apply mapM_Some_1. Qed.

Lemma mapM_Transaction_of_elem (data : list TransactionCreate) (rows : list Transaction.t)
    (r : Transaction.t) :
  mapM Transaction_of data = Some rows -> r ∈ rows ->
  exists t, t ∈ data /\ Transaction_of t = Some r.
Proof.
  intros Hm Hr. apply mapM_Transaction_of_Forall2 in Hm.
  apply list_elem_of_lookup in Hr as [i Hi].
  destruct (Forall2_lookup_r _ _ _ _ _ Hm Hi) as (t & Ht & Hof).
  exists t. split; [eapply list_elem_of_lookup_2; exact Ht|exact Hof].
Qed.

Lemma mapM_Transaction_of_elem_l (data : list TransactionCreate) (rows : list Transaction.t)
    (t : TransactionCreate) :
  mapM Transaction_of data = Some rows -> t ∈ data ->
  exists r, r ∈ rows /\ Transaction_of t = Some r.
Proof.
  intros Hm Ht. apply mapM_Transaction_of_Forall2 in Hm.
  apply list_elem_of_lookup in Ht as [i Hi].
  destruct (Forall2_lookup_l _ _ _ _ _ Hm Hi) as (r & Hr & Hof).
  exists r. split; [eapply list_elem_of_lookup_2; exact Hr|exact Hof].
Qed.

Section Resolved.
Context {writers : ConcurrentWriters}.

(** The database as [_process_transactions] has it when it inserts: the
    customers and products of the rows have been resolved. *)
Lemma insert_ok_resolved (data : list TransactionCreate) (rows : list Transaction.t) (db : DB) :
  mapM Transaction_of data = Some rows ->
  TransactionRepository.insert_ok
    (ProductRepository.add_products (list_to_set (product_id <$> data))
       (CustomerRepository.add_customers (list_to_set (customer_id <$> data)) db)) rows = true
  <-> NoDup (transaction_id <$> data)
      /\ forall t, t ∈ data ->
           (transaction_id t ∉ stored_ids db) /\ (transaction_id t ∉ racing_transactions).
Proof.
  intros Hm. unfold TransactionRepository.insert_ok.
  rewrite (mapM_Transaction_of_ids data rows Hm).
  rewrite andb_true_iff, bool_decide_eq_true, forallb_forall.
  split; intros [Hnd Hall]; (split; [exact Hnd|]).
  - intros t Ht. destruct (mapM_Transaction_of_elem_l data rows t Hm Ht) as (r & Hr & Hof).
    apply list_elem_of_In, Hall in Hr.
    rewrite (Transaction_of_id t r Hof) in Hr.
    rewrite !andb_true_iff, !bool_decide_eq_true in Hr. simpl in Hr. tauto.
  - intros r Hr. apply list_elem_of_In in Hr.
    destruct (mapM_Transaction_of_elem data rows r Hm Hr) as (t & Ht & Hof).
    destruct (Hall t Ht) as [Hs Hrace].
    apply Transaction_of_Some in Hof as (_ & _ & ->). simpl.
    rewrite !andb_true_iff, !bool_decide_eq_true. simpl.
    repeat split; [exact Hs|exact Hrace| |].
    + apply elem_of_union_r, elem_of_list_to_set, list_elem_of_fmap. eauto.
    + apply elem_of_union_r, elem_of_list_to_set, list_elem_of_fmap. eauto.
Qed.

(** [_process_transactions] on an active session, in closed form. *)
Lemma process_transactions_exact (data : list TransactionCreate) (s : Session) :
  active s = true -> data <> [] ->
  let cids : gset UUID := list_to_set (customer_id <$> data) in
  let pids : gset UUID := list_to_set (product_id <$> data) in
  let db := ProductRepository.add_products pids
              (CustomerRepository.add_customers cids (view s)) in
  _process_transactions data s
  = if decide ((cids ∖ customers (view s)) ∩ racing_customers = ∅) then
      if decide ((pids ∖ products (view s)) ∩ racing_products = ∅) then
        match mapM Transaction_of data with
        | None => (Raised (DataError "value out of range"), rolled_back s)
        | Some rows =>
            if TransactionRepository.insert_ok db rows
            then (Returned (),
                  mkSession (snapshot s) (TransactionRepository.add_transactions rows db) true
                    (status_log s))
            else (Raised (IntegrityError "transactions"), rolled_back s)
        end
      else (Raised (IntegrityError "products"), rolled_back s)
    else (Raised (IntegrityError "customers"), rolled_back s).
Proof.
  intros Ha Hne cids pids db. unfold _process_transactions. fold cids pids.
  rewrite bind_run, customers_bulk_exact by exact Ha.
  destruct (decide ((cids ∖ customers (view s)) ∩ racing_customers = ∅)); [|reflexivity].
  cbv beta iota. rewrite bind_run, products_bulk_exact by reflexivity. cbn [view snapshot status_log].
  cbn [CustomerRepository.add_customers products].
  destruct (decide ((pids ∖ products (view s)) ∩ racing_products = ∅)); [|reflexivity].
  cbv beta iota. rewrite bind_run, create_bulk_exact by (try exact Hne; reflexivity).
  cbn [view snapshot status_log]. fold db.
  destruct (mapM Transaction_of data) as [rows|]; [|reflexivity].
  destruct (TransactionRepository.insert_ok db rows); [|reflexivity].
  cbv beta iota. rewrite ret_run. reflexivity.
Qed.
End Resolved.

(** ** Imports that return *)

Section Returns.
Context {parsers : FieldParsers} {writers : ConcurrentWriters}.

Lemma import_csv_Returned (self : ImportService) (file : FileContent) (filename : string)
    (s s' : Session) (resp : FileUploadResponse) :
  import_csv self file filename s = (Returned resp, s') ->
  exists batch valid errs s1,
    until_process self file filename s = (Returned (batch, valid, errs), s1)
    /\ import_rest batch valid errs s1 = (Returned resp, s').
Proof.
  intros Ei.
  destruct (until_process self file filename s) as [[[[batch valid] errs]|e] s1] eqn:Eu.
  - exists batch, valid, errs, s1. split; [reflexivity|].
    rewrite (import_csv_from_process self file filename s s1 batch valid errs Eu) in Ei.
    destruct (import_rest batch valid errs s1) as [[resp'|e] s2] eqn:Er.
    + rewrite (try_Returned _ _ s1 s2 resp' Er) in Ei. exact Ei.
    + rewrite (try_Raised _ _ s1 s2 e Er) in Ei.
      apply import_failed_run in Ei as [[e' ?] _]. discriminate.
  - destruct (import_csv_prefix_Raised self file filename s s1 e Eu) as (e' & s2 & E2 & _).
    rewrite E2 in Ei. discriminate.
Qed.

Lemma process_transactions_Returned (data : list TransactionCreate) (s s' : Session) (u : ()) :
  data <> [] ->
  _process_transactions data s = (Returned u, s') ->
  active s = true
  /\ exists rows,
       mapM Transaction_of data = Some rows
       /\ NoDup (transaction_id <$> data)
       /\ (forall t, t ∈ data ->
             (transaction_id t ∉ stored_ids (view s))
             /\ (transaction_id t ∉ racing_transactions))
       /\ ((list_to_set (customer_id <$> data) ∖ customers (view s)) ∩ racing_customers = ∅)
       /\ ((list_to_set (product_id <$> data) ∖ products (view s)) ∩ racing_products = ∅)
       /\ s' = mkSession (snapshot s)
                 (TransactionRepository.add_transactions rows
                    (ProductRepository.add_products (list_to_set (product_id <$> data))
                       (CustomerRepository.add_customers
                          (list_to_set (customer_id <$> data)) (view s))))
                 true (status_log s).
Proof.
  intros Hne Ep.
  pose proof (process_transactions_run data s s' (Returned u) Hne Ep)
    as (rows0 & _ & _ & _ & _ & _ & Ha & _).
  split; [exact Ha|]. rewrite process_transactions_exact in Ep by assumption.
  cbv zeta in Ep.
  destruct (decide _) as [Hc|]; [|discriminate].
  destruct (decide _) as [Hp|]; [|discriminate].
  destruct (mapM Transaction_of data) as [rows|] eqn:Hm; [|discriminate].
  destruct (TransactionRepository.insert_ok _ rows) eqn:Hok; [|discriminate].
  apply (insert_ok_resolved data rows (view s) Hm) in Hok as [Hnd Hall].
  injection Ep as _ <-. exists rows. auto 10.
Qed.

Lemma process_transactions_accepts (data : list TransactionCreate) (rows : list Transaction.t)
    (s : Session) :
  active s = true -> data <> [] ->
  mapM Transaction_of data = Some rows ->
  NoDup (transaction_id <$> data) ->
  (forall t, t ∈ data ->
     (transaction_id t ∉ stored_ids (view s)) /\ (transaction_id t ∉ racing_transactions)) ->
  (list_to_set (customer_id <$> data) ∖ customers (view s)) ∩ racing_customers = ∅ ->
  (list_to_set (product_id <$> data) ∖ products (view s)) ∩ racing_products = ∅ ->
  _process_transactions data s
  = (Returned (),
     mkSession (snapshot s)
       (TransactionRepository.add_transactions rows
          (ProductRepository.add_products (list_to_set (product_id <$> data))
             (CustomerRepository.add_customers (list_to_set (customer_id <$> data)) (view s))))
       true (status_log s)).
Proof.
  intros Ha Hne Hm Hnd Hall Hc Hp. rewrite process_transactions_exact by assumption.
  cbv zeta. rewrite (decide_True _ _ Hc), (decide_True _ _ Hp), Hm.
  rewrite (proj2 (insert_ok_resolved data rows (view s) Hm)) by auto. reflexivity.
Qed.

(** The step of [import_csv] that stores the surviving rows, if any. *)
Lemma process_if_any_Returned (valid : list TransactionCreate) (s s2 : Session) (u : ()) :
  (if negb (is_nil valid) then _process_transactions valid else mret ()) s = (Returned u, s2) ->
  exists rows,
    mapM Transaction_of valid = Some rows
    /\ NoDup (transaction_id <$> valid)
    /\ (forall t, t ∈ valid ->
          (transaction_id t ∉ stored_ids (view s)) /\ (transaction_id t ∉ racing_transactions))
    /\ transactions (view s2) = transactions (view s) ++ rows
    /\ customers (view s2) = customers (view s) ∪ list_to_set (customer_id <$> valid)
    /\ products (view s2) = products (view s) ∪ list_to_set (product_id <$> valid)
    /\ import_batches (view s2) = import_batches (view s)
    /\ snapshot s2 = snapshot s /\ status_log s2 = status_log s /\ active s2 = active s.
Proof.
  destruct valid as [|t valid']; cbn [is_nil negb].
  - rewrite ret_run. intros [= _ <-]. exists []. simpl.
    rewrite app_nil_r, !union_empty_r_L.
    split; [reflexivity|]. split; [apply NoDup_nil_2|].
    split; [intros t Ht; inversion Ht|]. auto 10.
  - intros Ep. apply process_transactions_Returned in Ep
      as (Ha & rows & Hm & Hnd & Hall & _ & _ & ->); [|discriminate].
    exists rows. simpl. rewrite Ha. auto 12.
Qed.

(** What [import_csv] does after parsing, when it returns. *)
Lemma import_rest_Returned (batch : option ImportBatch.t) (valid : list TransactionCreate)
    (errs : list ValidationError) (s s' : Session) (resp : FileUploadResponse) :
  import_rest batch valid errs s = (Returned resp, s') ->
  resp = {| message := "Successfully processed " +:+ pretty (len valid) +:+ " transactions";
            processed_count := len valid; error_count := len errs;
            errors := error_entry <$> errs |}
  /\ exists s2 (u : ()),
       (if negb (is_nil valid) then _process_transactions valid else mret ()) s = (Returned u, s2)
       /\ match batch with
          | Some b =>
              exists r, ImportBatchRepository.update_status (ImportBatch.batch_id b) completed
                          (Some (len valid)) (Some (len errs))
                          (if negb (is_nil errs) then Some (json_dumps errs) else None) s2
                        = (Returned r, s')
          | None => s' = s2
          end.
Proof.
  unfold import_rest. rewrite bind_run.
  destruct ((if negb (is_nil valid) then _process_transactions valid else mret ()) s)
    as [[u|e] s2] eqn:Ep; [|discriminate].
  rewrite bind_run. destruct batch as [b|].
  - rewrite bind_run.
    destruct (ImportBatchRepository.update_status _ _ _ _ _ s2) as [[r|e] s3] eqn:Eu;
      [|discriminate].
    mrun. intros [= <- <-].
    split; [reflexivity|]. exists s2, u. eauto.
  - mrun. intros [= <- <-].
    split; [reflexivity|]. exists s2, u. eauto.
Qed.
End Returns.

Section Prefix.
Context {parsers : FieldParsers}.

(** The prefix of the import on an active session, in closed form. *)
Lemma until_process_exact (self : ImportService) (file : FileContent) (filename : string)
    (s : Session) valid errs total :
  active s = true -> Z.of_nat (String.length filename) <= 255 ->
  _parse_csv file s = (Returned (valid, errs, total), s) ->
  until_process self file filename s
  = if import_batch_repo self then
      let b := ImportBatch.mk (fresh (dom (import_batches (view s)))) filename pending 0 0 0
                 None in
      let b1 := ImportBatch.mk (ImportBatch.batch_id b) filename processing 0 0 (len errs)
                  None in
      (Returned (Some b, valid, errs),
       mkSession (snapshot s)
         (ImportBatchRepository.put_batch b1 (ImportBatchRepository.put_batch b (view s))) true
         ((status_log s ++ [(ImportBatch.batch_id b, pending)])
            ++ [(ImportBatch.batch_id b, processing)]))
    else (Returned (None, valid, errs), s).
Proof.
  intros Ha Hlen Hp. unfold until_process. rewrite bind_run.
  destruct (import_batch_repo self).
  - rewrite bind_run, create_batch_exact by assumption. cbv beta iota zeta.
    rewrite ret_run. cbv beta iota.
    set (b := ImportBatch.mk _ filename pending 0 0 0 None).
    set (sb := mkSession _ _ true _).
    rewrite bind_run.
    rewrite (parse_csv_at file s sb (Returned (valid, errs, total)))
      by (try assumption; reflexivity).
    cbv beta iota. rewrite bind_run, bind_run.
    rewrite (update_status_exact _ _ _ _ _ sb b); [|reflexivity|apply lookup_insert_eq].
    cbv beta iota zeta. rewrite ret_run. cbv beta iota. rewrite ret_run. reflexivity.
  - rewrite ret_run. cbv beta iota. rewrite bind_run, Hp. cbv beta iota.
    rewrite bind_run, ret_run. cbv beta iota. rewrite ret_run. reflexivity.
Qed.

(** The rows and errors the import works with are those the parser
    returns on the session as the caller gave it. *)
Lemma until_process_parse (self : ImportService) (file : FileContent) (filename : string)
    (s s1 : Session) batch valid errs :
  until_process self file filename s = (Returned (batch, valid, errs), s1) ->
  exists total, _parse_csv file s = (Returned (valid, errs, total), s).
Proof.
  unfold until_process. rewrite bind_run. destruct (import_batch_repo self).
  - rewrite bind_run.
    destruct (ImportBatchRepository.create filename s) as [[b0|e0] s0] eqn:Ec; [|discriminate].
    apply create_batch_run in Ec as (_ & Ht & _ & _ & Ha & Ha0 & _).
    rewrite ret_run. cbv beta iota. rewrite bind_run.
    destruct (_parse_csv file s0) as [[[[v er] tot]|e] sp] eqn:Ep; [|discriminate].
    assert (sp = s0) as -> by (eapply read_only_run; [apply read_only_parse_csv|exact Ep]).
    cbv beta iota. rewrite bind_run.
    destruct ((_ ← ImportBatchRepository.update_status _ _ _ _ _; mret ()) s0)
      as [[[]|e] su]; [|discriminate].
    rewrite ret_run. intros [= _ <- <- _]. exists tot.
    apply (parse_csv_at file s0 s); [congruence|congruence|exact Ep].
  - rewrite ret_run. cbv beta iota. rewrite bind_run.
    destruct (_parse_csv file s) as [[[[v er] tot]|e] sp] eqn:Ep; [|discriminate].
    assert (sp = s) as -> by (eapply read_only_run; [apply read_only_parse_csv|exact Ep]).
    cbv beta iota. rewrite bind_run, ret_run. cbv beta iota. rewrite ret_run.
    intros [= _ <- <- _]. eauto.
Qed.

Lemma until_process_Returned_tracked (self : ImportService) (file : FileContent)
    (filename : string) (s s1 : Session) batch valid errs :
  import_batch_repo self = true ->
  until_process self file filename s = (Returned (batch, valid, errs), s1) ->
  let b := ImportBatch.mk (fresh (dom (import_batches (view s)))) filename pending 0 0 0
             None in
  let b1 := ImportBatch.mk (ImportBatch.batch_id b) filename processing 0 0 (len errs) None in
  active s = true /\ batch = Some b
  /\ s1 = mkSession (snapshot s)
            (ImportBatchRepository.put_batch b1 (ImportBatchRepository.put_batch b (view s)))
            true
            ((status_log s ++ [(ImportBatch.batch_id b, pending)])
               ++ [(ImportBatch.batch_id b, processing)]).
Proof.
  intros Hrepo Eu b b1.
  destruct (until_process_parse self file filename s s1 batch valid errs Eu) as [total Hp].
  assert (Ha : active s = true).
  { revert Eu. unfold until_process. rewrite bind_run, Hrepo, bind_run.
    destruct (ImportBatchRepository.create filename s) as [[b0|e0] s0] eqn:Ec; [|discriminate].
    apply create_batch_run in Ec as (_ & _ & _ & _ & Ha & _). intros _. exact Ha. }
  assert (Hlen : Z.of_nat (String.length filename) <= 255).
  { revert Eu. unfold until_process, ImportBatchRepository.create.
    rewrite bind_run, Hrepo, !bind_run. unfold flush_returning at 1. rewrite Ha.
    destruct (255 <? Z.of_nat (String.length filename)) eqn:E; [discriminate|].
    intros _. apply Z.ltb_ge in E. exact E. }
  rewrite (until_process_exact self file filename s valid errs total Ha Hlen Hp), Hrepo in Eu.
  cbv zeta in Eu. injection Eu as <- <-. auto.
Qed.
End Prefix.

(** X6: an import that returns tells the truth.  The table has grown by
    exactly one row per surviving row of the parser, in file order; their
    identifiers are distinct and were not stored before; their customers
    and products exist afterwards; the counts of the response are the
    numbers of surviving rows and of errors; nothing else of the three
    tables has changed. *)
Theorem import_response_truthful {parsers : FieldParsers} {writers : ConcurrentWriters}
    (self : ImportService) (file : FileContent) (filename : string) (s s' : Session)
    (resp : FileUploadResponse) :
  import_csv self file filename s = (Returned resp, s') ->
  exists valid errs total rows,
    _parse_csv file s = (Returned (valid, errs, total), s)
    /\ mapM Transaction_of valid = Some rows
    /\ processed_count resp = len rows
    /\ error_count resp = len errs
    /\ errors resp = error_entry <$> errs
    /\ transactions (view s') = transactions (view s) ++ rows
    /\ NoDup (Transaction.transaction_id <$> rows)
    /\ (forall r, r ∈ rows ->
          (Transaction.transaction_id r ∉ stored_ids (view s))
          /\ Transaction.customer_id r ∈ customers (view s')
          /\ Transaction.product_id r ∈ products (view s'))
    /\ customers (view s') = customers (view s) ∪ list_to_set (customer_id <$> valid)
    /\ products (view s') = products (view s) ∪ list_to_set (product_id <$> valid)
    /\ snapshot s' = snapshot s /\ active s' = active s.
Proof.
  intros Ei. apply import_csv_Returned in Ei as (batch & valid & errs & s1 & Eu & Er).
  destruct (until_process_parse self file filename s s1 batch valid errs Eu) as [total Hp].
  apply until_process_run in Eu as (Hsnap & Htr & Hcu & Hpr & Hact & _).
  apply import_rest_Returned in Er as (-> & s2 & u & Ep & Hb).
  apply process_if_any_Returned in Ep
    as (rows & Hm & Hnd & Hall & Ht2 & Hc2 & Hp2 & _ & Hs2 & _ & Ha2).
  assert (Hfin : transactions (view s') = transactions (view s2)
                 /\ customers (view s') = customers (view s2)
                 /\ products (view s') = products (view s2)
                 /\ snapshot s' = snapshot s2 /\ active s' = active s2).
  { destruct batch as [b|]; [|subst s'; auto].
    destruct Hb as [r Hu]. apply update_status_run in Hu as (? & ? & ? & ? & ? & ? & _).
    repeat split; congruence. }
  destruct Hfin as (Ht' & Hc' & Hp' & Hs' & Ha').
  exists valid, errs, total, rows. split; [exact Hp|]. split; [exact Hm|].
  split.
  { simpl. unfold len. f_equal.
    exact (Forall2_length _ _ _ (mapM_Transaction_of_Forall2 valid rows Hm)). }
  split; [reflexivity|]. split; [reflexivity|].
  split; [congruence|].
  split; [rewrite (mapM_Transaction_of_ids valid rows Hm); exact Hnd|].
  split.
  { intros r Hr. destruct (mapM_Transaction_of_elem valid rows r Hm Hr) as (t & Ht & Hof).
    apply Transaction_of_Some in Hof as (_ & _ & ->). simpl.
    destruct (Hall t Ht) as [Hns _]. unfold stored_ids in *. rewrite Htr in Hns.
    split; [exact Hns|]. rewrite Hc', Hc2, Hp', Hp2.
    split; apply elem_of_union_r, elem_of_list_to_set, list_elem_of_fmap; eauto. }
  repeat split; congruence.
Qed.

(** X7: with batch tracking, an import that returns leaves one new batch
    record, with status [completed], the file name, the two counts of the
    response, and the errors as its details when there are any; its
    [total_rows] is still 0.  The statuses assigned were [pending],
    [processing], [completed], in this order. *)
Theorem batch_record_matches_response {parsers : FieldParsers} {writers : ConcurrentWriters}
    (self : ImportService) (file : FileContent) (filename : string) (s s' : Session)
    (resp : FileUploadResponse) :
  import_batch_repo self = true ->
  import_csv self file filename s = (Returned resp, s') ->
  exists id errs,
    (id ∉ dom (import_batches (view s)))
    /\ errors resp = error_entry <$> errs
    /\ import_batches (view s')
       = <[id := ImportBatch.mk id filename completed 0 (processed_count resp)
                   (error_count resp)
                   (if is_nil errs then None else Some (json_dumps errs))]>
           (import_batches (view s))
    /\ status_log s' = status_log s ++ [(id, pending); (id, processing); (id, completed)].
Proof.
  intros Hrepo Ei. apply import_csv_Returned in Ei as (batch & valid & errs & s1 & Eu & Er).
  apply (until_process_Returned_tracked self file filename s s1 batch valid errs Hrepo) in Eu
    as (Ha & -> & ->).
  apply import_rest_Returned in Er as (-> & s2 & u & Ep & r & Hu).
  apply process_if_any_Returned in Ep
    as (rows & _ & _ & _ & _ & _ & _ & Hb2 & Hs2 & Hl2 & Ha2).
  simpl in Hb2, Hs2, Hl2, Ha2.
  rewrite (update_status_exact _ _ _ _ _ s2
             (ImportBatch.mk (fresh (dom (import_batches (view s)))) filename processing 0 0
                (len errs) None)) in Hu;
    [|exact Ha2|rewrite Hb2; apply lookup_insert_eq].
  cbv zeta in Hu. injection Hu as _ <-.
  exists (fresh (dom (import_batches (view s)))), errs.
  split; [apply is_fresh|]. split; [reflexivity|]. split.
  - simpl. rewrite Hb2, !insert_insert_eq. destruct errs; reflexivity.
  - simpl. rewrite Hl2, <- !app_assoc. reflexivity.
Qed.

Section Success.
Context {parsers : FieldParsers} {writers : ConcurrentWriters}.

Lemma process_if_any_accepts (valid : list TransactionCreate) (rows : list Transaction.t)
    (s : Session) :
  active s = true ->
  mapM Transaction_of valid = Some rows ->
  NoDup (transaction_id <$> valid) ->
  (forall t, t ∈ valid ->
     (transaction_id t ∉ stored_ids (view s)) /\ (transaction_id t ∉ racing_transactions)) ->
  (list_to_set (customer_id <$> valid) ∖ customers (view s)) ∩ racing_customers = ∅ ->
  (list_to_set (product_id <$> valid) ∖ products (view s)) ∩ racing_products = ∅ ->
  exists s2,
    (if negb (is_nil valid) then _process_transactions valid else mret ()) s = (Returned (), s2)
    /\ active s2 = true
    /\ transactions (view s2) = transactions (view s) ++ rows
    /\ import_batches (view s2) = import_batches (view s).
Proof.
  intros Ha Hm Hnd Hall Hc Hp. destruct valid as [|t valid'] eqn:Ev; cbn [is_nil negb].
  - rewrite ret_run. exists s. injection Hm as <-. rewrite app_nil_r. auto.
  - rewrite <- Ev in *.
    rewrite (process_transactions_accepts valid rows s) by (try assumption; subst; discriminate).
    eexists. split; [reflexivity|]. simpl. auto.
Qed.

Lemma import_rest_accepts (batch : option ImportBatch.t) (valid : list TransactionCreate)
    (errs : list ValidationError) (rows : list Transaction.t) (s : Session) :
  active s = true ->
  mapM Transaction_of valid = Some rows ->
  NoDup (transaction_id <$> valid) ->
  (forall t, t ∈ valid ->
     (transaction_id t ∉ stored_ids (view s)) /\ (transaction_id t ∉ racing_transactions)) ->
  (list_to_set (customer_id <$> valid) ∖ customers (view s)) ∩ racing_customers = ∅ ->
  (list_to_set (product_id <$> valid) ∖ products (view s)) ∩ racing_products = ∅ ->
  exists resp s',
    import_rest batch valid errs s = (Returned resp, s')
    /\ processed_count resp = len valid /\ error_count resp = len errs
    /\ errors resp = error_entry <$> errs
    /\ transactions (view s') = transactions (view s) ++ rows.
Proof.
  intros Ha Hm Hnd Hall Hc Hp.
  destruct (process_if_any_accepts valid rows s Ha Hm Hnd Hall Hc Hp)
    as (s2 & Ep & Ha2 & Ht2 & _).
  unfold import_rest. rewrite bind_run, Ep. cbv beta iota. rewrite bind_run.
  destruct batch as [b|].
  - rewrite bind_run.
    destruct (update_status_active (ImportBatch.batch_id b) completed (Some (len valid))
                (Some (len errs)) (if negb (is_nil errs) then Some (json_dumps errs) else None)
                s2 Ha2) as (r & s3 & Eu).
    rewrite Eu. apply update_status_run in Eu as (_ & Ht3 & _). mrun.
    eexists _, _. split; [reflexivity|]. simpl. repeat split. congruence.
  - mrun. eexists _, _. split; [reflexivity|]. simpl. repeat split. exact Ht2.
Qed.
End Success.

(** X8: the import stores every surviving row when nothing stands in the
    way: on an active session, when the parser returns and its surviving
    rows fit their columns and carry distinct identifiers, and no other
    writer inserts one of these transactions, or a customer or product
    they need, in the meantime, [import_csv] returns and the table has
    grown by these rows.  Errors on other rows do not stand in the way. *)
Theorem import_succeeds {parsers : FieldParsers} {writers : ConcurrentWriters}
    (self : ImportService) (file : FileContent) (filename : string) (s : Session)
    valid errs total (rows : list Transaction.t) :
  active s = true ->
  Z.of_nat (String.length filename) <= 255 ->
  _parse_csv file s = (Returned (valid, errs, total), s) ->
  mapM Transaction_of valid = Some rows ->
  NoDup (transaction_id <$> valid) ->
  (forall t, t ∈ valid -> transaction_id t ∉ racing_transactions) ->
  (list_to_set (customer_id <$> valid) ∖ customers (view s)) ∩ racing_customers = ∅ ->
  (list_to_set (product_id <$> valid) ∖ products (view s)) ∩ racing_products = ∅ ->
  exists resp s',
    import_csv self file filename s = (Returned resp, s')
    /\ processed_count resp = len valid /\ error_count resp = len errs
    /\ errors resp = error_entry <$> errs
    /\ transactions (view s') = transactions (view s) ++ rows.
Proof.
  intros Ha Hlen Hp Hm Hnd Hrace Hc Hpr.
  pose proof (until_process_exact self file filename s valid errs total Ha Hlen Hp) as Eu.
  assert (exists batch s1,
            until_process self file filename s = (Returned (batch, valid, errs), s1)
            /\ active s1 = true)
    as (batch & s1 & Eu1 & Ha1).
  { rewrite Eu. destruct (import_batch_repo self); eexists _, _; split; try reflexivity.
    exact Ha. }
  pose proof (until_process_run self file filename s s1 batch valid errs Eu1)
    as (_ & Htr & Hcu & Hprd & _ & Hval).
  destruct (import_rest_accepts batch valid errs rows s1) as (resp & s' & Er & H1 & H2 & H3 & H4);
    try assumption.
  - intros t Ht. split; [|apply Hrace; exact Ht].
    destruct (Hval t Ht) as [_ Hn]. unfold stored_ids in *. rewrite Htr. exact Hn.
  - rewrite Hcu. exact Hc.
  - rewrite Hprd. exact Hpr.
  - exists resp, s'.
    rewrite (import_csv_from_process self file filename s s1 batch valid errs Eu1).
    rewrite (try_Returned _ _ s1 s' resp Er). rewrite Htr in H4. auto.
Qed.

(** ** Importing a file again *)

Section Again.
Context {parsers : FieldParsers} {writers : ConcurrentWriters}.

Lemma all_rejected (rs : list (ValidationError + TransactionCreate)) :
  (forall r, r ∈ rs -> exists e, r = inl e) ->
  accepted rs = [] /\ length (rejected rs) = length rs.
Proof.
  induction rs as [|r rs IH]; intros H; [auto|].
  destruct (H r) as [e ->]; [left|].
  destruct IH as [IH1 IH2]; [intros r Hr; apply H; right; exact Hr|].
  split; [exact IH1|]. unfold rejected in *. simpl. f_equal. exact IH2.
Qed.

Lemma parse_rows_all_rejected (rows : list RawRow) (s : Session) (row_num : Z) :
  (forall row, row ∈ rows -> is_Some (raw_data_input row) /\ ~ acceptable row s) ->
  exists errs,
    parse_rows rows row_num [] [] 0 s = (Returned ([], errs, len rows), s)
    /\ length errs = length rows.
Proof.
  intros H.
  destruct (parse_rows_total rows s row_num [] [] 0) as (rs & Hrun & Hlen & Hrs).
  { intros i row Hi. apply list_elem_of_lookup_2 in Hi. destruct (H row Hi) as [Hsome _].
    destruct (parse_row_rectangular (row_num + Z.of_nat i) row s Hsome) as (r & Hr & _). eauto. }
  destruct (all_rejected rs) as [Hacc Hrej].
  { intros r Hr. apply list_elem_of_lookup in Hr as [i Hi].
    assert (Hlt : (i < length rows)%nat) by (rewrite <- Hlen; eapply lookup_lt_Some; exact Hi).
    apply lookup_lt_is_Some in Hlt as [row Hrow].
    destruct (Hrs i row Hrow) as (r' & Hr' & Hp). rewrite Hi in Hr'. injection Hr' as <-.
    pose proof (list_elem_of_lookup_2 _ _ _ Hrow) as Hin. destruct (H row Hin) as [Hsome Hn].
    destruct (parse_row_rectangular (row_num + Z.of_nat i) row s Hsome) as (r' & Hr' & Hc).
    rewrite Hp in Hr'. injection Hr' as <-.
    destruct r as [e|t]; [eauto|]. destruct Hc as [Hacc _]. contradiction. }
  exists (rejected rs). rewrite Hrun, Hacc, !app_nil_l, Z.add_0_l.
  split; [reflexivity|congruence].
Qed.

Lemma parse_rows_keeps_acceptable (rows : list RawRow) (s s' : Session) row_num valid errs total :
  parse_rows rows row_num [] [] 0 s = (Returned (valid, errs, total), s') ->
  len valid + len errs = len rows
  /\ forall row, row ∈ rows -> acceptable row s ->
       exists t, t ∈ valid /\ TransactionCSVRow row = Returned t.
Proof.
  intros Ep. apply parse_rows_returned in Ep as (rs & Hrs & Hlen & -> & -> & _).
  rewrite !app_nil_l. split.
  { unfold len. rewrite <- Hlen, <- (accepted_rejected_length rs). lia. }
  intros row Hin (Ha & t & Ht & Hnew).
  apply list_elem_of_lookup in Hin as [i Hi].
  destruct (Hrs i row Hi) as (r & Hr & Hp).
  rewrite (parse_row_accepts _ _ t s Ha Ht Hnew) in Hp. injection Hp as <-.
  exists t. split; [|exact Ht]. apply elem_of_accepted. eapply list_elem_of_lookup_2. exact Hr.
Qed.

(** What an import that returns has done to the table. *)
Lemma import_csv_Returned_table (self : ImportService) (file : FileContent) (filename : string)
    (s s' : Session) (resp : FileUploadResponse) :
  import_csv self file filename s = (Returned resp, s') ->
  exists valid errs total rows,
    _parse_csv file s = (Returned (valid, errs, total), s)
    /\ mapM Transaction_of valid = Some rows
    /\ processed_count resp = len valid /\ error_count resp = len errs
    /\ errors resp = error_entry <$> errs
    /\ transactions (view s') = transactions (view s) ++ rows
    /\ NoDup (transaction_id <$> valid)
    /\ (forall t, t ∈ valid -> transaction_id t ∉ stored_ids (view s))
    /\ active s' = active s.
Proof.
  intros Ei. apply import_csv_Returned in Ei as (batch & valid & errs & s1 & Eu & Er).
  destruct (until_process_parse self file filename s s1 batch valid errs Eu) as [total Hp].
  apply until_process_run in Eu as (_ & Htr & _ & _ & Hact & _).
  apply import_rest_Returned in Er as (-> & s2 & u & Ep & Hb).
  apply process_if_any_Returned in Ep
    as (rows & Hm & Hnd & Hall & Ht2 & _ & _ & _ & _ & _ & Ha2).
  assert (Hfin : transactions (view s') = transactions (view s2) /\ active s' = active s2).
  { destruct batch as [b|]; [|subst s'; auto].
    destruct Hb as [r Hu]. apply update_status_run in Hu as (_ & Hx & _ & _ & Hy & Hz & _).
    split; congruence. }
  destruct Hfin as [Ht' Ha'].
  exists valid, errs, total, rows. split; [exact Hp|]. split; [exact Hm|].
  split; [reflexivity|]. split; [reflexivity|]. split; [reflexivity|]. split; [congruence|].
  split; [exact Hnd|]. split; [|congruence].
  intros t Ht. destruct (Hall t Ht) as [Hn _]. unfold stored_ids in *. rewrite <- Htr.
  exact Hn.
Qed.

(** An import whose rows were all rejected writes no transaction. *)
Lemma import_csv_nothing_to_store (self : ImportService) (file : FileContent)
    (filename : string) (s : Session) errs total :
  active s = true -> Z.of_nat (String.length filename) <= 255 ->
  _parse_csv file s = (Returned ([], errs, total), s) ->
  exists resp s',
    import_csv self file filename s = (Returned resp, s')
    /\ processed_count resp = 0 /\ error_count resp = len errs
    /\ transactions (view s') = transactions (view s).
Proof.
  intros Ha Hlen Hp.
  pose proof (until_process_exact self file filename s [] errs total Ha Hlen Hp) as Eu.
  assert (exists batch s1,
            until_process self file filename s = (Returned (batch, [], errs), s1)
            /\ active s1 = true)
    as (batch & s1 & Eu1 & Ha1).
  { rewrite Eu. destruct (import_batch_repo self); eexists _, _; split; try reflexivity.
    exact Ha. }
  pose proof (until_process_run self file filename s s1 batch [] errs Eu1) as (_ & Htr & _).
  destruct (import_rest_accepts batch [] errs [] s1) as (resp & s' & Er & H1 & H2 & _ & H4);
    try assumption; try reflexivity.
  - apply NoDup_nil_2.
  - intros t Ht. inversion Ht.
  - set_solver.
  - set_solver.
  - exists resp, s'.
    rewrite (import_csv_from_process self file filename s s1 batch [] errs Eu1).
    rewrite (try_Returned _ _ s1 s' resp Er). rewrite app_nil_r, Htr in H4. auto.
Qed.
End Again.

(** X9: importing a file a second time stores nothing.  After an import
    of a file whose records all have as many cells as the header has
    returned, any later import of the same file, on an active session in
    which the transactions stored by then are still stored, returns with
    no processed row and one error for every record of the file, and
    leaves the table as it finds it. *)
Theorem reimport_stores_nothing {parsers : FieldParsers} {writers : ConcurrentWriters}
    (self : ImportService) (fieldnames : list string) (body : list (list string))
    (filename1 filename2 : string) (s s1 later : Session) (resp1 : FileUploadResponse) :
  (forall h, h ∈ required_headers -> h ∈ fieldnames) ->
  (forall record, record ∈ body -> record = [] \/ length record = length fieldnames) ->
  active s = true ->
  import_csv self (utf8_text (fieldnames :: body)) filename1 s = (Returned resp1, s1) ->
  active later = true ->
  (forall id, id ∈ stored_ids (view s1) -> id ∈ stored_ids (view later)) ->
  Z.of_nat (String.length filename2) <= 255 ->
  exists resp2 s2,
    import_csv self (utf8_text (fieldnames :: body)) filename2 later = (Returned resp2, s2)
    /\ processed_count resp2 = 0
    /\ error_count resp2 = processed_count resp1 + error_count resp1
    /\ error_count resp2 = len (List.filter nonblank body)
    /\ transactions (view s2) = transactions (view later).
Proof.
  intros Hhdr Hrect Ha Ei Hal Hkeep Hlen.
  apply import_csv_Returned_table in Ei
    as (valid & errs & total & rows & Hp & Hm & Hc1 & Hc2 & _ & Ht & _ & _ & _).
  assert (Hids : stored_ids (view s1) = stored_ids (view s) ++ (transaction_id <$> valid)).
  { unfold stored_ids. rewrite Ht, fmap_app.
    rewrite (mapM_Transaction_of_ids valid rows Hm). reflexivity. }
  rewrite parse_csv_headers_ok in Hp by exact Hhdr.
  apply parse_rows_keeps_acceptable in Hp as [Hcount Hacc].
  assert (Hrows : DictReader_rows fieldnames body
                  = dict_row fieldnames <$> List.filter nonblank body) by reflexivity.
  destruct (parse_rows_all_rejected (DictReader_rows fieldnames body) later 2)
    as (errs2 & Hp2 & Hlen2).
  { intros row Hrow. split.
    - rewrite Hrows in Hrow. apply list_elem_of_fmap in Hrow as (record & -> & Hrec).
      apply raw_data_input_dict_row.
      apply list_elem_of_In, filter_In in Hrec as [Hin Hnb].
      apply list_elem_of_In, Hrect in Hin as [->|Hl]; [discriminate Hnb|exact Hl].
    - intros (_ & t & Ht0 & Hnew). apply Hnew, Hkeep. rewrite Hids. apply elem_of_app.
      destruct (acceptable_dec row s) as [Hy|Hn].
      + destruct (Hacc row Hrow Hy) as (t' & Ht' & Heq). rewrite Ht0 in Heq.
        injection Heq as <-. right. apply list_elem_of_fmap. eauto.
      + destruct (decide (transaction_id t ∈ stored_ids (view s))) as [Hin|Hnin].
        * left. exact Hin.
        * exfalso. apply Hn. split; [exact Ha|]. eauto. }
  rewrite <- parse_csv_headers_ok in Hp2 by exact Hhdr.
  destruct (import_csv_nothing_to_store self (utf8_text (fieldnames :: body)) filename2 later
              errs2 (len (DictReader_rows fieldnames body)) Hal Hlen Hp2)
    as (resp2 & s2 & Ei2 & H1 & H2 & H4).
  exists resp2, s2. split; [exact Ei2|]. split; [exact H1|].
  assert (Hn : error_count resp2 = len (List.filter nonblank body)).
  { rewrite H2. unfold len. rewrite Hlen2, Hrows, length_fmap. reflexivity. }
  split; [|split; [exact Hn|exact H4]].
  rewrite Hn, Hc1, Hc2, Hcount, Hrows. unfold len. rewrite length_fmap. reflexivity.
Qed.

(** ** Amounts on their way to the column *)

Lemma dec_num_scaled (sg : bool) (c : N) (p : Z) :
  0 <= p ->
  dec_num (mkDecimal sg (c * Z.to_N p) (-2)) = dec_num (mkDecimal sg c 0) * p.
Proof.
  intros Hp. unfold dec_num. simpl. rewrite N2Z.inj_mul, Z2N.id by exact Hp.
  destruct sg; lia.
Qed.

(** Bringing a decimal with at most two places to two places changes
    nothing of its value. *)
Lemma quantize_exact (d : Decimal) :
  -2 <= dec_exp d ->
  dec_exp (quantize_half_up_2 d) = -2
  /\ (dec_num (quantize_half_up_2 d) # 100 == dec_value d)%Q.
Proof.
  intros He. unfold quantize_half_up_2.
  destruct (-2 <=? dec_exp d) eqn:E; [|apply Z.leb_gt in E; lia].
  split; [reflexivity|].
  rewrite dec_num_scaled by (apply Z.pow_nonneg; lia).
  change (dec_num (mkDecimal (dec_sign d) (dec_coeff d) 0)) with (dec_num d).
  unfold dec_value. rewrite Qmake_Qdiv, inject_Z_mult.
  rewrite Zpower_Qpower by lia.
  change (inject_Z 10) with (10 # 1)%Q.
  replace (dec_exp d + 2) with (2 + dec_exp d) by lia.
  rewrite Qpower_plus by discriminate.
  change ((10 # 1) ^ 2)%Q with (100 # 1)%Q.
  change (inject_Z (Z.pos 100)) with (100 # 1)%Q.
  set (x := ((10 # 1) ^ dec_exp d)%Q). field.
Qed.

Lemma to_numeric_exact (d : Decimal) :
  -2 <= dec_exp d -> dec_gt0 d = true ->
  (forall cents, to_numeric_10_2 d = Some cents ->
     0 < cents < 10 ^ 10 /\ (cents # 100 == dec_value d)%Q)
  /\ (to_numeric_10_2 d = None <-> (100000000 <= dec_value d)%Q).
Proof.
  intros He Hgt. destruct (quantize_exact d He) as [_ Hq].
  apply dec_gt0_value in Hgt. rewrite <- Hq in Hgt.
  assert (Hpos : 0 < dec_num (quantize_half_up_2 d)).
  { unfold Qlt in Hgt. simpl in Hgt. lia. }
  unfold to_numeric_10_2.
  set (n := dec_num (quantize_half_up_2 d)) in *.
  destruct (Z.abs n <? 10 ^ 10) eqn:E.
  - apply Z.ltb_lt in E. split.
    + intros cents [= <-]. split; [lia|exact Hq].
    + split; [discriminate|]. intros Hle. rewrite <- Hq in Hle.
      unfold Qle in Hle. simpl in Hle. lia.
  - apply Z.ltb_ge in E. split; [discriminate|]. split; [|reflexivity].
    intros _. rewrite <- Hq. unfold Qle. simpl. lia.
Qed.

(** X10: an amount that passes validation reaches the [DECIMAL(10, 2)]
    column without rounding: the stored number of hundredths is the
    validated value exactly.  The column has no room for it exactly when
    the value is 100000000 or more; validation has no such bound. *)
Theorem validated_amount_stored_exactly (s : string) (d : Decimal) :
  amount_field s = Some d ->
  (forall cents, to_numeric_10_2 d = Some cents ->
     0 < cents < 10 ^ 10 /\ (cents # 100 == dec_value d)%Q)
  /\ (to_numeric_10_2 d = None <-> (100000000 <= dec_value d)%Q).
Proof.
  intros Ha. apply amount_field_spec in Ha as (_ & Hgt & He).
  apply to_numeric_exact; assumption.
Qed.

Section Oversized.
Context {parsers : FieldParsers} {writers : ConcurrentWriters}.

Lemma Transaction_of_oversized (row : RawRow) (t : TransactionCreate) :
  TransactionCSVRow row = Returned t ->
  (100000000 <= dec_value (amount t))%Q \/ 2 ^ 31 <= quantity t ->
  Transaction_of t = None.
Proof.
  intros Hv Hbig. apply TransactionCSVRow_fields in Hv as (Ha & _).
  destruct (field_input row "amount") as [sa|]; [|discriminate]. simpl in Ha.
  apply amount_field_spec in Ha as (_ & Hgt & He).
  unfold Transaction_of. destruct Hbig as [Hbig|Hbig].
  - apply (to_numeric_exact _ He Hgt) in Hbig. rewrite Hbig. reflexivity.
  - destruct (to_numeric_10_2 (amount t)); [|reflexivity].
    unfold fits_integer. destruct (quantity t <? 2 ^ 31) eqn:E; [apply Z.ltb_lt in E; lia|].
    rewrite andb_false_r. reflexivity.
Qed.

Lemma mapM_Transaction_of_None (data : list TransactionCreate) (t : TransactionCreate) :
  t ∈ data -> Transaction_of t = None -> mapM Transaction_of data = None.
Proof.
  intros Hin Hn. destruct (mapM Transaction_of data) as [rows|] eqn:Hm; [|reflexivity].
  destruct (mapM_Transaction_of_elem_l data rows t Hm Hin) as (r & _ & Hr). congruence.
Qed.

Lemma process_transactions_unfit (data : list TransactionCreate) (s : Session) :
  active s = true -> data <> [] -> mapM Transaction_of data = None ->
  exists e, _process_transactions data s = (Raised e, rolled_back s).
Proof.
  intros Ha Hne Hm. rewrite process_transactions_exact by assumption. cbv zeta. rewrite Hm.
  repeat destruct (decide _); eauto.
Qed.
End Oversized.

(** X11: a row can pass validation and still not fit its columns: when a
    surviving row has an amount of 100000000 or more, or a quantity of
    2^31 or more, the bulk insert raises for the whole batch, and the
    import call raises and leaves nothing stored: no row of the file, not
    even the batch record. *)
Theorem oversized_value_fails_import {parsers : FieldParsers} {writers : ConcurrentWriters}
    (self : ImportService) (file : FileContent) (filename : string) (s : Session)
    valid errs total (row : RawRow) (t : TransactionCreate) :
  active s = true ->
  Z.of_nat (String.length filename) <= 255 ->
  _parse_csv file s = (Returned (valid, errs, total), s) ->
  t ∈ valid ->
  TransactionCSVRow row = Returned t ->
  (100000000 <= dec_value (amount t))%Q \/ 2 ^ 31 <= quantity t ->
  (forall s0, active s0 = true ->
     TransactionRepository.create_bulk valid s0
     = (Raised (DataError "value out of range"), rolled_back s0))
  /\ exists e s',
       import_csv self file filename s = (Raised e, s')
       /\ active s' = false /\ view s' = snapshot s.
Proof.
  intros Ha Hlen Hp Hin Hrow Hbig.
  pose proof (mapM_Transaction_of_None valid t Hin (Transaction_of_oversized row t Hrow Hbig))
    as Hm.
  assert (Hne : valid <> []) by (intros ->; inversion Hin).
  split.
  - intros s0 Ha0. rewrite create_bulk_exact by assumption. rewrite Hm. reflexivity.
  - pose proof (until_process_exact self file filename s valid errs total Ha Hlen Hp) as Eu.
    assert (exists batch s1,
              until_process self file filename s = (Returned (batch, valid, errs), s1)
              /\ active s1 = true)
      as (batch & s1 & Eu1 & Ha1).
    { rewrite Eu. destruct (import_batch_repo self); eexists _, _; split; try reflexivity.
      exact Ha. }
    destruct (process_transactions_unfit valid s1 Ha1 Hne Hm) as [e Ep].
    destruct (import_csv_process_Raised self file filename s s1 _ batch valid errs e Eu1 Hne Ep)
      as (e' & Ei & Hina & Hv).
    exists e', (rolled_back s1). split; [exact Ei|]. split; [exact Hina|]. exact (Hv Ha1).
Qed.

(** ** Resolving customers and products *)

Section Entities.
Context {writers : ConcurrentWriters}.

Lemma add_customers_existing (ids : gset UUID) (s : Session) :
  active s = true -> ids ⊆ customers (view s) ->
  mkSession (snapshot s) (CustomerRepository.add_customers ids (view s)) true (status_log s) = s.
Proof.
  intros Ha Hsub. symmetry. rewrite (session_eta s) at 1. rewrite Ha. f_equal.
  unfold CustomerRepository.add_customers.
  replace (customers (view s) ∪ ids) with (customers (view s)) by set_solver.
  destruct (view s). reflexivity.
Qed.

Lemma add_products_existing (ids : gset UUID) (s : Session) :
  active s = true -> ids ⊆ products (view s) ->
  mkSession (snapshot s) (ProductRepository.add_products ids (view s)) true (status_log s) = s.
Proof.
  intros Ha Hsub. symmetry. rewrite (session_eta s) at 1. rewrite Ha. f_equal.
  unfold ProductRepository.add_products.
  replace (products (view s) ∪ ids) with (products (view s)) by set_solver.
  destruct (view s). reflexivity.
Qed.

Lemma racing_witness (ids have racing : gset UUID) :
  (ids ∖ have) ∩ racing ≠ ∅ -> exists c, c ∈ ids /\ (c ∉ have) /\ c ∈ racing.
Proof.
  intros Hne. apply set_choose_L in Hne as [c Hc]. exists c. set_solver.
Qed.
End Entities.

(** X12: bulk resolution of customers and of products on an active
    session.  Either every identifier asked for is resolved: the call
    returns exactly the identifiers asked for, afterwards all of them
    exist, nothing that existed is lost, the other tables are untouched,
    and when all existed already the session is not written to at all.  Or
    one of the missing identifiers is created by another writer in the
    meantime: then the call raises the integrity error and the transaction
    is rolled back. *)
Theorem entity_resolution_bulk {writers : ConcurrentWriters} (ids : gset UUID) (s : Session) :
  active s = true ->
  ((exists s',
      CustomerRepository.get_or_create_bulk ids s = (Returned ids, s')
      /\ customers (view s') = customers (view s) ∪ ids
      /\ transactions (view s') = transactions (view s)
      /\ products (view s') = products (view s)
      /\ import_batches (view s') = import_batches (view s)
      /\ snapshot s' = snapshot s /\ active s' = true
      /\ (ids ⊆ customers (view s) -> s' = s))
   \/ ((exists c, c ∈ ids /\ (c ∉ customers (view s)) /\ c ∈ racing_customers)
       /\ CustomerRepository.get_or_create_bulk ids s
          = (Raised (IntegrityError "customers"), rolled_back s)))
  /\ ((exists s',
      ProductRepository.get_or_create_bulk ids s = (Returned ids, s')
      /\ products (view s') = products (view s) ∪ ids
      /\ transactions (view s') = transactions (view s)
      /\ customers (view s') = customers (view s)
      /\ import_batches (view s') = import_batches (view s)
      /\ snapshot s' = snapshot s /\ active s' = true
      /\ (ids ⊆ products (view s) -> s' = s))
   \/ ((exists p, p ∈ ids /\ (p ∉ products (view s)) /\ p ∈ racing_products)
       /\ ProductRepository.get_or_create_bulk ids s
          = (Raised (IntegrityError "products"), rolled_back s))).
Proof.
  intros Ha. split.
  - rewrite customers_bulk_exact by exact Ha. destruct (decide _) as [Hok|Hrace].
    + left. eexists. split; [reflexivity|]. simpl. repeat split; auto.
      apply add_customers_existing; assumption.
    + right. split; [apply racing_witness; exact Hrace|reflexivity].
  - rewrite products_bulk_exact by exact Ha. destruct (decide _) as [Hok|Hrace].
    + left. eexists. split; [reflexivity|]. simpl. repeat split; auto.
      apply add_products_existing; assumption.
    + right. split; [apply racing_witness; exact Hrace|reflexivity].
Qed.

(** X13: resolution is idempotent.  After a bulk resolution has returned,
    the same call returns the same again without writing, [exists] answers
    true for every identifier asked for, and every customer that existed
    before still exists. *)
Theorem entity_resolution_idempotent {writers : ConcurrentWriters} (ids r : gset UUID)
    (s s' : Session) :
  CustomerRepository.get_or_create_bulk ids s = (Returned r, s') ->
  CustomerRepository.get_or_create_bulk ids s' = (Returned r, s')
  /\ (forall c, c ∈ ids -> CustomerRepository.exists_ c s' = (Returned true, s'))
  /\ (forall c, c ∈ customers (view s) -> c ∈ customers (view s')).
Proof.
  intros E.
  assert (Ha : active s = true).
  { apply customers_bulk_run in E. destruct E as (_ & _ & _ & Ha & _). exact Ha. }
  rewrite customers_bulk_exact in E by exact Ha.
  destruct (decide _) as [Hok|]; [|discriminate]. injection E as <- <-.
  split.
  { rewrite customers_bulk_exact by reflexivity. simpl.
    rewrite decide_True by set_solver. f_equal.
    apply (add_customers_existing ids (mkSession _ _ true _)); [reflexivity|].
    simpl. set_solver. }
  split.
  { intros c Hc. unfold CustomerRepository.exists_. rewrite execute_active by reflexivity.
    simpl. rewrite bool_decide_eq_true_2 by set_solver. reflexivity. }
  intros c Hc; simpl; set_solver.
Qed.

(** X14: the single form of resolution agrees with the bulk form:
    [get_or_create] of one identifier does to the session what
    [get_or_create_bulk] of that identifier alone does, returns where it
    returns and raises what it raises, for customers and for products, on
    every session. *)
Theorem get_or_create_agrees_with_bulk {writers : ConcurrentWriters} (id : UUID)
    (s : Session) :
  Customer.get_or_create id s
  = (match (CustomerRepository.get_or_create_bulk {[id]} s).1 with
     | Returned _ => Returned id
     | Raised e => Raised e
     end, (CustomerRepository.get_or_create_bulk {[id]} s).2)
  /\ Product.get_or_create id s
     = (match (ProductRepository.get_or_create_bulk {[id]} s).1 with
        | Returned _ => Returned id
        | Raised e => Raised e
        end, (ProductRepository.get_or_create_bulk {[id]} s).2).
Proof.
  split.
  { rename id into c.
    destruct (active s) eqn:Ha.
    - rewrite customers_bulk_exact by exact Ha.
      unfold Customer.get_or_create, flush. rewrite bind_run, execute_active by exact Ha.
      cbv beta iota. destruct (decide (c ∈ customers (view s))) as [Hin|Hnin].
      + rewrite ret_run, decide_True by set_solver. simpl. f_equal.
        rewrite (session_eta s) at 1. rewrite Ha. f_equal.
        unfold CustomerRepository.add_customers.
        replace (customers (view s) ∪ {[c]}) with (customers (view s)) by set_solver.
        destruct (view s). reflexivity.
      + rewrite bind_run. destruct (decide (c ∈ racing_customers)) as [Hr|Hr].
        * rewrite decide_False by set_solver.
          rewrite (flush_returning_rejected _ _ s (IntegrityError "customers"));
            [reflexivity|exact Ha|]. rewrite decide_True by set_solver. reflexivity.
        * rewrite decide_True by set_solver.
          rewrite flush_returning_accepted; [|exact Ha|rewrite decide_False by set_solver; reflexivity].
          cbv beta iota. rewrite ret_run. reflexivity.
    - unfold Customer.get_or_create, CustomerRepository.get_or_create_bulk.
      rewrite !bind_run, !execute_inactive by exact Ha. reflexivity.
  }
  { rename id into p.
    destruct (active s) eqn:Ha.
    - rewrite products_bulk_exact by exact Ha.
      unfold Product.get_or_create, flush. rewrite bind_run, execute_active by exact Ha.
      cbv beta iota. destruct (decide (p ∈ products (view s))) as [Hin|Hnin].
      + rewrite ret_run, decide_True by set_solver. simpl. f_equal.
        rewrite (session_eta s) at 1. rewrite Ha. f_equal.
        unfold ProductRepository.add_products.
        replace (products (view s) ∪ {[p]}) with (products (view s)) by set_solver.
        destruct (view s). reflexivity.
      + rewrite bind_run. destruct (decide (p ∈ racing_products)) as [Hr|Hr].
        * rewrite decide_False by set_solver.
          rewrite (flush_returning_rejected _ _ s (IntegrityError "products"));
            [reflexivity|exact Ha|]. rewrite decide_True by set_solver. reflexivity.
        * rewrite decide_True by set_solver.
          rewrite flush_returning_accepted; [|exact Ha|rewrite decide_False by set_solver; reflexivity].
          cbv beta iota. rewrite ret_run. reflexivity.
    - unfold Product.get_or_create, ProductRepository.get_or_create_bulk.
      rewrite !bind_run, !execute_inactive by exact Ha. reflexivity.
  }
Qed.

(** ** Why the parser raises *)

Section Causes.
Context {parsers : FieldParsers}.

Lemma parse_rows_Raised (rows : list RawRow) (s : Session) :
  forall row_num valid errs total ex s',
  parse_rows rows row_num valid errs total s = (Raised ex, s') ->
  exists i row, rows !! i = Some row
    /\ parse_row (row_num + Z.of_nat i) row s = (Raised ex, s).
Proof.
  induction rows as [|row rest IH]; intros n valid errs total ex s' E.
  - simpl in E. rewrite ret_run in E. discriminate.
  - cbn [parse_rows] in E. rewrite bind_run in E.
    destruct (parse_row n row s) as [[r|e0] s1] eqn:Er.
    + assert (s1 = s) as -> by (eapply read_only_run; [apply read_only_parse_row|exact Er]).
      assert (exists i row', rest !! i = Some row'
                /\ parse_row (n + 1 + Z.of_nat i) row' s = (Raised ex, s))
        as (i & row' & Hi & Hp) by (destruct r; eapply IH; exact E).
      exists (S i), row'. split; [exact Hi|]. rewrite <- Hp. f_equal. lia.
    + assert (s1 = s) as -> by (eapply read_only_run; [apply read_only_parse_row|exact Er]).
      injection E as <- _. exists 0%nat, row. split; [reflexivity|].
      rewrite Z.add_0_r. exact Er.
Qed.
Lemma parse_csv_text_Raised (records : list (list string)) (s s' : Session) (e : exn) :
  _parse_csv (utf8_text records) s = (Raised e, s') ->
  e = PydanticValidationError "ValidationError"
  /\ exists fieldnames body record,
       records = fieldnames :: body /\ record ∈ body
       /\ length record <> length fieldnames
       /\ ~ acceptable (dict_row fieldnames record) s.
Proof.
  intros E.
  assert (s' = s) as -> by (eapply read_only_run; [apply read_only_parse_csv|exact E]).
  unfold _parse_csv in E.
  destruct records as [|[|h fn] body]; try (rewrite ret_run in E; discriminate).
  destruct (negb _); [rewrite ret_run in E; discriminate|].
  apply parse_rows_Raised in E as (i & row & Hi & Hp).
  unfold DictReader_rows in Hi. apply list_lookup_fmap_Some in Hi as (record & -> & Hi).
  apply list_elem_of_lookup_2, list_elem_of_In, filter_In in Hi as [Hin _].
  apply list_elem_of_In in Hin.
  destruct (raw_data_input (dict_row (h :: fn) record)) as [d|] eqn:Hd.
  - destruct (parse_row_rectangular (2 + Z.of_nat i) (dict_row (h :: fn) record) s)
      as (r & Hr & _); [rewrite Hd; eauto|]. rewrite Hr in Hp. discriminate.
  - destruct (parse_row_ragged (2 + Z.of_nat i) _ s Hd) as [(_ & t & Ht)|[Hn Hr]].
    + rewrite Ht in Hp. discriminate.
    + rewrite Hr in Hp. injection Hp as <-. split; [reflexivity|].
      exists (h :: fn), body, record. repeat split; try assumption.
      intros Hlen. apply raw_data_input_dict_row in Hlen. rewrite Hd in Hlen.
      destruct Hlen; discriminate.
Qed.
End Causes.

(** X15: the parser raises for three reasons only, and never writes.  The
    bytes are not UTF-8; or the reader cannot read the text to its end and
    raises its error, at the header or after the rows before; or some
    record read has not as many cells as the header has names and is not
    an accepted row, and then the exception is the validation error of the
    error record. *)
Theorem parse_failure_causes {parsers : FieldParsers} (file : FileContent) (s s' : Session)
    (e : exn) :
  _parse_csv file s = (Raised e, s') ->
  s' = s
  /\ ((file = undecodable /\ e = UnicodeDecodeError)
      \/ (exists records rest msg,
            file = unreadable_text records rest msg /\ e = CsvError msg)
      \/ (e = PydanticValidationError "ValidationError"
          /\ exists fieldnames body record,
               records_read file = fieldnames :: body /\ record ∈ body
               /\ length record <> length fieldnames
               /\ ~ acceptable (dict_row fieldnames record) s)).
Proof.
  intros E.
  assert (s' = s) as -> by (eapply read_only_run; [apply read_only_parse_csv|exact E]).
  split; [reflexivity|].
  destruct file as [|records|records rest msg].
  - left. unfold _parse_csv in E. rewrite raise_run in E. injection E as <-. auto.
  - right. right. apply parse_csv_text_Raised in E. exact E.
  - right. apply parse_csv_unreadable_Raised in E as [E|(-> & _)].
    + right. apply parse_csv_text_Raised in E. exact E.
    + left. eauto.
Qed.

(** ** Columns are read by name *)

Lemma fold_insert_list_to_map {V} (l : list (string * V)) :
  NoDup l.*1 ->
  fold_left (fun d kv => <[kv.1 := kv.2]> d) l (∅ : gmap string V) = list_to_map l.
Proof.
  intros Hnd. rewrite <- fold_left_rev_right.
  change (fold_right (fun (y : string * V) (x : gmap string V) => <[y.1 := y.2]> x) ∅ (rev l))
    with (list_to_map (M := gmap string V) (rev l)).
  apply list_to_map_proper.
  - rewrite <- Permutation_rev. exact Hnd.
  - symmetry. apply Permutation_rev.
Qed.

Lemma zip_fst_snd_Some (pairs : list (string * string)) :
  zip pairs.*1 (Some <$> pairs.*2) = (fun kv => (kv.1, Some kv.2)) <$> pairs.
Proof.
  induction pairs as [|[k v] pairs IH]; [reflexivity|].
  rewrite !fmap_cons. cbn [zip_with fst snd]. f_equal. exact IH.
Qed.

Lemma dict_row_pairs (pairs : list (string * string)) :
  NoDup pairs.*1 ->
  dict_row pairs.*1 pairs.*2
  = {| cells := list_to_map ((fun kv => (kv.1, Some kv.2)) <$> pairs); restkey := None |}.
Proof.
  intros Hnd. unfold dict_row. rewrite !length_fmap, Nat.sub_diag, Nat.ltb_irrefl.
  simpl replicate. rewrite app_nil_r, zip_fst_snd_Some. f_equal.
  apply fold_insert_list_to_map. rewrite <- list_fmap_compose.
  erewrite list_fmap_ext; [exact Hnd|]. intros i [k v] _. reflexivity.
Qed.

(** X16: columns are read by name.  A header and a record permuted alike
    give the same row, when the names of the header are distinct; and a
    further column whose name is none of the seven fields changes nothing
    of the validation of a row. *)
Theorem columns_by_name {parsers : FieldParsers} :
  (forall pairs1 pairs2 : list (string * string),
     NoDup pairs1.*1 -> pairs1 ≡ₚ pairs2 ->
     dict_row pairs1.*1 pairs1.*2 = dict_row pairs2.*1 pairs2.*2)
  /\ (forall (fieldnames record : list string) (h c : string),
        length record = length fieldnames -> h ∉ required_headers ->
        TransactionCSVRow (dict_row (fieldnames ++ [h]) (record ++ [c]))
        = TransactionCSVRow (dict_row fieldnames record)).
Proof.
  split.
  - intros pairs1 pairs2 Hnd Hperm.
    assert (Hnd2 : NoDup pairs2.*1) by (rewrite <- Hperm; exact Hnd).
    rewrite !dict_row_pairs by assumption. f_equal.
    apply list_to_map_proper.
    + rewrite <- list_fmap_compose.
      erewrite list_fmap_ext; [exact Hnd|]. intros i [k v] _. reflexivity.
    + rewrite Hperm. reflexivity.
  - intros fn record h c Hlen Hh.
    assert (Hcells : cells (dict_row (fn ++ [h]) (record ++ [c]))
                     = <[h := Some c]> (cells (dict_row fn record))).
    { unfold dict_row. cbn [cells]. rewrite !length_app, Hlen, !Nat.sub_diag.
      simpl replicate. rewrite !app_nil_r, fmap_app.
      rewrite zip_with_app by (rewrite length_fmap; lia).
      rewrite fold_left_app. reflexivity. }
    assert (Hrest : restkey (dict_row (fn ++ [h]) (record ++ [c])) = None
                    /\ restkey (dict_row fn record) = None).
    { unfold dict_row. cbn [restkey]. rewrite !length_app, Hlen, !Nat.ltb_irrefl. auto. }
    destruct Hrest as [Hr1 Hr2].
    assert (Hf : forall name, name ∈ required_headers ->
              field_input (dict_row (fn ++ [h]) (record ++ [c])) name
              = field_input (dict_row fn record) name).
    { intros name Hname. unfold field_input. rewrite Hcells.
      rewrite lookup_insert_ne; [reflexivity|]. intros ->. contradiction. }
    unfold TransactionCSVRow. rewrite Hr1, Hr2.
    rewrite !Hf by (unfold required_headers; set_solver). reflexivity.
Qed.

(** ** The aggregates of the reports *)

Lemma filter_bool_Prop {A} (f : A -> bool) (P : A -> Prop) `{!forall x, Decision (P x)}
    (l : list A) :
  (forall x, f x = true <-> P x) -> List.filter f l = base.filter P l.
Proof.
  intros Hf. induction l as [|x l IH]; [reflexivity|].
  simpl. rewrite filter_cons. destruct (decide (P x)) as [Hp|Hn].
  - rewrite (proj2 (Hf x) Hp), IH. reflexivity.
  - destruct (f x) eqn:E; [apply Hf in E; contradiction|exact IH].
Qed.

Lemma product_rows_sales (db : DB) (p : UUID) (start_date end_date : option datetime) :
  TransactionRepository.product_rows db p start_date end_date
  = product_sales db p start_date end_date.
Proof.
  apply filter_bool_Prop. intros r.
  rewrite andb_true_iff, bool_decide_eq_true, in_window_within. reflexivity.
Qed.

Lemma customer_rows_purchases (db : DB) (c : UUID) (start_date end_date : option datetime) :
  TransactionRepository.customer_rows db c start_date end_date
  = customer_purchases db c start_date end_date.
Proof.
  apply filter_bool_Prop. intros r.
  rewrite andb_true_iff, bool_decide_eq_true, in_window_within. reflexivity.
Qed.

Lemma count_distinct_distinct (l : list UUID) : count_distinct l = distinct l.
Proof.
  unfold count_distinct, distinct. f_equal.
  rewrite <- (size_list_to_set (C := gset UUID) (remove_dups l)) by apply NoDup_remove_dups.
  f_equal. apply set_eq. intros x.
  rewrite !elem_of_list_to_set, elem_of_remove_dups. reflexivity.
Qed.

Lemma fold_left_add (l : list Z) (x : Z) : fold_left Z.add l x = x + foldr Z.add 0 l.
Proof.
  revert x. induction l as [|y l IH]; intros x; simpl; [lia|]. rewrite IH. lia.
Qed.

Lemma sql_sum_int_total (rows : list Transaction.t) :
  default 0 (sql_sum_int (Transaction.quantity <$> rows)) = total_quantity rows.
Proof.
  unfold total_quantity. destruct rows as [|r rows]; [reflexivity|].
  simpl. rewrite fold_left_add. f_equal.
  induction rows as [|r' rows IH]; simpl; [reflexivity|]. rewrite IH. reflexivity.
Qed.

Lemma fold_left_max (l : list Z) (x : Z) :
  (fold_left Z.max l x = x \/ fold_left Z.max l x ∈ l)
  /\ x <= fold_left Z.max l x
  /\ forall y, y ∈ l -> y <= fold_left Z.max l x.
Proof.
  revert x. induction l as [|z l IH]; intros x; simpl.
  - split; [left; reflexivity|]. split; [lia|]. intros y Hy. inversion Hy.
  - destruct (IH (Z.max x z)) as (Hin & Hge & Hall). split; [|split].
    + destruct Hin as [->|Hin]; [|right; right; exact Hin].
      destruct (Z.max_spec x z) as [[_ ->]|[_ ->]]; [right; left|left; reflexivity].
    + lia.
    + intros y Hy. apply elem_of_cons in Hy as [->|Hy]; [lia|apply Hall; exact Hy].
Qed.

(** SQL [MAX] is the greatest element, and there is none over no rows. *)
Lemma sql_max_spec (l : list datetime) :
  match sql_max l with
  | None => l = []
  | Some m => m ∈ l /\ forall x, x ∈ l -> x <= m
  end.
Proof.
  destruct l as [|x l]; [reflexivity|]. simpl.
  destruct (fold_left_max l x) as (Hin & Hge & Hall). split.
  - destruct Hin as [->|Hin]; [left|right; exact Hin].
  - intros y Hy. apply elem_of_cons in Hy as [->|Hy]; [exact Hge|apply Hall; exact Hy].
Qed.

Lemma summary_total_value (rows : list Transaction.t) :
  dec_exp (quantize_half_up_2 (total_or_0 (sql_sum (revenue <$> rows)))) = -2
  /\ (dec_value (quantize_half_up_2 (total_or_0 (sql_sum (revenue <$> rows))))
      == round_half_up_2dp (converted_total rows))%Q.
Proof.
  destruct (formatted_total rows _ eq_refl) as [He Hn]. split; [exact He|].
  rewrite dec_value_hundredths by exact He. rewrite Hn.
  rewrite (round_half_up_2dp_comp _ _ (converted_total_thousandths _)).
  rewrite round_half_up_thousandths. reflexivity.
Qed.

(** X17: for a product that exists, the summary over a window (each bound
    optional, both inclusive) reports the sum of the quantities, the sum of
    amount times rate rounded half up to two places, and the number of
    different customers, all over the product's transactions whose
    timestamp lies inside the window. *)
Theorem product_summary_totals (s : Session) (pid : UUID)
    (start_date end_date : option datetime) :
  active s = true ->
  pid ∈ products (view s) ->
  let rows := product_sales (view s) pid start_date end_date in
  exists r,
    ReportService.get_product_summary pid start_date end_date s = (Returned (Some r), s)
    /\ ProductSummaryResponse.product_id r = pid
    /\ ProductSummaryResponse.total_quantity_sold r = total_quantity rows
    /\ dec_exp (ProductSummaryResponse.total_revenue_pln r) = -2
    /\ (dec_value (ProductSummaryResponse.total_revenue_pln r)
        == round_half_up_2dp (converted_total rows))%Q
    /\ ProductSummaryResponse.unique_customers_count r
       = distinct (Transaction.customer_id <$> rows).
Proof.
  intros Ha Hp rows. rewrite product_summary_run by exact Ha.
  rewrite bool_decide_eq_true_2 by exact Hp. cbv zeta. rewrite product_rows_sales.
  fold rows. eexists. split; [reflexivity|]. simpl.
  destruct (summary_total_value rows) as [He Hv].
  split; [reflexivity|]. split; [apply sql_sum_int_total|]. split; [exact He|].
  split; [exact Hv|apply count_distinct_distinct].
Qed.

(** X18: for a customer that exists, the summary over a window reports
    the sum of amount times rate rounded half up to two places, the number
    of different products, and the latest timestamp, all over the
    customer's transactions inside the window; the date is absent exactly
    when there is no such transaction. *)
Theorem customer_summary_window (s : Session) (cid : UUID)
    (start_date end_date : option datetime) :
  active s = true ->
  cid ∈ customers (view s) ->
  let rows := customer_purchases (view s) cid start_date end_date in
  exists r,
    ReportService.get_customer_summary cid start_date end_date s = (Returned (Some r), s)
    /\ CustomerSummaryResponse.customer_id r = cid
    /\ dec_exp (CustomerSummaryResponse.total_amount_pln r) = -2
    /\ (dec_value (CustomerSummaryResponse.total_amount_pln r)
        == round_half_up_2dp (converted_total rows))%Q
    /\ CustomerSummaryResponse.unique_products_count r
       = distinct (Transaction.product_id <$> rows)
    /\ match CustomerSummaryResponse.last_transaction_date r with
       | None => rows = []
       | Some m =>
           (exists t, t ∈ rows /\ Transaction.timestamp t = m)
           /\ forall t, t ∈ rows -> Transaction.timestamp t <= m
       end.
Proof.
  intros Ha Hc rows. rewrite customer_summary_run by exact Ha.
  rewrite bool_decide_eq_true_2 by exact Hc. cbv zeta. rewrite customer_rows_purchases.
  fold rows. eexists. split; [reflexivity|]. simpl.
  destruct (summary_total_value rows) as [He Hv].
  split; [reflexivity|]. split; [exact He|]. split; [exact Hv|].
  split; [apply count_distinct_distinct|].
  pose proof (sql_max_spec (Transaction.timestamp <$> rows)) as Hmax.
  destruct (sql_max (Transaction.timestamp <$> rows)) as [m|].
  - destruct Hmax as [Hin Hall]. split.
    + apply list_elem_of_fmap in Hin as (t & -> & Ht). eauto.
    + intros t Ht. apply Hall. apply list_elem_of_fmap. eauto.
  - apply fmap_nil_inv in Hmax. exact Hmax.
Qed.

(** ** Listing transactions *)

Lemma newest_first_cons (x : Transaction.t) (l : list Transaction.t) :
  newest_first (x :: l)
  <-> (forall y, y ∈ l -> Transaction.timestamp y <= Transaction.timestamp x)
      /\ newest_first l.
Proof.
  unfold newest_first. split.
  - intros H. split.
    + intros y Hy. apply list_elem_of_lookup in Hy as [j Hj].
      apply (H 0%nat (S j) x y); [reflexivity|exact Hj|lia].
    + intros i j a b Hi Hj Hij. apply (H (S i) (S j) a b); [exact Hi|exact Hj|lia].
  - intros [Hall Hl] [|i] [|j] a b Hi Hj Hij; simpl in Hi, Hj.
    + injection Hi as <-. injection Hj as <-. lia.
    + injection Hi as <-. apply Hall. eapply list_elem_of_lookup_2. exact Hj.
    + lia.
    + apply (Hl i j a b Hi Hj). lia.
Qed.

Lemma insert_desc_perm (r : Transaction.t) (l : list Transaction.t) :
  TransactionQueries.insert_desc r l ≡ₚ r :: l.
Proof.
  induction l as [|x l IH]; simpl; [reflexivity|].
  destruct (Transaction.timestamp x <=? Transaction.timestamp r); [reflexivity|].
  rewrite IH. apply Permutation_swap.
Qed.

Lemma insert_desc_newest_first (r : Transaction.t) (l : list Transaction.t) :
  newest_first l -> newest_first (TransactionQueries.insert_desc r l).
Proof.
  induction l as [|x l IH]; intros Hl; simpl.
  - apply newest_first_cons. split; [intros y Hy; inversion Hy|].
    intros i j a b Hi. rewrite lookup_nil in Hi. discriminate.
  - apply newest_first_cons in Hl as [Hall Hl].
    destruct (Transaction.timestamp x <=? Transaction.timestamp r) eqn:E.
    + apply Z.leb_le in E. apply newest_first_cons. split.
      * intros y Hy. apply elem_of_cons in Hy as [->|Hy]; [exact E|].
        specialize (Hall y Hy). lia.
      * apply newest_first_cons. split; assumption.
    + apply Z.leb_gt in E. apply newest_first_cons. split; [|apply IH; exact Hl].
      intros y Hy. rewrite insert_desc_perm in Hy.
      apply elem_of_cons in Hy as [->|Hy]; [lia|apply Hall; exact Hy].
Qed.

(** The order of the data query: the same rows, newest first. *)
Lemma order_by_timestamp_desc_spec (l : list Transaction.t) :
  TransactionQueries.order_by_timestamp_desc l ≡ₚ l
  /\ newest_first (TransactionQueries.order_by_timestamp_desc l).
Proof.
  unfold TransactionQueries.order_by_timestamp_desc.
  induction l as [|x l [IHp IHs]]; simpl.
  - split; [reflexivity|]. intros i j a b Hi. rewrite lookup_nil in Hi. discriminate.
  - split; [rewrite insert_desc_perm, IHp; reflexivity|].
    apply insert_desc_newest_first. exact IHs.
Qed.

Lemma conditions_matches (customer_id product_id : option UUID) (r : Transaction.t) :
  TransactionQueries.conditions customer_id product_id None None r = true
  <-> matches customer_id product_id r.
Proof.
  unfold TransactionQueries.conditions, matches, in_window. rewrite andb_true_r.
  rewrite andb_true_iff.
  destruct customer_id as [c|], product_id as [p|]; rewrite ?bool_decide_eq_true;
    split; intros [H1 H2]; split; try reflexivity; try discriminate;
    try (intros ? [= <-]; assumption); try (apply H1; reflexivity);
    try (apply H2; reflexivity).
Qed.

Lemma params_in_range (params : TransactionListParams.t) :
  1 <= TransactionListParams.page params
  /\ 1 <= TransactionListParams.page_size params <= 100.
Proof.
  pose proof (TransactionListParams.validated params) as H.
  unfold TransactionListParams.in_range in H.
  rewrite !andb_true_iff, !Z.leb_le in H. lia.
Qed.

Lemma get_paginated_exact (customer_id product_id : option UUID) (offset limit : Z)
    (start_date end_date : option datetime) (s : Session) :
  active s = true -> 0 <= offset -> 0 <= limit ->
  let rows := List.filter
                (TransactionQueries.conditions customer_id product_id start_date end_date)
                (transactions (view s)) in
  TransactionQueries.get_paginated customer_id product_id offset limit start_date end_date s
  = (Returned (take (Z.to_nat limit)
                 (drop (Z.to_nat offset) (TransactionQueries.order_by_timestamp_desc rows)),
               len rows), s).
Proof.
  intros Ha Ho Hl rows. unfold TransactionQueries.get_paginated.
  rewrite bind_run, execute_active by exact Ha. cbv beta iota.
  destruct (offset <? 0) eqn:E1; [apply Z.ltb_lt in E1; lia|].
  destruct (limit <? 0) eqn:E2; [apply Z.ltb_lt in E2; lia|].
  cbn [orb]. rewrite bind_run, execute_active by exact Ha. cbv beta iota.
  rewrite ret_run. reflexivity.
Qed.

Lemma list_transactions_exact (params : TransactionListParams.t) (s : Session) :
  active s = true ->
  let rows := matching (view s) (TransactionListParams.customer_id params)
                (TransactionListParams.product_id params) in
  let page := TransactionListParams.page params in
  let page_size := TransactionListParams.page_size params in
  let total_pages := (len rows + page_size - 1) / page_size in
  TransactionService.list_transactions params s
  = (Returned
       (TransactionListResponse.mk
          (TransactionResponse.model_validate
             <$> take (Z.to_nat page_size)
                   (drop (Z.to_nat (TransactionListParams.offset params))
                      (TransactionQueries.order_by_timestamp_desc rows)))
          (len rows) page page_size total_pages (page <? total_pages) (1 <? page)), s).
Proof.
  intros Ha rows page page_size total_pages.
  destruct (params_in_range params) as [Hp Hs].
  unfold TransactionService.list_transactions. rewrite bind_run.
  rewrite get_paginated_exact;
    [|exact Ha|unfold TransactionListParams.offset; nia|lia].
  cbv beta iota zeta. rewrite ret_run.
  rewrite (filter_bool_Prop _ (matches (TransactionListParams.customer_id params)
                                 (TransactionListParams.product_id params)))
    by apply conditions_matches.
  reflexivity.
Qed.

Lemma newest_first_slice (l : list Transaction.t) (k o : nat) :
  newest_first l -> newest_first (take k (drop o l)).
Proof.
  intros H i j a b Hi Hj Hij.
  apply lookup_take_Some in Hi as [Hi _]. apply lookup_take_Some in Hj as [Hj _].
  rewrite lookup_drop in Hi, Hj. apply (H (o + i)%nat (o + j)%nat a b Hi Hj). lia.
Qed.

(** X19: the metadata of a page of the listing.  On an active session the
    listing returns; [total] is the number of stored transactions that
    pass the filters; [total_pages] is that number divided by the page
    size, rounded up; the page holds as many items as remain from its
    offset, at most [page_size]; [has_next] says exactly that transactions
    remain beyond this page, and [has_previous] that the page is not the
    first.  The session is not written to. *)
Theorem page_metadata (params : TransactionListParams.t) (s : Session) :
  active s = true ->
  let n := len (matching (view s) (TransactionListParams.customer_id params)
                  (TransactionListParams.product_id params)) in
  let page := TransactionListParams.page params in
  let page_size := TransactionListParams.page_size params in
  let offset := TransactionListParams.offset params in
  exists resp,
    TransactionService.list_transactions params s = (Returned resp, s)
    /\ TransactionListResponse.total resp = n
    /\ TransactionListResponse.page resp = page
    /\ TransactionListResponse.page_size resp = page_size
    /\ (TransactionListResponse.total_pages resp - 1) * page_size < n
       <= TransactionListResponse.total_pages resp * page_size
    /\ len (TransactionListResponse.items resp) = Z.min page_size (Z.max 0 (n - offset))
    /\ (TransactionListResponse.has_next resp = true <-> offset + page_size < n)
    /\ (TransactionListResponse.has_previous resp = true <-> 1 < page).
Proof.
  intros Ha n page page_size offset. rewrite list_transactions_exact by exact Ha.
  cbv zeta. fold n page page_size.
  destruct (params_in_range params) as [Hp Hs]. fold page page_size in Hp, Hs.
  eexists. split; [reflexivity|]. simpl.
  assert (Hn : 0 <= n) by (unfold n, len; lia).
  pose proof (Z.div_mod (n + page_size - 1) page_size ltac:(lia)) as Hdiv.
  pose proof (Z.mod_pos_bound (n + page_size - 1) page_size ltac:(lia)) as Hmod.
  set (q := (n + page_size - 1) / page_size) in *.
  set (m := (n + page_size - 1) mod page_size) in *.
  split; [reflexivity|]. split; [reflexivity|]. split; [reflexivity|].
  split; [nia|]. split.
  - unfold len. rewrite length_fmap, length_take, length_drop.
    destruct (order_by_timestamp_desc_spec
                (matching (view s) (TransactionListParams.customer_id params)
                   (TransactionListParams.product_id params))) as [Hperm _].
    rewrite (Permutation_length Hperm). fold (TransactionListParams.offset params).
    assert (Ho : 0 <= offset) by (unfold offset, TransactionListParams.offset; nia).
    fold offset. unfold n, len. lia.
  - split.
    + rewrite Z.ltb_lt. unfold offset, TransactionListParams.offset. fold page page_size.
      split; intros H; nia.
    + apply Z.ltb_lt.
Qed.

Lemma get_transaction_exact (tid : UUID) (s : Session) :
  active s = true ->
  TransactionService.get_transaction tid s
  = (Returned (TransactionResponse.model_validate
                 <$> head (List.filter
                             (fun r => bool_decide (Transaction.transaction_id r = tid))
                             (transactions (view s)))), s).
Proof.
  intros Ha. unfold TransactionService.get_transaction, TransactionQueries.get_by_id.
  rewrite bind_run, execute_active by exact Ha. cbv beta iota.
  destruct (head _); rewrite ret_run; reflexivity.
Qed.

Lemma elem_of_slice {A} (x : A) (k o : nat) (l : list A) :
  x ∈ take k (drop o l) -> x ∈ l.
Proof.
  intros Hx. apply subseteq_take in Hx.
  exact (elem_of_sublist _ _ _ Hx (sublist_drop l o)).
Qed.

(** Under a unique key a row is the only one with its key. *)
Lemma filter_unique_key (l : list Transaction.t) (r : Transaction.t) :
  NoDup (Transaction.transaction_id <$> l) -> r ∈ l ->
  List.filter (fun x => bool_decide (Transaction.transaction_id x
                                     = Transaction.transaction_id r)) l = [r].
Proof.
  induction l as [|x l IH]; intros Hnd Hin; [inversion Hin|].
  rewrite fmap_cons in Hnd. apply NoDup_cons in Hnd as [Hx Hnd]. simpl.
  apply elem_of_cons in Hin as [->|Hin].
  - rewrite bool_decide_eq_true_2 by reflexivity. f_equal.
    apply filter_none. intros y Hy. apply bool_decide_eq_false. intros Heq.
    apply Hx. rewrite <- Heq. apply list_elem_of_fmap. eauto.
  - rewrite bool_decide_eq_false_2; [apply IH; assumption|].
    intros Heq. apply Hx. rewrite Heq. apply list_elem_of_fmap. eauto.
Qed.

(** X20: the items of a page of the listing.  They are the page's slice,
    from its offset and of at most [page_size] rows, of the stored
    transactions that pass the filters arranged newest first; so every
    item is a stored transaction that passes the filters, and timestamps
    never increase along the page. *)
Theorem page_items (params : TransactionListParams.t) (s : Session) :
  active s = true ->
  let cid := TransactionListParams.customer_id params in
  let pid := TransactionListParams.product_id params in
  exists resp sorted,
    TransactionService.list_transactions params s = (Returned resp, s)
    /\ sorted ≡ₚ matching (view s) cid pid
    /\ newest_first sorted
    /\ TransactionListResponse.items resp
       = TransactionResponse.model_validate
           <$> take (Z.to_nat (TransactionListParams.page_size params))
                 (drop (Z.to_nat (TransactionListParams.offset params)) sorted)
    /\ (forall it, it ∈ TransactionListResponse.items resp ->
          exists r, r ∈ transactions (view s) /\ matches cid pid r
                    /\ it = TransactionResponse.model_validate r)
    /\ (forall i j a b,
          TransactionListResponse.items resp !! i = Some a ->
          TransactionListResponse.items resp !! j = Some b -> (i <= j)%nat ->
          TransactionResponse.timestamp b <= TransactionResponse.timestamp a).
Proof.
  intros Ha cid pid. rewrite list_transactions_exact by exact Ha. cbv zeta. fold cid pid.
  destruct (order_by_timestamp_desc_spec (matching (view s) cid pid)) as [Hperm Hsorted].
  eexists _, (TransactionQueries.order_by_timestamp_desc (matching (view s) cid pid)).
  split; [reflexivity|]. split; [exact Hperm|]. split; [exact Hsorted|].
  split; [reflexivity|]. simpl. split.
  - intros it Hit. apply list_elem_of_fmap in Hit as (r & -> & Hr).
    apply elem_of_slice in Hr. rewrite Hperm in Hr.
    apply list_elem_of_filter in Hr as [Hm Hr]. eauto.
  - intros i j a b Hi Hj Hij.
    apply list_lookup_fmap_Some in Hi as (ra & -> & Hi).
    apply list_lookup_fmap_Some in Hj as (rb & -> & Hj). simpl.
    exact (newest_first_slice _ _ _ Hsorted i j ra rb Hi Hj Hij).
Qed.

(** X21: what the listing shows can be fetched.  Under the primary key of
    the table, every item of a page is returned unchanged by
    [get_transaction] for its identifier; and [get_transaction] answers
    "not found" exactly for the identifiers that are not stored. *)
Theorem listed_items_can_be_fetched (params : TransactionListParams.t) (s : Session) :
  active s = true ->
  NoDup (stored_ids (view s)) ->
  (exists resp,
     TransactionService.list_transactions params s = (Returned resp, s)
     /\ forall it, it ∈ TransactionListResponse.items resp ->
          TransactionService.get_transaction (TransactionResponse.transaction_id it) s
          = (Returned (Some it), s))
  /\ (forall tid, exists r,
        TransactionService.get_transaction tid s = (Returned r, s)
        /\ (r = None <-> tid ∉ stored_ids (view s))).
Proof.
  intros Ha Hnd. split.
  - rewrite list_transactions_exact by exact Ha. cbv zeta.
    eexists. split; [reflexivity|]. simpl. intros it Hit.
    apply list_elem_of_fmap in Hit as (r & -> & Hr).
    apply elem_of_slice in Hr.
    rewrite (proj1 (order_by_timestamp_desc_spec _)) in Hr.
    apply list_elem_of_filter in Hr as [_ Hr].
    rewrite get_transaction_exact by exact Ha. simpl.
    rewrite (filter_unique_key _ r Hnd Hr). reflexivity.
  - intros tid. rewrite get_transaction_exact by exact Ha. eexists. split; [reflexivity|].
    destruct (List.filter _ (transactions (view s))) as [|r l] eqn:Ef; simpl.
    + split; [intros _|reflexivity]. intros Hin.
      apply list_elem_of_fmap in Hin as (r & -> & Hr).
      assert (Hin : In r []); [|inversion Hin].
      rewrite <- Ef. apply filter_In. split; [apply list_elem_of_In; exact Hr|].
      apply bool_decide_eq_true. reflexivity.
    + split; [discriminate|]. intros Hn. exfalso. apply Hn.
      assert (Hin : In r (r :: l)) by (left; reflexivity).
      rewrite <- Ef in Hin. apply filter_In in Hin as [Hr Hid].
      apply bool_decide_eq_true in Hid. subst tid.
      apply list_elem_of_fmap. exists r. split; [reflexivity|apply list_elem_of_In; exact Hr].
Qed.

(** ** From the file to the listing *)

Section RoundTrip.
Context {parsers : FieldParsers}.

Lemma parse_csv_valid_validated (file : FileContent) (s s' : Session) valid errs total :
  _parse_csv file s = (Returned (valid, errs, total), s') ->
  forall t, t ∈ valid -> exists row, TransactionCSVRow row = Returned t.
Proof.
  intros Ep. apply parse_csv_Returned_text in Ep as [records Ep]. revert Ep.
  unfold _parse_csv. destruct records as [|[|h fn] body];
    try (rewrite ret_run; intros [= <- _ _ _] t Ht; inversion Ht).
  destruct (negb _); [rewrite ret_run; intros [= <- _ _ _] t Ht; inversion Ht|].
  intros Ep t Ht. apply parse_rows_returned in Ep as (rs & Hrs & Hlen & -> & _).
  rewrite app_nil_l in Ht. apply elem_of_accepted, list_elem_of_lookup in Ht as [i Hi].
  assert (Hlt : (i < length (DictReader_rows (h :: fn) body))%nat)
    by (rewrite <- Hlen; eapply lookup_lt_Some; exact Hi).
  apply lookup_lt_is_Some in Hlt as [row Hrow].
  destruct (Hrs i row Hrow) as (r & Hr & Hp). rewrite Hi in Hr. injection Hr as <-.
  apply parse_row_inr in Hp as (_ & Hv & _). eauto.
Qed.
End RoundTrip.

(** X22: what is imported can be fetched as it was written.  After an
    import has returned, on a session whose table respects its primary
    key, [get_transaction] finds every surviving row of the file under its
    identifier, with the timestamp, currency, customer, product and
    quantity of the row and an amount of two places equal in value to the
    amount of the row. *)
Theorem imported_rows_can_be_fetched {parsers : FieldParsers} {writers : ConcurrentWriters}
    (self : ImportService) (file : FileContent) (filename : string) (s s' : Session)
    (resp : FileUploadResponse) :
  import_csv self file filename s = (Returned resp, s') ->
  active s = true ->
  NoDup (stored_ids (view s)) ->
  exists valid errs total,
    _parse_csv file s = (Returned (valid, errs, total), s)
    /\ processed_count resp = len valid
    /\ NoDup (stored_ids (view s'))
    /\ forall t, t ∈ valid ->
         exists it,
           TransactionService.get_transaction (transaction_id t) s' = (Returned (Some it), s')
           /\ TransactionResponse.transaction_id it = transaction_id t
           /\ TransactionResponse.timestamp it = timestamp t
           /\ TransactionResponse.currency it = currency t
           /\ TransactionResponse.customer_id it = customer_id t
           /\ TransactionResponse.product_id it = product_id t
           /\ TransactionResponse.quantity it = quantity t
           /\ dec_exp (TransactionResponse.amount it) = -2
           /\ (dec_value (TransactionResponse.amount it) == dec_value (amount t))%Q.
Proof.
  intros Ei Ha Hnd.
  apply import_csv_Returned_table in Ei
    as (valid & errs & total & rows & Hp & Hm & Hc & _ & _ & Ht & Hnv & Hnew & Ha').
  assert (Hnd' : NoDup (stored_ids (view s'))).
  { unfold stored_ids in *. rewrite Ht, fmap_app.
    rewrite (mapM_Transaction_of_ids valid rows Hm). apply NoDup_app. split; [exact Hnd|].
    split; [|exact Hnv]. intros id Hold Hin.
    apply list_elem_of_fmap in Hin as (t & -> & Hin). exact (Hnew t Hin Hold). }
  exists valid, errs, total. split; [exact Hp|]. split; [exact Hc|]. split; [exact Hnd'|].
  intros t Hin.
  destruct (mapM_Transaction_of_elem_l valid rows t Hm Hin) as (r & Hr & Hof).
  destruct (parse_csv_valid_validated file s s valid errs total Hp t Hin) as [row Hrow].
  apply TransactionCSVRow_fields in Hrow as (Hamt & _).
  destruct (field_input row "amount") as [sa|]; [|discriminate]. simpl in Hamt.
  apply amount_field_spec in Hamt as (_ & Hgt & He).
  pose proof (Transaction_of_Some t r Hof) as (Hnum & _ & Hreq).
  destruct (to_numeric_exact (amount t) He Hgt) as [Hex _].
  destruct (Hex _ Hnum) as [_ Hval].
  exists (TransactionResponse.model_validate r). split.
  - rewrite get_transaction_exact by congruence.
    assert (Hid : transaction_id t = Transaction.transaction_id r)
      by (rewrite Hreq; reflexivity).
    rewrite Hid, (filter_unique_key _ r Hnd'); [reflexivity|].
    rewrite Ht. apply elem_of_app. right. exact Hr.
  - rewrite Hreq. simpl. repeat split.
    unfold amount_dec. simpl. rewrite dec_value_hundredths by reflexivity.
    rewrite dec_num_of_num. exact Hval.
Qed.
(** ** Conversion of one amount *)

Lemma half_even_tenth (c : Z) :
  0 <= c ->
  let q := c / 10 in
  let r := c mod 10 in
  let n := if (10 <? 2 * r) || ((10 =? 2 * r) && Z.odd q) then q + 1 else q in
  0 <= n /\ Z.abs (10 * n - c) <= 5 /\ (Z.abs (10 * n - c) = 5 -> Z.even n = true).
Proof.
  intros Hc q r n.
  pose proof (Z.div_mod c 10 ltac:(lia)) as Hd.
  pose proof (Z.mod_pos_bound c 10 ltac:(lia)) as Hm.
  fold q r in Hd, Hm.
  assert (Hq : 0 <= q) by (apply Z.div_pos; lia).
  subst n. destruct (10 <? 2 * r) eqn:E1; cbn [orb].
  - apply Z.ltb_lt in E1. split; [lia|]. split; [lia|]. lia.
  - apply Z.ltb_ge in E1. destruct (10 =? 2 * r) eqn:E2; cbn [andb].
    + apply Z.eqb_eq in E2. destruct (Z.odd q) eqn:E3.
      * split; [lia|]. split; [lia|]. intros _.
        rewrite Z.even_add, <- Z.negb_odd, E3. reflexivity.
      * split; [lia|]. split; [lia|]. intros _. rewrite <- Z.negb_odd, E3. reflexivity.
    + apply Z.eqb_neq in E2. split; [lia|]. split; [lia|]. lia.
Qed.

(** The number of digits. *)
Lemma ndigits_from_spec (fuel : nat) :
  forall d c, 0 <= c -> 1 <= d -> c < 10 ^ (d + Z.of_nat fuel) ->
  d = 1 \/ 10 ^ (d - 1) <= c ->
  let r := ndigits_from fuel d c in
  d <= r /\ c < 10 ^ r /\ (r = 1 \/ 10 ^ (r - 1) <= c).
Proof.
  induction fuel as [|fuel IH]; intros d c Hc Hd Hlt Hge; cbn [ndigits_from].
  - rewrite Z.add_0_r in Hlt. cbv zeta. split; [lia|]. split; assumption.
  - destruct (c <? 10 ^ d) eqn:E.
    + apply Z.ltb_lt in E. cbv zeta. split; [lia|]. split; assumption.
    + apply Z.ltb_ge in E.
      destruct (IH (d + 1) c Hc ltac:(lia)) as (H1 & H2 & H3).
      * replace (d + 1 + Z.of_nat fuel) with (d + Z.of_nat (S fuel)) by lia. exact Hlt.
      * right. replace (d + 1 - 1) with d by lia. exact E.
      * cbv zeta. split; [lia|]. split; assumption.
Qed.

Lemma ndigits_spec (c : N) :
  1 <= ndigits c /\ Z.of_N c < 10 ^ ndigits c
  /\ (ndigits c = 1 \/ 10 ^ (ndigits c - 1) <= Z.of_N c).
Proof.
  unfold ndigits.
  apply (ndigits_from_spec _ 1 (Z.of_N c)); [lia|lia| |left; reflexivity].
  pose proof (Z.log2_nonneg (Z.of_N c)) as Hl.
  rewrite Nat2Z.inj_add, Z2Nat.id by exact Hl.
  destruct (decide (Z.of_N c = 0)) as [Hz|Hne].
  - rewrite Hz in *. apply Z.pow_pos_nonneg; lia.
  - pose proof (Z.log2_spec (Z.of_N c) ltac:(lia)) as [_ Hs].
    eapply Z.lt_le_trans; [exact Hs|].
    etransitivity; [apply (Z.pow_le_mono_l 2 10); lia|].
    apply Z.pow_le_mono_r; lia.
Qed.

Lemma ndigits_le (c : N) (k : Z) : 1 <= k -> Z.of_N c < 10 ^ k -> ndigits c <= k.
Proof.
  intros Hk Hc. destruct (ndigits_spec c) as (H1 & _ & [->|H3]); [exact Hk|].
  assert (10 ^ (ndigits c - 1) < 10 ^ k) by lia.
  apply Z.pow_lt_mono_r_iff in H; lia.
Qed.

Lemma ndigits_ge (c : N) (k : Z) : 10 ^ (k - 1) <= Z.of_N c -> k <= ndigits c.
Proof.
  intros Hc. destruct (ndigits_spec c) as (H1 & H2 & _).
  destruct (Z_lt_le_dec (k - 1) 0) as [Hk|Hk]; [lia|].
  assert (10 ^ (k - 1) < 10 ^ ndigits c) by lia.
  apply Z.pow_lt_mono_r_iff in H; lia.
Qed.

(** A number within the precision and the exponent range is a result as
    it stands. *)
Lemma Decimal_fix_fits (d : Decimal) :
  Z.of_N (dec_coeff d) < 10 ^ 28 ->
  DefaultContext.Etiny <= dec_exp d <= DefaultContext.Etop ->
  Decimal_fix d = Returned d.
Proof.
  intros Hc He. unfold Decimal_fix. cbv zeta.
  unfold DefaultContext.Etiny, DefaultContext.Etop, DefaultContext.Emax, DefaultContext.Emin,
    DefaultContext.prec in *.
  destruct (dec_is_zero d) eqn:Ez.
  - unfold dec_is_zero in Ez. apply N.eqb_eq in Ez. destruct d as [sg co ex]. simpl in *.
    subst co. f_equal. f_equal. lia.
  - pose proof (ndigits_le (dec_coeff d) 28 ltac:(lia) Hc) as Hn.
    destruct (_ <? ndigits (dec_coeff d) + dec_exp d - 28) eqn:E1;
      [apply Z.ltb_lt in E1; lia|].
    destruct (dec_exp d <? _) eqn:E2; [apply Z.ltb_lt in E2; lia|]. reflexivity.
Qed.

(** Beyond the precision the product is rounded to 28 digits, and the
    rounding to two places would take more. *)
Lemma drop_half_even_lower (c : N) (k n : Z) :
  0 <= k -> 0 <= n -> 10 ^ (n + k) <= Z.of_N c ->
  10 ^ n <= Z.of_N (drop_half_even c k).
Proof.
  intros Hk Hn Hc. unfold drop_half_even. cbv zeta.
  assert (Hp : 0 < 10 ^ k) by (apply Z.pow_pos_nonneg; lia).
  assert (Hq : 10 ^ n <= Z.of_N c / 10 ^ k).
  { apply Z.div_le_lower_bound; [exact Hp|]. rewrite <- Z.pow_add_r by lia.
    replace (k + n) with (n + k) by lia. exact Hc. }
  assert (H0 : 0 < 10 ^ n) by (apply Z.pow_pos_nonneg; lia).
  destruct (_ || _); rewrite Z2N.id by lia; lia.
Qed.

Lemma convert_to_pln_large (cents : Z) (currency : CurrencyEnum) :
  10 ^ 28 <= Z.abs cents ->
  exists e, ReportService.convert_to_pln (dec_of_num cents (-2)) currency = Raised e
    /\ (e = Overflow \/ exists msg, e = InvalidOperation msg).
Proof.
  intros Hb.
  set (c := Z.abs cents * rate_tenths currency).
  assert (Hrt : 10 <= rate_tenths currency) by (destruct currency; simpl; lia).
  assert (H28 : 10 ^ 28 = 10000000000000000000000000000) by reflexivity.
  assert (H29 : 10 ^ 29 = 100000000000000000000000000000) by reflexivity.
  assert (H27 : 10 ^ 27 = 1000000000000000000000000000) by reflexivity.
  assert (Hc : 10 ^ 29 <= c) by (subst c; nia).
  assert (Hprod : dec_mul (dec_of_num cents (-2)) (EXCHANGE_RATES currency)
                  = mkDecimal (cents <? 0) (Z.to_N c) (-3)).
  { unfold dec_mul, dec_of_num. cbn [dec_sign dec_coeff dec_exp].
    assert (Hco : (Z.to_N (Z.abs cents) * dec_coeff (EXCHANGE_RATES currency))%N = Z.to_N c).
    { apply N2Z.inj. rewrite N2Z.inj_mul, !Z2N.id by lia. subst c.
      destruct currency; reflexivity. }
    assert (He : dec_exp (EXCHANGE_RATES currency) = -1) by (destruct currency; reflexivity).
    assert (Hs : dec_sign (EXCHANGE_RATES currency) = false) by (destruct currency; reflexivity).
    rewrite He, Hs, Hco, xorb_false_r. reflexivity. }
  unfold ReportService.convert_to_pln, Decimal_mul. rewrite Hprod. clear Hprod.
  assert (Hcz : Z.of_N (Z.to_N c) = c) by (apply Z2N.id; lia).
  pose proof (ndigits_spec (Z.to_N c)) as (_ & _ & Hlow).
  pose proof (ndigits_ge (Z.to_N c) 30 ltac:(rewrite Hcz; exact Hc)) as HL.
  destruct Hlow as [Hlow|Hlow]; [lia|].
  set (L := ndigits (Z.to_N c)) in *.
  unfold Decimal_fix. cbv zeta. cbn [dec_coeff dec_exp dec_sign].
  unfold dec_is_zero. cbn [dec_coeff].
  replace (Z.to_N c =? 0)%N with false by (symmetry; apply N.eqb_neq; lia).
  fold L. unfold DefaultContext.Etop, DefaultContext.Etiny, DefaultContext.Emax,
    DefaultContext.Emin, DefaultContext.prec.
  destruct (_ <? L + -3 - 28) eqn:E1; [eexists; split; [reflexivity|eauto]|]. apply Z.ltb_ge in E1.
  replace (Z.max (L + -3 - 28) (-999999 - 28 + 1)) with (L - 31) by lia.
  replace (-3 <? L - 31) with true by (symmetry; apply Z.ltb_lt; lia).
  set (q := drop_half_even (Z.to_N c) (L - 31 - -3)).
  assert (Hq : 10 ^ 27 <= Z.of_N q).
  { apply drop_half_even_lower; [lia|lia|].
    replace (27 + (L - 31 - -3)) with (L - 1) by lia. exact Hlow. }
  assert (Hfix : exists co ex, 10 ^ 27 <= Z.of_N co /\ -1 <= ex
            /\ (if 28 <? ndigits q then ((q / 10)%N, L - 31 + 1) else (q, L - 31)) = (co, ex)).
  { destruct (28 <? ndigits q) eqn:E2.
    - exists (q / 10)%N, (L - 31 + 1). split; [|split; [lia|reflexivity]].
      apply Z.ltb_lt in E2. pose proof (ndigits_spec q) as (_ & _ & [Hx|Hx]); [lia|].
      rewrite N2Z.inj_div. change (Z.of_N 10) with 10.
      apply Z.div_le_lower_bound; [lia|].
      change (10 * 10 ^ 27) with (10 ^ 28).
      etransitivity; [|exact Hx]. apply Z.pow_le_mono_r; lia.
    - exists q, (L - 31). split; [exact Hq|]. split; [lia|reflexivity]. }
  destruct Hfix as (co & ex & Hco & Hex & ->).
  destruct (_ <? ex) eqn:E3; [eexists; split; [reflexivity|eauto]|].
  unfold quantize_2, dec_is_zero, adjusted. cbn [dec_coeff dec_exp dec_sign].
  replace (co =? 0)%N with false by (symmetry; apply N.eqb_neq; lia).
  pose proof (ndigits_ge co 28 ltac:(exact Hco)) as Hd.
  unfold DefaultContext.Emax, DefaultContext.prec.
  destruct (999999 <? _); [eexists; split; [reflexivity|eauto]|].
  replace (28 <? ex + ndigits co - 1 - -2 + 1) with true by (symmetry; apply Z.ltb_lt; lia).
  eexists; split; [reflexivity|eauto].
Qed.

(** X23: [convert_to_pln] on an amount in whole hundredths.  On fewer than
    27 digits (the column holds 10) it returns, and gives a result in
    hundredths that is nearest to amount times rate; of two equally near
    it takes the even one (the summaries round their totals half up
    instead); for PLN and USD the result is exact.  The bound is not idle:
    the decimal context works with 28 digits, and on 29 digits or more
    the conversion raises instead of returning. *)
Theorem convert_to_pln_nearest_even (cents : Z) (currency : CurrencyEnum) :
  let exact_thousandths := cents * rate_tenths currency in
  (Z.abs cents < 10 ^ 26 ->
   exists r,
     ReportService.convert_to_pln (dec_of_num cents (-2)) currency = Returned r
     /\ dec_exp r = -2
     /\ Z.abs (10 * dec_num r - exact_thousandths) <= 5
     /\ (Z.abs (10 * dec_num r - exact_thousandths) = 5 -> Z.even (dec_num r) = true)
     /\ (currency <> EUR -> 10 * dec_num r = exact_thousandths))
  /\ (10 ^ 28 <= Z.abs cents ->
      exists e, ReportService.convert_to_pln (dec_of_num cents (-2)) currency = Raised e
        /\ (e = Overflow \/ exists msg, e = InvalidOperation msg)).
Proof.
  intros x. split.
  { intros Hb.
    set (c := Z.abs cents * rate_tenths currency).
    assert (Hrt : 1 <= rate_tenths currency <= 43) by (destruct currency; simpl; lia).
    assert (H26 : 10 ^ 26 = 100000000000000000000000000) by reflexivity.
    assert (H28 : 10 ^ 28 = 10000000000000000000000000000) by reflexivity.
    assert (Hnn : 0 <= c) by (subst c; nia).
    assert (Hc28 : 10 * c < 10 ^ 28 * 10) by (subst c; nia).
    pose proof (half_even_tenth c Hnn) as (Hn0 & Hn1 & Hn2). cbv zeta in Hn0, Hn1, Hn2.
    set (n := if (10 <? 2 * (c mod 10)) || ((10 =? 2 * (c mod 10)) && Z.odd (c / 10))
              then c / 10 + 1 else c / 10) in *.
    assert (Hn28 : n < 10 ^ 28) by lia.
    assert (Hprod : dec_mul (dec_of_num cents (-2)) (EXCHANGE_RATES currency)
                    = mkDecimal (cents <? 0) (Z.to_N c) (-3)).
    { unfold dec_mul, dec_of_num. cbn [dec_sign dec_coeff dec_exp].
      assert (Hco : (Z.to_N (Z.abs cents) * dec_coeff (EXCHANGE_RATES currency))%N = Z.to_N c).
      { apply N2Z.inj. rewrite N2Z.inj_mul, !Z2N.id by lia. subst c.
        destruct currency; reflexivity. }
      assert (He : dec_exp (EXCHANGE_RATES currency) = -1) by (destruct currency; reflexivity).
      assert (Hs : dec_sign (EXCHANGE_RATES currency) = false) by (destruct currency; reflexivity).
      rewrite He, Hs, Hco, xorb_false_r. reflexivity. }
    assert (Hr : ReportService.convert_to_pln (dec_of_num cents (-2)) currency
                 = Returned (mkDecimal (cents <? 0) (Z.to_N n) (-2))).
    { unfold ReportService.convert_to_pln, Decimal_mul. rewrite Hprod.
      rewrite Decimal_fix_fits; cbn [dec_coeff dec_exp];
        [|rewrite Z2N.id by exact Hnn; lia|vm_compute; split; discriminate].
      unfold quantize_2. cbn [dec_coeff dec_exp dec_sign].
      destruct (dec_is_zero _) eqn:Ez.
      - unfold dec_is_zero in Ez. cbn [dec_coeff] in Ez. apply N.eqb_eq in Ez.
        assert (Hc0 : c = 0) by lia.
        assert (Hnz : n = 0) by (subst n; rewrite Hc0; reflexivity).
        rewrite Hnz. apply Decimal_fix_fits; [reflexivity|vm_compute; split; discriminate].
      - pose proof (ndigits_le (Z.to_N c) 28 ltac:(lia)
                      ltac:(rewrite Z2N.id by exact Hnn; lia)) as Hd.
        pose proof (ndigits_spec (Z.to_N c)) as (Hd1 & _).
        unfold adjusted. cbn [dec_coeff dec_exp].
        unfold DefaultContext.Emax, DefaultContext.prec.
        rewrite (proj2 (Z.ltb_ge _ _)) by lia. rewrite (proj2 (Z.ltb_ge _ _)) by lia.
        assert (Hans : rescale_half_even_2 (mkDecimal (cents <? 0) (Z.to_N c) (-3))
                       = mkDecimal (cents <? 0) (Z.to_N n) (-2)).
        { unfold rescale_half_even_2. rewrite Ez. cbn [dec_coeff dec_exp dec_sign].
          change (-2 <=? -3) with false. cbv iota. unfold drop_half_even.
          change (-2 - -3) with 1. change (10 ^ 1) with 10.
          rewrite Z2N.id by exact Hnn. reflexivity. }
        rewrite Hans. cbn [dec_coeff dec_exp].
        pose proof (ndigits_le (Z.to_N n) 28 ltac:(lia)
                      ltac:(rewrite Z2N.id by exact Hn0; lia)) as Hdn.
        pose proof (ndigits_spec (Z.to_N n)) as (Hdn1 & _).
        rewrite (proj2 (Z.ltb_ge _ _)) by lia. rewrite (proj2 (Z.ltb_ge _ _)) by lia.
        apply Decimal_fix_fits; cbn [dec_coeff dec_exp];
          [rewrite Z2N.id by exact Hn0; lia|vm_compute; split; discriminate]. }
    exists (mkDecimal (cents <? 0) (Z.to_N n) (-2)).
    split; [exact Hr|]. split; [reflexivity|].
    assert (Hnum : dec_num (mkDecimal (cents <? 0) (Z.to_N n) (-2)) = if cents <? 0 then - n else n).
    { unfold dec_num. simpl. rewrite Z2N.id by exact Hn0. reflexivity. }
    rewrite Hnum. subst x.
    assert (Hexact : currency <> EUR -> 10 * n = c).
    { intros Hcur. subst n c. destruct currency; try contradiction; cbn [rate_tenths].
      - rewrite Z.mod_mul, Z.div_mul by lia. simpl. lia.
      - replace (Z.abs cents * 40) with (Z.abs cents * 4 * 10) by lia.
        rewrite Z.mod_mul, Z.div_mul by lia. simpl. lia. }
    assert (Hc : c = Z.abs cents * rate_tenths currency) by reflexivity.
    clearbody n c. clear Hr Hnum Hprod.
    destruct (cents <? 0) eqn:Es; [apply Z.ltb_lt in Es|apply Z.ltb_ge in Es].
    - replace (Z.abs cents) with (- cents) in Hc by lia.
      split; [lia|]. split.
      + intros H5. rewrite Z.even_opp. apply Hn2. lia.
      + intros Hcur. specialize (Hexact Hcur). lia.
    - replace (Z.abs cents) with cents in Hc by lia.
      split; [lia|]. split.
      + intros H5. apply Hn2. lia.
      + intros Hcur. specialize (Hexact Hcur). lia. }
  intros Hb. exact (convert_to_pln_large cents currency Hb).
Qed.

(** ** Tokens *)

Lemma after_generating_tokens (settings : Settings) (tokens : list string) :
  AuthService._valid_tokens
    (AuthService.after_generating settings tokens)
  = {[ API_TOKEN settings ]} ∪ list_to_set tokens.
Proof.
  unfold AuthService.after_generating.
  assert (H : forall self,
            AuthService._valid_tokens
              (fold_left (fun self token => (AuthService.generate_token self token).2)
                 tokens self)
            = AuthService._valid_tokens self ∪ list_to_set tokens).
  { induction tokens as [|t tokens IH]; intros self; simpl.
    - set_solver.
    - rewrite IH. simpl. set_solver. }
  rewrite H. reflexivity.
Qed.

(** X24: who passes [verify_token].  After the service has generated any
    tokens: when authentication is not required every token passes; when
    it is required a token passes exactly if it is the configured API
    token or one of the generated ones, so none is ever revoked.
    [authenticate_user] succeeds exactly for the secret key, and what it
    returns passes. *)
Theorem token_verification (settings : Settings) (tokens : list string) :
  let service := AuthService.after_generating settings tokens in
  (REQUIRE_AUTH settings = false ->
     forall token, AuthService.verify_token settings service token = true)
  /\ (REQUIRE_AUTH settings = true ->
      forall token, AuthService.verify_token settings service token = true
                    <-> token = API_TOKEN settings \/ token ∈ tokens)
  /\ (forall provided, is_Some (AuthService.authenticate_user settings provided)
                       <-> provided = SECRET_KEY settings)
  /\ (forall provided token,
        AuthService.authenticate_user settings provided = Some token ->
        AuthService.verify_token settings service token = true).
Proof.
  intros service.
  assert (Hin : forall token, token ∈ AuthService._valid_tokens service
                              <-> token = API_TOKEN settings \/ token ∈ tokens).
  { intros token. subst service. rewrite after_generating_tokens. set_solver. }
  split; [|split; [|split]].
  - intros Hr token. unfold AuthService.verify_token. rewrite Hr. reflexivity.
  - intros Hr token. unfold AuthService.verify_token. rewrite Hr. simpl.
    rewrite bool_decide_eq_true. apply Hin.
  - intros provided. unfold AuthService.authenticate_user.
    destruct (decide (provided = SECRET_KEY settings)) as [Heq|Hne].
    + split; eauto.
    + split; [intros [? ?]; discriminate|intros Heq; contradiction].
  - intros provided token. unfold AuthService.authenticate_user, AuthService.verify_token.
    destruct (decide (provided = SECRET_KEY settings)); [|discriminate]. intros [= <-].
    destruct (negb (REQUIRE_AUTH settings)); [reflexivity|].
    apply bool_decide_eq_true, Hin. left. reflexivity.
Qed.

(** ** The error list of the response *)

Section ErrorList.
Context {parsers : FieldParsers}.


End ErrorList.



(** ** The further properties on the sample data *)

Lemma rectangular_file_witness :
  exists valid errs,
    _parse_csv (parsers := Sample.parsers) Cases.blank_lines_file Sample.s0
    = (Returned (valid, errs, 3), Sample.s0)
    /\ len valid + len errs = 3
    /\ _parse_csv (parsers := Sample.parsers)
         (unreadable_text (Sample.header :: Cases.with_blank_lines) Sample.bare_cr_text
            Sample.bare_cr_message) Sample.s0
       = (Raised (CsvError Sample.bare_cr_message), Sample.s0).
Proof.
  destruct (rectangular_file_parses (parsers := Sample.parsers) Sample.header
              Cases.with_blank_lines Sample.s0) as (valid & errs & Hp & Hu & Hc & _).
  - intros h Hh. exact Hh.
  - intros record Hr. apply (bool_decide_unpack _). revert record Hr.
    apply Forall_forall. apply (bool_decide_unpack _). vm_compute. exact I.
  - exists valid, errs. split; [exact Hp|]. split; [exact Hc|apply Hu].
Defined.

Lemma long_record_witness :
  _parse_csv (parsers := Sample.parsers)
    (utf8_text [Sample.header; Sample.record 1 "100.00" "PLN" "1"; Cases.long_record])
    Sample.s0
  = (Raised (PydanticValidationError "ValidationError"), Sample.s0).
Proof.
  destruct (long_record_aborts_import (parsers := Sample.parsers) (writers := no_writers)
              Sample.service Sample.header
              [Sample.record 1 "100.00" "PLN" "1"; Cases.long_record] Cases.long_record
              "long.csv" Sample.s0) as (Hp & _).
  - intros h Hh. exact Hh.
  - apply (bool_decide_unpack _). vm_compute. exact I.
  - vm_compute. lia.
  - exact Hp.
Defined.

Lemma parse_failure_witness :
  exists s',
    import_csv (parsers := Sample.parsers) (writers := no_writers) Sample.service undecodable
      "bytes.csv" Sample.s0 = (Raised UnicodeDecodeError, s')
    /\ active s' = true
    /\ transactions (view s') = [].
Proof.
  destruct (parse_failure_marks_batch_failed (parsers := Sample.parsers)
              (writers := no_writers) Sample.service undecodable "bytes.csv" Sample.s0
              UnicodeDecodeError) as (s' & Hi & Ha & _ & Ht & _).
  - reflexivity.
  - vm_compute. discriminate.
  - reflexivity.
  - exists s'. split; [exact Hi|]. split; [exact Ha|exact Ht].
Defined.

Lemma storage_failure_witness :
  import_csv (parsers := Sample.parsers) (writers := Sample.racing_customer) Sample.service
    Sample.one_row "race.csv" Sample.s0
  = (Raised PendingRollbackError, Cases.one_row_process.2)
  /\ Cases.one_row_exn = IntegrityError "customers"
  /\ view Cases.one_row_process.2 = Sample.empty_db.
Proof.
  destruct (storage_failure_hides_cause (parsers := Sample.parsers)
              (writers := Sample.racing_customer) Sample.service Sample.one_row "race.csv"
              Sample.s0 Sample.one_row_prefix.2 Cases.one_row_process.2 Sample.one_row_batch
              Sample.one_row_valid Sample.one_row_errors Cases.one_row_exn)
    as (Hi & _ & _ & Hv).
  - vm_compute. reflexivity.
  - vm_compute. discriminate.
  - vm_compute. reflexivity.
  - split; [exact Hi|]. split; [vm_compute; reflexivity|exact Hv].
Defined.

Lemma import_response_witness :
  exists valid errs total rows,
    _parse_csv (parsers := Sample.parsers) Cases.blank_lines_file Sample.s0
    = (Returned (valid, errs, total), Sample.s0)
    /\ mapM Transaction_of valid = Some rows
    /\ processed_count Cases.blank_lines_response = len rows
    /\ transactions (view Cases.blank_lines_run.2) = rows.
Proof.
  destruct (import_response_truthful (parsers := Sample.parsers) (writers := no_writers)
              Sample.service Cases.blank_lines_file "blank.csv" Sample.s0
              Cases.blank_lines_run.2 Cases.blank_lines_response)
    as (valid & errs & total & rows & Hp & Hm & Hc & _ & _ & Ht & _).
  - vm_compute. reflexivity.
  - exists valid, errs, total, rows. split; [exact Hp|]. split; [exact Hm|].
    split; [exact Hc|exact Ht].
Defined.

Lemma batch_record_witness :
  exists id errs,
    import_batches (view Cases.blank_lines_run.2)
    = <[id := ImportBatch.mk id "blank.csv" completed 0 2 1
                (if is_nil errs then None else Some (json_dumps errs))]> ∅
    /\ status_log Cases.blank_lines_run.2 = [(id, pending); (id, processing); (id, completed)].
Proof.
  destruct (batch_record_matches_response (parsers := Sample.parsers) (writers := no_writers)
              Sample.service Cases.blank_lines_file "blank.csv" Sample.s0
              Cases.blank_lines_run.2 Cases.blank_lines_response)
    as (id & errs & _ & _ & Hb & Hl).
  - reflexivity.
  - vm_compute. reflexivity.
  - exists id, errs. split; [exact Hb|exact Hl].
Defined.

Lemma import_succeeds_witness :
  exists resp s',
    import_csv (parsers := Sample.parsers) (writers := no_writers) Sample.service
      Cases.blank_lines_file "blank.csv" Sample.s0 = (Returned resp, s')
    /\ processed_count resp = 2 /\ error_count resp = 1
    /\ transactions (view s') = Cases.blank_lines_rows.
Proof.
  destruct (import_succeeds (parsers := Sample.parsers) (writers := no_writers)
              Sample.service Cases.blank_lines_file "blank.csv" Sample.s0
              Cases.blank_lines_valid Cases.blank_lines_errors 3 Cases.blank_lines_rows)
    as (resp & s' & Hi & Hc & He & _ & Ht).
  - reflexivity.
  - vm_compute. discriminate.
  - vm_compute. reflexivity.
  - vm_compute. reflexivity.
  - apply (bool_decide_unpack _). vm_compute. exact I.
  - intros t _. apply not_elem_of_empty.
  - apply (bool_decide_unpack _). vm_compute. exact I.
  - apply (bool_decide_unpack _). vm_compute. exact I.
  - exists resp, s'. split; [exact Hi|]. split; [exact Hc|]. split; [exact He|exact Ht].
Defined.

Lemma reimport_witness :
  exists resp2 s2,
    import_csv (parsers := Sample.parsers) (writers := no_writers) Sample.service
      Cases.blank_lines_file "again.csv" Cases.blank_lines_run.2 = (Returned resp2, s2)
    /\ processed_count resp2 = 0
    /\ error_count resp2 = 3
    /\ transactions (view s2) = transactions (view Cases.blank_lines_run.2).
Proof.
  destruct (reimport_stores_nothing (parsers := Sample.parsers) (writers := no_writers)
              Sample.service Sample.header Cases.with_blank_lines "blank.csv" "again.csv"
              Sample.s0 Cases.blank_lines_run.2 Cases.blank_lines_run.2
              Cases.blank_lines_response)
    as (resp2 & s2 & Hi & Hc & _ & He & Ht).
  - intros h Hh. exact Hh.
  - intros record Hr. apply (bool_decide_unpack _). revert record Hr.
    apply Forall_forall. apply (bool_decide_unpack _). vm_compute. exact I.
  - reflexivity.
  - vm_compute. reflexivity.
  - reflexivity.
  - intros id Hid. exact Hid.
  - vm_compute. discriminate.
  - exists resp2, s2. split; [exact Hi|]. split; [exact Hc|]. split; [exact He|exact Ht].
Defined.

Lemma validated_amount_witness :
  amount_field "12.50" = Some (mkDecimal false 1250 (-2))
  /\ to_numeric_10_2 (mkDecimal false 1250 (-2)) = Some 1250
  /\ (1250 # 100 == dec_value (mkDecimal false 1250 (-2)))%Q.
Proof.
  destruct (validated_amount_stored_exactly "12.50" (mkDecimal false 1250 (-2))) as [Hs _].
  - vm_compute. reflexivity.
  - split; [vm_compute; reflexivity|]. split; [reflexivity|].
    apply (Hs 1250). reflexivity.
Defined.

Lemma oversized_value_witness :
  exists e s',
    import_csv (parsers := Sample.parsers) (writers := no_writers) Sample.service
      Cases.huge_amount "huge.csv" Sample.s0 = (Raised e, s')
    /\ active s' = false /\ view s' = Sample.empty_db.
Proof.
  destruct (oversized_value_fails_import (parsers := Sample.parsers) (writers := no_writers)
              Sample.service Cases.huge_amount "huge.csv" Sample.s0 Cases.huge_valid
              Cases.huge_errors 1 Cases.huge_row Cases.huge_transaction)
    as (_ & e & s' & Hi & Ha & Hv).
  - reflexivity.
  - vm_compute. discriminate.
  - vm_compute. reflexivity.
  - assert (Cases.huge_valid = [Cases.huge_transaction]) as -> by (vm_compute; reflexivity).
    left.
  - vm_compute. reflexivity.
  - left. vm_compute. discriminate.
  - exists e, s'. split; [exact Hi|]. split; [exact Ha|exact Hv].
Defined.

Lemma entity_resolution_witness :
  exists s',
    CustomerRepository.get_or_create_bulk (writers := no_writers) {[100%N; 101%N]}
      Sample.s1 = (Returned {[100%N; 101%N]}, s')
    /\ customers (view s') = {[100%N]} ∪ {[100%N; 101%N]}.
Proof.
  destruct (entity_resolution_bulk (writers := no_writers) {[100%N; 101%N]} Sample.s1)
    as [[(s' & Hr & Hc & _)|[_ Hx]] _].
  - reflexivity.
  - exists s'. split; [exact Hr|exact Hc].
  - exfalso. revert Hx. vm_compute. discriminate.
Defined.

Lemma entity_idempotent_witness :
  let s' := (CustomerRepository.get_or_create_bulk (writers := no_writers) {[100%N; 101%N]}
               Sample.s1).2 in
  CustomerRepository.get_or_create_bulk (writers := no_writers) {[100%N; 101%N]} s'
  = (Returned {[100%N; 101%N]}, s')
  /\ CustomerRepository.exists_ 101 s' = (Returned true, s').
Proof.
  intros s'.
  destruct (entity_resolution_idempotent (writers := no_writers) {[100%N; 101%N]}
              {[100%N; 101%N]} Sample.s1 s') as (H1 & H2 & _).
  - vm_compute. reflexivity.
  - split; [exact H1|]. apply H2. apply (bool_decide_unpack _). vm_compute. exact I.
Defined.

Lemma product_summary_witness :
  exists r,
    ReportService.get_product_summary 200 (Some 0) None (Sample.session_of Sample.db2)
    = (Returned (Some r), Sample.session_of Sample.db2)
    /\ ProductSummaryResponse.total_quantity_sold r = 1
    /\ ProductSummaryResponse.unique_customers_count r = 1.
Proof.
  destruct (product_summary_totals (Sample.session_of Sample.db2) 200 (Some 0) None)
    as (r & Hr & _ & Hq & _ & _ & Hu).
  - reflexivity.
  - apply (bool_decide_unpack _). vm_compute. exact I.
  - exists r. split; [exact Hr|]. split; [exact Hq|exact Hu].
Defined.

Lemma customer_summary_window_witness :
  exists r,
    ReportService.get_customer_summary 100 (Some 1705314600000000) (Some 1705401000000000)
      (Sample.session_of Sample.db2)
    = (Returned (Some r), Sample.session_of Sample.db2)
    /\ CustomerSummaryResponse.unique_products_count r = 2.
Proof.
  destruct (customer_summary_window (Sample.session_of Sample.db2) 100
              (Some 1705314600000000) (Some 1705401000000000))
    as (r & Hr & _ & _ & _ & Hu & _).
  - reflexivity.
  - apply (bool_decide_unpack _). vm_compute. exact I.
  - exists r. split; [exact Hr|exact Hu].
Defined.

Lemma page_metadata_witness :
  exists resp,
    TransactionService.list_transactions Cases.first_page (Sample.session_of Sample.db2)
    = (Returned resp, Sample.session_of Sample.db2)
    /\ TransactionListResponse.total resp = 2
    /\ (TransactionListResponse.has_next resp = true <-> 0 + 1 < 2).
Proof.
  destruct (page_metadata Cases.first_page (Sample.session_of Sample.db2))
    as (resp & Hr & Ht & _ & _ & _ & _ & Hn & _).
  - reflexivity.
  - exists resp. split; [exact Hr|]. split; [exact Ht|exact Hn].
Defined.

Lemma page_items_witness :
  exists resp sorted,
    TransactionService.list_transactions Cases.first_page (Sample.session_of Sample.db2)
    = (Returned resp, Sample.session_of Sample.db2)
    /\ newest_first sorted
    /\ TransactionListResponse.items resp
       = TransactionResponse.model_validate <$> take 1 (drop 0 sorted).
Proof.
  destruct (page_items Cases.first_page (Sample.session_of Sample.db2))
    as (resp & sorted & Hr & _ & Hs & Hi & _).
  - reflexivity.
  - exists resp, sorted. split; [exact Hr|]. split; [exact Hs|exact Hi].
Defined.

Lemma listed_items_witness :
  exists resp,
    TransactionService.list_transactions Cases.first_page (Sample.session_of Sample.db2)
    = (Returned resp, Sample.session_of Sample.db2)
    /\ forall it, it ∈ TransactionListResponse.items resp ->
         TransactionService.get_transaction (TransactionResponse.transaction_id it)
           (Sample.session_of Sample.db2)
         = (Returned (Some it), Sample.session_of Sample.db2).
Proof.
  destruct (listed_items_can_be_fetched Cases.first_page (Sample.session_of Sample.db2))
    as [(resp & Hr & Hg) _].
  - reflexivity.
  - apply (bool_decide_unpack _). vm_compute. exact I.
  - exists resp. split; [exact Hr|exact Hg].
Defined.

Lemma parse_failure_causes_witness :
  exists fieldnames body record,
    [Sample.header; Cases.long_record] = fieldnames :: body
    /\ record ∈ body /\ length record <> length fieldnames.
Proof.
  destruct (parse_failure_causes (parsers := Sample.parsers)
              (utf8_text [Sample.header; Cases.long_record]) Sample.s0 Sample.s0
              (PydanticValidationError "ValidationError"))
    as (_ & [[Hu _]|[(records & rest & msg & Hu & _)
                    |(_ & fn & body & record & Hf & Hin & Hlen & _)]]).
  - vm_compute. reflexivity.
  - discriminate Hu.
  - discriminate Hu.
  - exists fn, body, record. split; [exact Hf|]. split; [exact Hin|exact Hlen].
Defined.

Lemma imported_rows_witness :
  exists valid errs total,
    _parse_csv (parsers := Sample.parsers) Cases.blank_lines_file Sample.s0
    = (Returned (valid, errs, total), Sample.s0)
    /\ processed_count Cases.blank_lines_response = len valid
    /\ NoDup (stored_ids (view Cases.blank_lines_run.2)).
Proof.
  destruct (imported_rows_can_be_fetched (parsers := Sample.parsers) (writers := no_writers)
              Sample.service Cases.blank_lines_file "blank.csv" Sample.s0
              Cases.blank_lines_run.2 Cases.blank_lines_response)
    as (valid & errs & total & Hp & Hc & Hnd & _).
  - vm_compute. reflexivity.
  - reflexivity.
  - apply NoDup_nil_2.
  - exists valid, errs, total. split; [exact Hp|]. split; [exact Hc|exact Hnd].
Defined.


Lemma convert_to_pln_witness :
  (exists r, ReportService.convert_to_pln (dec_of_num 15 (-2)) EUR = Returned r
     /\ dec_exp r = -2)
  /\ (exists e, ReportService.convert_to_pln (dec_of_num (10 ^ 28) (-2)) EUR = Raised e).
Proof.
  split.
  - destruct (convert_to_pln_nearest_even 15 EUR) as [H _].
    destruct H as (r & Hr & He & _); [vm_compute; reflexivity|]. eauto.
  - destruct (convert_to_pln_nearest_even (10 ^ 28) EUR) as [_ H].
    destruct H as (e & He & _); [vm_compute; discriminate|]. eauto.
Defined.
